(** * The 8259A interrupt controller pair of hw/i8259.c

    A shallow embedding of the register-level code of [hw/i8259.c]: the
    unit record [PicState], the cascaded pair [PicState2], priority
    resolution, line input, interrupt acknowledge, the I/O port decoder,
    the ELCR port and the two resets, followed by the properties the
    specification states about them and by further properties read off
    the code; and of the window accessors of [hw/pci_bridge.c].

    Conventions.
    - A [uint8_t] field is a [Z]; a store into it wraps modulo 256 ([u8]).
      [int] and [uint32_t] temporaries are [Z]; no computation of the file
      leaves the 32-bit range on 8-bit registers.
    - C truth values: a scalar is true when it is not 0.
    - A call either returns, never returns (the [while] loop of
      [get_priority]) or stops the machine ([hw_error]); see [exec]. *)

From Stdlib Require Import ZArith Bool List String Lia.
Import ListNotations.

Local Open Scope Z_scope.

(** ** Outcome of a call *)

Inductive exec (A : Type) : Type :=
| Ret (a : A)            (* the call returns [a] *)
| Diverge                (* the call never returns *)
| Halt (msg : string).   (* [hw_error]: the machine is stopped *)

Arguments Ret {A} a.
Arguments Diverge {A}.
Arguments Halt {A} msg.

Definition bind {A B : Type} (c : exec A) (k : A -> exec B) : exec B :=
  match c with
  | Ret a => k a
  | Diverge => Diverge
  | Halt msg => Halt msg
  end.

Notation "x <- c ;; k" := (bind c (fun x => k))
  (at level 61, c at next level, right associativity).

(** ** Data model *)

(** Conversion to [uint8_t]. *)
Definition u8 (z : Z) : Z := z mod 256.

(** C truth value of a scalar. *)
Definition truthy (z : Z) : bool := negb (z =? 0).

(** [struct PicState], registers only.  The handles [int_out] and
    [pics_state] are not data of the unit: they are rendered by the unit's
    index in the pair, see [int_out] below. *)
Record PicState : Type := mkPicState {
  last_irr : Z;                  (* edge detection *)
  irr : Z;                       (* interrupt request register *)
  imr : Z;                       (* interrupt mask register *)
  isr : Z;                       (* interrupt service register *)
  priority_add : Z;              (* highest irq priority *)
  irq_base : Z;
  read_reg_select : Z;
  poll : Z;
  special_mask : Z;
  init_state : Z;
  auto_eoi : Z;
  rotate_on_auto_eoi : Z;
  special_fully_nested_mode : Z;
  init4 : Z;                     (* true if 4 byte init *)
  single_mode : Z;               (* true if slave pic is not initialized *)
  elcr : Z;                      (* PIIX edge/trigger selection *)
  elcr_mask : Z
}.

(** Index into [pics[2]]: 0 is the master pic, 1 is the slave pic. *)
Inductive pic_index : Type := Master | Slave.

Definition is_master (i : pic_index) : bool :=
  match i with Master => true | Slave => false end.

(** [struct PicState2], together with the level last driven on the wire
    towards the processor (the [parent_irq] handle given to [i8259_init]). *)
Record PicState2 : Type := mkPicState2 {
  pics0 : PicState;
  pics1 : PicState;
  parent_irq : Z
}.

Definition pics (s : PicState2) (i : pic_index) : PicState :=
  match i with Master => pics0 s | Slave => pics1 s end.

Definition set_pics (i : pic_index) (p : PicState) (s : PicState2) : PicState2 :=
  match i with
  | Master => mkPicState2 p (pics1 s) (parent_irq s)
  | Slave => mkPicState2 (pics0 s) p (parent_irq s)
  end.

Definition set_parent_irq (level : Z) (s : PicState2) : PicState2 :=
  mkPicState2 (pics0 s) (pics1 s) level.

(** Field stores [s->f = v]. *)
Definition set_last_irr (v : Z) (p : PicState) : PicState :=
  mkPicState v (irr p) (imr p) (isr p) (priority_add p) (irq_base p)
    (read_reg_select p) (poll p) (special_mask p) (init_state p) (auto_eoi p)
    (rotate_on_auto_eoi p) (special_fully_nested_mode p) (init4 p)
    (single_mode p) (elcr p) (elcr_mask p).
Definition set_irr (v : Z) (p : PicState) : PicState :=
  mkPicState (last_irr p) v (imr p) (isr p) (priority_add p) (irq_base p)
    (read_reg_select p) (poll p) (special_mask p) (init_state p) (auto_eoi p)
    (rotate_on_auto_eoi p) (special_fully_nested_mode p) (init4 p)
    (single_mode p) (elcr p) (elcr_mask p).
Definition set_imr (v : Z) (p : PicState) : PicState :=
  mkPicState (last_irr p) (irr p) v (isr p) (priority_add p) (irq_base p)
    (read_reg_select p) (poll p) (special_mask p) (init_state p) (auto_eoi p)
    (rotate_on_auto_eoi p) (special_fully_nested_mode p) (init4 p)
    (single_mode p) (elcr p) (elcr_mask p).
Definition set_isr (v : Z) (p : PicState) : PicState :=
  mkPicState (last_irr p) (irr p) (imr p) v (priority_add p) (irq_base p)
    (read_reg_select p) (poll p) (special_mask p) (init_state p) (auto_eoi p)
    (rotate_on_auto_eoi p) (special_fully_nested_mode p) (init4 p)
    (single_mode p) (elcr p) (elcr_mask p).
Definition set_priority_add (v : Z) (p : PicState) : PicState :=
  mkPicState (last_irr p) (irr p) (imr p) (isr p) v (irq_base p)
    (read_reg_select p) (poll p) (special_mask p) (init_state p) (auto_eoi p)
    (rotate_on_auto_eoi p) (special_fully_nested_mode p) (init4 p)
    (single_mode p) (elcr p) (elcr_mask p).
Definition set_irq_base (v : Z) (p : PicState) : PicState :=
  mkPicState (last_irr p) (irr p) (imr p) (isr p) (priority_add p) v
    (read_reg_select p) (poll p) (special_mask p) (init_state p) (auto_eoi p)
    (rotate_on_auto_eoi p) (special_fully_nested_mode p) (init4 p)
    (single_mode p) (elcr p) (elcr_mask p).
Definition set_read_reg_select (v : Z) (p : PicState) : PicState :=
  mkPicState (last_irr p) (irr p) (imr p) (isr p) (priority_add p) (irq_base p)
    v (poll p) (special_mask p) (init_state p) (auto_eoi p)
    (rotate_on_auto_eoi p) (special_fully_nested_mode p) (init4 p)
    (single_mode p) (elcr p) (elcr_mask p).
Definition set_poll (v : Z) (p : PicState) : PicState :=
  mkPicState (last_irr p) (irr p) (imr p) (isr p) (priority_add p) (irq_base p)
    (read_reg_select p) v (special_mask p) (init_state p) (auto_eoi p)
    (rotate_on_auto_eoi p) (special_fully_nested_mode p) (init4 p)
    (single_mode p) (elcr p) (elcr_mask p).
Definition set_special_mask (v : Z) (p : PicState) : PicState :=
  mkPicState (last_irr p) (irr p) (imr p) (isr p) (priority_add p) (irq_base p)
    (read_reg_select p) (poll p) v (init_state p) (auto_eoi p)
    (rotate_on_auto_eoi p) (special_fully_nested_mode p) (init4 p)
    (single_mode p) (elcr p) (elcr_mask p).
Definition set_init_state (v : Z) (p : PicState) : PicState :=
  mkPicState (last_irr p) (irr p) (imr p) (isr p) (priority_add p) (irq_base p)
    (read_reg_select p) (poll p) (special_mask p) v (auto_eoi p)
    (rotate_on_auto_eoi p) (special_fully_nested_mode p) (init4 p)
    (single_mode p) (elcr p) (elcr_mask p).
Definition set_auto_eoi (v : Z) (p : PicState) : PicState :=
  mkPicState (last_irr p) (irr p) (imr p) (isr p) (priority_add p) (irq_base p)
    (read_reg_select p) (poll p) (special_mask p) (init_state p) v
    (rotate_on_auto_eoi p) (special_fully_nested_mode p) (init4 p)
    (single_mode p) (elcr p) (elcr_mask p).
Definition set_rotate_on_auto_eoi (v : Z) (p : PicState) : PicState :=
  mkPicState (last_irr p) (irr p) (imr p) (isr p) (priority_add p) (irq_base p)
    (read_reg_select p) (poll p) (special_mask p) (init_state p) (auto_eoi p)
    v (special_fully_nested_mode p) (init4 p)
    (single_mode p) (elcr p) (elcr_mask p).
Definition set_special_fully_nested_mode (v : Z) (p : PicState) : PicState :=
  mkPicState (last_irr p) (irr p) (imr p) (isr p) (priority_add p) (irq_base p)
    (read_reg_select p) (poll p) (special_mask p) (init_state p) (auto_eoi p)
    (rotate_on_auto_eoi p) v (init4 p)
    (single_mode p) (elcr p) (elcr_mask p).
Definition set_init4 (v : Z) (p : PicState) : PicState :=
  mkPicState (last_irr p) (irr p) (imr p) (isr p) (priority_add p) (irq_base p)
    (read_reg_select p) (poll p) (special_mask p) (init_state p) (auto_eoi p)
    (rotate_on_auto_eoi p) (special_fully_nested_mode p) v
    (single_mode p) (elcr p) (elcr_mask p).
Definition set_single_mode (v : Z) (p : PicState) : PicState :=
  mkPicState (last_irr p) (irr p) (imr p) (isr p) (priority_add p) (irq_base p)
    (read_reg_select p) (poll p) (special_mask p) (init_state p) (auto_eoi p)
    (rotate_on_auto_eoi p) (special_fully_nested_mode p) (init4 p)
    v (elcr p) (elcr_mask p).
Definition set_elcr (v : Z) (p : PicState) : PicState :=
  mkPicState (last_irr p) (irr p) (imr p) (isr p) (priority_add p) (irq_base p)
    (read_reg_select p) (poll p) (special_mask p) (init_state p) (auto_eoi p)
    (rotate_on_auto_eoi p) (special_fully_nested_mode p) (init4 p)
    (single_mode p) v (elcr_mask p).

(** Every field holds a [uint8_t] value. *)
Definition is_u8 (z : Z) : bool := (0 <=? z) && (z <? 256).

Definition wf_pic (p : PicState) : bool :=
  forallb is_u8
    [ last_irr p; irr p; imr p; isr p; priority_add p; irq_base p;
      read_reg_select p; poll p; special_mask p; init_state p; auto_eoi p;
      rotate_on_auto_eoi p; special_fully_nested_mode p; init4 p;
      single_mode p; elcr p; elcr_mask p ].

Definition wf (s : PicState2) : bool := wf_pic (pics0 s) && wf_pic (pics1 s).

(** ** Priority resolution *)

(** The loop [while ((mask & (1 << ((priority + s->priority_add) & 7))) == 0)
    priority++;] run for at most [fuel] tests of its condition. *)
Fixpoint get_priority_loop (fuel : nat) (s : PicState) (mask priority : Z)
  : option Z :=
  match fuel with
  | O => None
  | S fuel' =>
      if Z.land mask (Z.shiftl 1 (Z.land (priority + priority_add s) 7)) =? 0
      then get_priority_loop fuel' s mask (priority + 1)
      else Some priority
  end.

Definition get_priority_fuel (fuel : nat) (s : PicState) (mask : Z) : option Z :=
  if mask =? 0 then Some 8 else get_priority_loop fuel s mask 0.

(** The line tested at priority position [p]. *)
Definition line_at (s : PicState) (p : Z) : Z := Z.land (p + priority_add s) 7.

(** [get_priority]: the loop inspects the eight lines cyclically, so eight
    tests decide it: it has exited by then or it never does (lemmas
    [get_priority_fuel_enough] and [get_priority_diverges]). *)
Definition get_priority (s : PicState) (mask : Z) : exec Z :=
  match get_priority_fuel 8 s mask with
  | Some priority => Ret priority
  | None => Diverge
  end.

(** [pic_get_irq]: the pic wanted interrupt, -1 if none.  The unit is
    [pics s i]; the test [s == &s->pics_state->pics[0]] is [is_master i]. *)
Definition pic_get_irq (s : PicState2) (i : pic_index) : exec Z :=
  let p := pics s i in
  let mask := Z.land (irr p) (Z.lnot (imr p)) in
  priority <- get_priority p mask ;;
  if priority =? 8 then Ret (-1)
  else
    let mask := isr p in
    let mask := if truthy (special_mask p)
                then Z.land mask (Z.lnot (imr p)) else mask in
    let mask := if truthy (special_fully_nested_mode p) && is_master i
                then Z.land mask (Z.lnot (Z.shiftl 1 2)) else mask in
    cur_priority <- get_priority p mask ;;
    if priority <? cur_priority
    then Ret (Z.land (priority + priority_add p) 7)
    else Ret (-1).

(** ** Output wires *)

(** A [qemu_irq] handle: what the wire's handler does with the pair when a
    level is driven on it. *)
Definition irq_handler : Type := Z -> PicState2 -> exec PicState2.

(** Modelled from the spec: [qemu_irq_raise] and [qemu_irq_lower] of
    hw/irq.c, which is not among the sources: idempotent level sets on a
    wire, delivered at once to the wire's handler. *)
Definition qemu_irq_raise (irq : irq_handler) : PicState2 -> exec PicState2 :=
  irq 1.
Definition qemu_irq_lower (irq : irq_handler) : PicState2 -> exec PicState2 :=
  irq 0.

Section Wired.

(** [s->int_out] of the unit at hand. *)
Variable int_out : irq_handler.

(** [pic_update_irq]: update the INT output. *)
Definition pic_update_irq_on (s : PicState2) (i : pic_index)
  : exec PicState2 :=
  irq <- pic_get_irq s i ;;
  if irq >=? 0 then qemu_irq_raise int_out s else qemu_irq_lower int_out s.

(** The register part of [pic_set_irq1] (all but the closing
    [pic_update_irq]). *)
Definition pic_set_irq1_regs (p : PicState) (irq level : Z) : PicState :=
  let mask := Z.shiftl 1 irq in
  if truthy (Z.land (elcr p) mask) then
    (* level triggered *)
    if truthy level then
      let p := set_irr (u8 (Z.lor (irr p) mask)) p in
      set_last_irr (u8 (Z.lor (last_irr p) mask)) p
    else
      let p := set_irr (u8 (Z.land (irr p) (Z.lnot mask))) p in
      set_last_irr (u8 (Z.land (last_irr p) (Z.lnot mask))) p
  else
    (* edge triggered *)
    if truthy level then
      let p := if Z.land (last_irr p) mask =? 0
               then set_irr (u8 (Z.lor (irr p) mask)) p else p in
      set_last_irr (u8 (Z.lor (last_irr p) mask)) p
    else
      set_last_irr (u8 (Z.land (last_irr p) (Z.lnot mask))) p.

(** [pic_set_irq1]: set irq level. *)
Definition pic_set_irq1_on (s : PicState2) (i : pic_index) (irq level : Z)
  : exec PicState2 :=
  pic_update_irq_on (set_pics i (pic_set_irq1_regs (pics s i) irq level) s) i.

End Wired.

(** The wire towards the processor, [parent_irq] of [i8259_init]: its
    handler belongs to the host and does not touch the pair; the level it
    was given is recorded. *)
Definition parent_irq_out : irq_handler :=
  fun level s => Ret (set_parent_irq level s).

(** The wiring done by [i8259_init]: [pics[0].int_out = parent_irq] and
    [pics[1].int_out = irqs[2]], whose handler is [i8259_set_irq] with
    [irq = 2], that is [pic_set_irq1(&s->pics[0], 2, level)]. *)
Definition int_out (i : pic_index) : irq_handler :=
  match i with
  | Master => parent_irq_out
  | Slave => fun level s => pic_set_irq1_on parent_irq_out s Master 2 level
  end.

Definition pic_update_irq (s : PicState2) (i : pic_index) : exec PicState2 :=
  pic_update_irq_on (int_out i) s i.

Definition pic_set_irq1 (s : PicState2) (i : pic_index) (irq level : Z)
  : exec PicState2 :=
  pic_set_irq1_on (int_out i) s i irq level.

(** [pics[irq >> 3]]; the sixteen handles of [qemu_allocate_irqs] carry
    [irq] in 0..15 only. *)
Definition pic_of_line (irq : Z) : pic_index :=
  if Z.shiftr irq 3 =? 0 then Master else Slave.

Definition i8259_set_irq (s : PicState2) (irq level : Z) : exec PicState2 :=
  pic_set_irq1 s (pic_of_line irq) (Z.land irq 7) level.

(** ** Interrupt acknowledge *)

(** [pic_intack]: acknowledge interrupt [irq]. *)
Definition pic_intack (s : PicState2) (i : pic_index) (irq : Z)
  : exec PicState2 :=
  let p := pics s i in
  let p :=
    if truthy (auto_eoi p) then
      if truthy (rotate_on_auto_eoi p)
      then set_priority_add (u8 (Z.land (irq + 1) 7)) p
      else p
    else set_isr (u8 (Z.lor (isr p) (Z.shiftl 1 irq))) p in
  (* We don't clear a level sensitive interrupt here *)
  let p :=
    if negb (truthy (Z.land (elcr p) (Z.shiftl 1 irq)))
    then set_irr (u8 (Z.land (irr p) (Z.lnot (Z.shiftl 1 irq)))) p
    else p in
  pic_update_irq (set_pics i p s) i.

(** [pic_read_irq]: the vector [intno] and the pair after the cycle. *)
Definition pic_read_irq (s : PicState2) : exec (Z * PicState2) :=
  irq <- pic_get_irq s Master ;;
  if irq >=? 0 then
    if irq =? 2 then
      irq2 <- pic_get_irq s Slave ;;
      if irq2 >=? 0 then
        s1 <- pic_intack s Slave irq2 ;;
        let intno := irq_base (pics1 s1) + irq2 in
        s2 <- pic_intack s1 Master irq ;;
        Ret (intno, s2)
      else
        (* spurious IRQ on slave controller *)
        let irq2 := 7 in
        let intno := irq_base (pics1 s) + irq2 in
        s2 <- pic_intack s Master irq ;;
        Ret (intno, s2)
    else
      let intno := irq_base (pics0 s) + irq in
      s2 <- pic_intack s Master irq ;;
      Ret (intno, s2)
  else
    (* spurious IRQ on host controller *)
    let irq := 7 in
    Ret (irq_base (pics0 s) + irq, s).

(** ** Reset *)

(** [pic_init_reset]. Note: ELCR is not reset. *)
Definition pic_init_reset (s : PicState2) (i : pic_index) : exec PicState2 :=
  let p := pics s i in
  let p := mkPicState 0 0 0 0 0 0 0 0 0 0 0 0 0 0 0 (elcr p) (elcr_mask p) in
  pic_update_irq (set_pics i p s) i.

(** [pic_reset]. *)
Definition pic_reset (s : PicState2) (i : pic_index) : exec PicState2 :=
  s1 <- pic_init_reset s i ;;
  Ret (set_pics i (set_elcr 0 (pics s1 i)) s1).

(** Modelled from the spec: [hw_error], declared in hw/hw.h and defined
    outside the sources: it reports the message and halts the emulated
    machine; it does not return. *)
Definition hw_error {A : Type} (msg : string) : exec A := Halt msg.

(** ** I/O ports *)

(** [pic_ioport_write]; [val] is the [uint32_t] value written. *)
Definition pic_ioport_write (s : PicState2) (i : pic_index) (addr val : Z)
  : exec PicState2 :=
  let p := pics s i in
  if addr =? 0 then
    if truthy (Z.land val 16) then
      s1 <- pic_init_reset s i ;;
      let p := pics s1 i in
      let p := set_init_state 1 p in
      let p := set_init4 (u8 (Z.land val 1)) p in
      let p := set_single_mode (u8 (Z.land val 2)) p in
      if truthy (Z.land val 8)
      then hw_error "level sensitive irq not supported"
      else Ret (set_pics i p s1)
    else if truthy (Z.land val 8) then
      let p := if truthy (Z.land val 4) then set_poll 1 p else p in
      let p := if truthy (Z.land val 2)
               then set_read_reg_select (u8 (Z.land val 1)) p else p in
      let p := if truthy (Z.land val 64)
               then set_special_mask (u8 (Z.land (Z.shiftr val 5) 1)) p
               else p in
      Ret (set_pics i p s)
    else
      let cmd := Z.shiftr val 5 in
      if (cmd =? 0) || (cmd =? 4) then
        Ret (set_pics i (set_rotate_on_auto_eoi (u8 (Z.shiftr cmd 2)) p) s)
      else if (cmd =? 1) || (cmd =? 5) then
        (* end of interrupt *)
        priority <- get_priority p (isr p) ;;
        if negb (priority =? 8) then
          let irq := Z.land (priority + priority_add p) 7 in
          let p := set_isr (u8 (Z.land (isr p) (Z.lnot (Z.shiftl 1 irq)))) p in
          let p := if cmd =? 5
                   then set_priority_add (u8 (Z.land (irq + 1) 7)) p else p in
          pic_update_irq (set_pics i p s) i
        else Ret s
      else if cmd =? 3 then
        let irq := Z.land val 7 in
        let p := set_isr (u8 (Z.land (isr p) (Z.lnot (Z.shiftl 1 irq)))) p in
        pic_update_irq (set_pics i p s) i
      else if cmd =? 6 then
        let p := set_priority_add (u8 (Z.land (val + 1) 7)) p in
        pic_update_irq (set_pics i p s) i
      else if cmd =? 7 then
        let irq := Z.land val 7 in
        let p := set_isr (u8 (Z.land (isr p) (Z.lnot (Z.shiftl 1 irq)))) p in
        let p := set_priority_add (u8 (Z.land (irq + 1) 7)) p in
        pic_update_irq (set_pics i p s) i
      else
        (* no operation *)
        Ret s
  else
    if init_state p =? 0 then
      (* normal mode *)
      pic_update_irq (set_pics i (set_imr (u8 val) p) s) i
    else if init_state p =? 1 then
      let p := set_irq_base (u8 (Z.land val 248)) p in
      let p := set_init_state
                 (if truthy (single_mode p)
                  then (if truthy (init4 p) then 3 else 0) else 2) p in
      Ret (set_pics i p s)
    else if init_state p =? 2 then
      Ret (set_pics i (set_init_state (if truthy (init4 p) then 3 else 0) p) s)
    else if init_state p =? 3 then
      let p := set_special_fully_nested_mode (u8 (Z.land (Z.shiftr val 4) 1)) p in
      let p := set_auto_eoi (u8 (Z.land (Z.shiftr val 1) 1)) p in
      Ret (set_pics i (set_init_state 0 p) s)
    else Ret s.

(** [pic_poll_read].  [isa_pic] is the pair itself ([i8259_init] stores it
    there), so [s == &isa_pic->pics[1]] holds on the slave exactly. *)
Definition pic_poll_read (s : PicState2) (i : pic_index)
  : exec (Z * PicState2) :=
  ret <- pic_get_irq s i ;;
  if ret >=? 0 then
    let slave := negb (is_master i) in
    let s :=
      if slave then
        let m := pics0 s in
        let m := set_isr (u8 (Z.land (isr m) (Z.lnot (Z.shiftl 1 2)))) m in
        let m := set_irr (u8 (Z.land (irr m) (Z.lnot (Z.shiftl 1 2)))) m in
        set_pics Master m s
      else s in
    let p := pics s i in
    let p := set_irr (u8 (Z.land (irr p) (Z.lnot (Z.shiftl 1 ret)))) p in
    let p := set_isr (u8 (Z.land (isr p) (Z.lnot (Z.shiftl 1 ret)))) p in
    let s := set_pics i p s in
    if slave || negb (ret =? 2) then
      s' <- pic_update_irq s i ;;
      Ret (ret, s')
    else Ret (ret, s)
  else
    Ret (7, s).

(** [pic_ioport_read]: the value read and the pair after the read. *)
Definition pic_ioport_read (s : PicState2) (i : pic_index) (addr : Z)
  : exec (Z * PicState2) :=
  let p := pics s i in
  if truthy (poll p) then
    r <- pic_poll_read s i ;;
    let '(ret, s1) := r in
    Ret (ret, set_pics i (set_poll 0 (pics s1 i)) s1)
  else if addr =? 0 then
    if truthy (read_reg_select p) then Ret (isr p, s) else Ret (irr p, s)
  else
    Ret (imr p, s).

(** [pic_intack_read]: memory mapped interrupt status. *)
Definition pic_intack_read (s : PicState2) : exec (Z * PicState2) :=
  r <- pic_poll_read s Master ;;
  let '(ret, s1) := r in
  r' <- (if ret =? 2
         then r2 <- pic_poll_read s1 Slave ;;
              let '(ret2, s2) := r2 in Ret (ret2 + 8, s2)
         else Ret (ret, s1)) ;;
  let '(ret, s2) := r' in
  (* Prepare for ISR read *)
  Ret (ret, set_pics Master (set_read_reg_select 1 (pics0 s2)) s2).

(** [pic_get_output]. *)
Definition pic_get_output (s : PicState2) : exec Z :=
  irq <- pic_get_irq s Master ;;
  Ret (if irq >=? 0 then 1 else 0).

(** [elcr_ioport_write] and [elcr_ioport_read]. *)
Definition elcr_ioport_write (s : PicState2) (i : pic_index) (val : Z)
  : PicState2 :=
  let p := pics s i in
  set_pics i (set_elcr (u8 (Z.land val (elcr_mask p))) p) s.

Definition elcr_ioport_read (s : PicState2) (i : pic_index) : Z :=
  elcr (pics s i).

(** [i8259_init]: [g_malloc0] clears the pair, then the two ELCR masks are
    stored.  [level] is the level of the processor wire at that time. *)
Definition i8259_init (level : Z) : PicState2 :=
  mkPicState2
    (mkPicState 0 0 0 0 0 0 0 0 0 0 0 0 0 0 0 0 248)
    (mkPicState 0 0 0 0 0 0 0 0 0 0 0 0 0 0 0 0 222)
    level.

(** ** Notions of the specification *)

(** The service mask of the pending-interrupt selection, as the
    specification words it: [isr]; under [special_mask], without the lines
    masked in [imr]; on the master under [special_fully_nested_mode],
    without line 2. *)
Definition service_mask (s : PicState2) (i : pic_index) : Z :=
  let p := pics s i in
  let m := isr p in
  let m := if truthy (special_mask p) then Z.land m (Z.lnot (imr p)) else m in
  if truthy (special_fully_nested_mode p) && is_master i
  then Z.land m (Z.lnot (Z.shiftl 1 2)) else m.

(** The lines 0..7 set in [new] and not in [old]. *)
Definition new_bits (old new : Z) : list Z :=
  filter (fun k => Z.testbit new k && negb (Z.testbit old k))
    [0; 1; 2; 3; 4; 5; 6; 7].

(** The bits newly set across the two [isr] registers from [s] to [s']:
    the (unit, line) pairs, master first. *)
Definition new_isr_bits (s s' : PicState2) : list (pic_index * Z) :=
  map (pair Master) (new_bits (isr (pics0 s)) (isr (pics0 s')))
  ++ map (pair Slave) (new_bits (isr (pics1 s)) (isr (pics1 s'))).

(** "After [ack()] exactly one new bit appears in [isr]". *)
Definition ack_sets_one_isr_bit (s : PicState2) : Prop :=
  exists intno s' u k,
    pic_read_irq s = Ret (intno, s') /\ new_isr_bits s s' = [(u, k)].

(** The pair of scenario 4 of the specification before the acknowledge:
    both units initialised (master base 0x20, slave base 0x28, ICW4 = 1),
    then line 10 raised. *)
Definition cascade_request : PicState2 :=
  mkPicState2
    (mkPicState 4 4 0 0 0 32 0 0 0 0 0 0 0 1 0 0 248)
    (mkPicState 4 4 0 0 0 40 0 0 0 0 0 0 0 1 0 0 222)
    1.

(** A pair with line 3 pending on the master, [auto_eoi] clear on the
    master and set on the slave. *)
Definition master_request_slave_auto_eoi : PicState2 :=
  mkPicState2
    (mkPicState 8 8 0 0 0 32 0 0 0 0 0 0 0 1 0 0 248)
    (mkPicState 0 0 0 0 0 40 0 0 0 0 1 0 0 1 0 0 222)
    1.

(** Line [k] cleared in the byte register [x]. *)
Definition clear_line (x k : Z) : Z := u8 (Z.land x (Z.lnot (Z.shiftl 1 k))).

(** The registers after the polled acknowledge of line [r] on unit [i],
    as the specification words it: line [r] cleared in the unit's [irr] and
    [isr] and, on the slave, line 2 cleared in the master's [irr] and
    [isr]. *)
Definition poll_cleared (s : PicState2) (i : pic_index) (r : Z) : PicState2 :=
  let s :=
    match i with
    | Master => s
    | Slave =>
        let m := pics0 s in
        set_pics Master
          (set_irr (clear_line (irr m) 2) (set_isr (clear_line (isr m) 2) m)) s
    end in
  let p := pics s i in
  set_pics i (set_irr (clear_line (irr p) r) (set_isr (clear_line (isr p) r) p)) s.

(** The polled acknowledge of the specification: it re-evaluates the
    output on every pending line. *)
Definition pic_poll_read_spec (s : PicState2) (i : pic_index)
  : exec (Z * PicState2) :=
  ret <- pic_get_irq s i ;;
  if ret >=? 0 then
    s' <- pic_update_irq (poll_cleared s i ret) i ;;
    Ret (ret, s')
  else Ret (7, s).

(** "A read from offset 0 that finds [poll] set clears it and performs the
    polled acknowledge". *)
Definition poll_read_as_specified (s : PicState2) (i : pic_index) : Prop :=
  pic_ioport_read s i 0
  = (r <- pic_poll_read_spec s i ;;
     let '(ret, s1) := r in
     Ret (ret, set_pics i (set_poll 0 (pics s1 i)) s1)).

(** The pair of scenario 4 with the poll command (OCW3, 0x0C) written to
    the master. *)
Definition cascade_request_polled : PicState2 :=
  set_pics Master (set_poll 1 (pics0 cascade_request)) cascade_request.

(** The freshly built pair after OCW1 = 0xFF and the poll command on the
    master. *)
Definition masked_polled : PicState2 :=
  set_pics Master (set_poll 1 (set_imr 255 (pics0 (i8259_init 0))))
    (i8259_init 0).

(** ** The pair as a state machine *)

(** The public operations: port writes and reads, ELCR writes, line
    inputs, the two acknowledges and the reset of a unit. *)
Inductive operation : Type :=
| OpPortWrite (i : pic_index) (addr val : Z)
| OpPortRead (i : pic_index) (addr : Z)
| OpElcrWrite (i : pic_index) (val : Z)
| OpSetIrq (irq level : Z)
| OpReadIrq
| OpIntackRead
| OpReset (i : pic_index).

Definition run (o : operation) (s : PicState2) : exec PicState2 :=
  match o with
  | OpPortWrite i addr val => pic_ioport_write s i addr val
  | OpPortRead i addr => r <- pic_ioport_read s i addr ;; Ret (snd r)
  | OpElcrWrite i val => Ret (elcr_ioport_write s i val)
  | OpSetIrq irq level => i8259_set_irq s irq level
  | OpReadIrq => r <- pic_read_irq s ;; Ret (snd r)
  | OpIntackRead => r <- pic_intack_read s ;; Ret (snd r)
  | OpReset i => pic_reset s i
  end.

(** A sequence of operations, each on the pair the one before returned. *)
Fixpoint run_all (os : list operation) (s : PicState2) : exec PicState2 :=
  match os with
  | [] => Ret s
  | o :: os' => s' <- run o s ;; run_all os' s'
  end.

(** The line handles are the sixteen of [qemu_allocate_irqs]. *)
Definition admissible (o : operation) : Prop :=
  match o with
  | OpSetIrq irq _ => 0 <= irq < 16
  | _ => True
  end.

(** The states the pair goes through from its construction. *)
Inductive reachable : PicState2 -> Prop :=
| reachable_init (level : Z) : reachable (i8259_init level)
| reachable_step (s s' : PicState2) (o : operation) :
    reachable s -> admissible o -> run o s = Ret s' -> reachable s'.

(** Both vector bases are multiples of 8. *)
Definition base_aligned (s : PicState2) : Prop :=
  forall j, Z.land (irq_base (pics s j)) 7 = 0.

Definition pic_invariant (s : PicState2) : Prop :=
  wf s = true /\ base_aligned s.

(** ** Ranges of the registers *)

(** A one-bit register. *)
Definition flag (x : Z) : Prop := x = 0 \/ x = 1.

(** The values the code ever stores in the mode registers of a unit. *)
Definition regs_in_range (p : PicState) : Prop :=
  0 <= priority_add p < 8
  /\ 0 <= init_state p <= 3
  /\ flag (read_reg_select p)
  /\ flag (poll p)
  /\ flag (special_mask p)
  /\ flag (auto_eoi p)
  /\ flag (rotate_on_auto_eoi p)
  /\ flag (special_fully_nested_mode p)
  /\ flag (init4 p)
  /\ (single_mode p = 0 \/ single_mode p = 2).

(** [elcr_mask] is [mask] and [elcr] has no bit outside it. *)
Definition elcr_within (mask : Z) (p : PicState) : Prop :=
  elcr_mask p = mask /\ Z.land (elcr p) mask = elcr p.

Definition unit_ok (mask : Z) (p : PicState) : Prop :=
  wf_pic p = true /\ regs_in_range p /\ elcr_within mask p.

(** The ELCR masks stored by [i8259_init]. *)
Definition elcr_mask_of (i : pic_index) : Z :=
  match i with Master => 248 | Slave => 222 end.

Definition pair_ok (s : PicState2) : Prop :=
  unit_ok 248 (pics0 s) /\ unit_ok 222 (pics1 s).

(** The one operation that stops the machine: a write to offset 0 with
    bit 4 (ICW1) and bit 3 (level sensitive) set. *)
Definition level_icw1 (o : operation) : bool :=
  match o with
  | OpPortWrite _ addr val =>
      (addr =? 0) && truthy (Z.land val 16) && truthy (Z.land val 8)
  | _ => false
  end.

(** * The filtering windows of a PCI-to-PCI bridge (hw/pci_bridge.c) *)

(** Conversion to [uint32_t] and to [pcibus_t] ([uint64_t]). *)
Definition u32 (z : Z) : Z := z mod 2 ^ 32.
Definition u64 (z : Z) : Z := z mod 2 ^ 64.

(** The register offsets and bit masks of pci_regs.h and the accessors
    [pci_get_word] and [pci_get_long] of pci.h, none of which is among the
    sources, as parameters.  An accessor takes the configuration space and
    the offset it reads at. *)
Record pci_env : Type := mk_pci_env {
  PCI_IO_RANGE_MASK : Z;
  PCI_IO_RANGE_TYPE_32 : Z;
  PCI_MEMORY_RANGE_MASK : Z;
  PCI_PREF_RANGE_MASK : Z;
  PCI_PREF_RANGE_TYPE_64 : Z;
  PCI_BASE_ADDRESS_SPACE_IO : Z;
  PCI_BASE_ADDRESS_MEM_PREFETCH : Z;
  PCI_IO_BASE : Z;
  PCI_IO_BASE_UPPER16 : Z;
  PCI_IO_LIMIT : Z;
  PCI_IO_LIMIT_UPPER16 : Z;
  PCI_MEMORY_BASE : Z;
  PCI_MEMORY_LIMIT : Z;
  PCI_PREF_MEMORY_BASE : Z;
  PCI_PREF_BASE_UPPER32 : Z;
  PCI_PREF_MEMORY_LIMIT : Z;
  PCI_PREF_LIMIT_UPPER32 : Z;
  pci_get_word : (Z -> Z) -> Z -> Z;
  pci_get_long : (Z -> Z) -> Z -> Z
}.

(** [pci_config_get_io_base]; [config k] is [d->config[k]]. *)
Definition pci_config_get_io_base (E : pci_env) (config : Z -> Z)
  (base base_upper16 : Z) : Z :=
  let val := u32 (Z.shiftl (Z.land (config base) (PCI_IO_RANGE_MASK E)) 8) in
  if truthy (Z.land (config base) (PCI_IO_RANGE_TYPE_32 E))
  then u32 (Z.lor val
              (u32 (Z.shiftl (u32 (pci_get_word E config base_upper16)) 16)))
  else val.

(** [pci_config_get_memory_base]. *)
Definition pci_config_get_memory_base (E : pci_env) (config : Z -> Z)
  (base : Z) : Z :=
  u64 (Z.shiftl
         (Z.land (u64 (pci_get_word E config base)) (PCI_MEMORY_RANGE_MASK E))
         16).

(** [pci_config_get_pref_base]. *)
Definition pci_config_get_pref_base (E : pci_env) (config : Z -> Z)
  (base upper : Z) : Z :=
  let tmp := u64 (pci_get_word E config base) in
  let val := u64 (Z.shiftl (Z.land tmp (PCI_PREF_RANGE_MASK E)) 16) in
  if truthy (Z.land tmp (PCI_PREF_RANGE_TYPE_64 E))
  then u64 (Z.lor val (u64 (Z.shiftl (u64 (pci_get_long E config upper)) 32)))
  else val.

(** [pci_bridge_get_base]: the bridge filtering base address. *)
Definition pci_bridge_get_base (E : pci_env) (config : Z -> Z) (type : Z) : Z :=
  if truthy (Z.land type (PCI_BASE_ADDRESS_SPACE_IO E)) then
    pci_config_get_io_base E config (PCI_IO_BASE E) (PCI_IO_BASE_UPPER16 E)
  else if truthy (Z.land type (PCI_BASE_ADDRESS_MEM_PREFETCH E)) then
    pci_config_get_pref_base E config
      (PCI_PREF_MEMORY_BASE E) (PCI_PREF_BASE_UPPER32 E)
  else
    pci_config_get_memory_base E config (PCI_MEMORY_BASE E).

(** [pci_bridge_get_limit]: the bridge filtering limit. *)
Definition pci_bridge_get_limit (E : pci_env) (config : Z -> Z) (type : Z) : Z :=
  if truthy (Z.land type (PCI_BASE_ADDRESS_SPACE_IO E)) then
    let limit :=
      pci_config_get_io_base E config (PCI_IO_LIMIT E) (PCI_IO_LIMIT_UPPER16 E) in
    (* PCI bridge spec 3.2.5.6. *)
    u64 (Z.lor limit 4095)
  else
    let limit :=
      if truthy (Z.land type (PCI_BASE_ADDRESS_MEM_PREFETCH E)) then
        pci_config_get_pref_base E config
          (PCI_PREF_MEMORY_LIMIT E) (PCI_PREF_LIMIT_UPPER32 E)
      else
        pci_config_get_memory_base E config (PCI_MEMORY_LIMIT E) in
    (* PCI bridge spec 3.2.5.{1, 8}. *)
    u64 (Z.lor limit 1048575).

(** * Properties *)

(** ** Outcomes *)

Lemma bind_Ret_inv (A B : Type) (c : exec A) (k : A -> exec B) (b : B) :
  bind c k = Ret b -> exists a, c = Ret a /\ k a = Ret b.
Proof.
  destruct c as [a| |msg]; simpl; intros H; try discriminate.
  exists a; split; [reflexivity | exact H].
Qed.

(** ** Bytes and bits *)

Lemma is_u8_iff (z : Z) : is_u8 z = true <-> 0 <= z < 256.
Proof.
  unfold is_u8. rewrite andb_true_iff, Z.leb_le, Z.ltb_lt. tauto.
Qed.

Lemma u8_range (z : Z) : 0 <= u8 z < 256.
Proof. unfold u8. apply Z.mod_pos_bound. lia. Qed.

Lemma u8_small (z : Z) : 0 <= z < 256 -> u8 z = z.
Proof. unfold u8. intros H. apply Z.mod_small. exact H. Qed.

Lemma is_u8_u8 (z : Z) : is_u8 (u8 z) = true.
Proof. apply is_u8_iff, u8_range. Qed.

Lemma truthy_false (z : Z) : truthy z = false <-> z = 0.
Proof.
  unfold truthy. rewrite negb_false_iff. apply Z.eqb_eq.
Qed.

Lemma truthy_true (z : Z) : truthy z = true <-> z <> 0.
Proof.
  unfold truthy. rewrite negb_true_iff. apply Z.eqb_neq.
Qed.

Lemma byte_high_bits (x n : Z) : 0 <= x < 256 -> 8 <= n -> Z.testbit x n = false.
Proof.
  intros Hx Hn.
  rewrite <- (Z.mod_small x (2 ^ 8)) by (change (2 ^ 8) with 256; lia).
  apply Z.mod_pow2_bits_high. lia.
Qed.

Lemma byte_of_bits (x : Z) :
  (forall n, 8 <= n -> Z.testbit x n = false) -> 0 <= x < 256.
Proof.
  intros H.
  assert (E : x = x mod 2 ^ 8).
  { apply Z.bits_inj'. intros n Hn.
    destruct (Z.lt_ge_cases n 8) as [Hlt | Hge].
    - rewrite Z.mod_pow2_bits_low by lia. reflexivity.
    - rewrite Z.mod_pow2_bits_high by lia. apply H. exact Hge. }
  rewrite E. change (2 ^ 8) with 256. apply Z.mod_pos_bound. lia.
Qed.

Lemma land_byte_l (a b : Z) : 0 <= a < 256 -> 0 <= Z.land a b < 256.
Proof.
  intros Ha. apply byte_of_bits. intros n Hn.
  rewrite Z.land_spec, (byte_high_bits a n Ha Hn). reflexivity.
Qed.

Lemma lor_byte (a b : Z) : 0 <= a < 256 -> 0 <= b < 256 -> 0 <= Z.lor a b < 256.
Proof.
  intros Ha Hb. apply byte_of_bits. intros n Hn.
  rewrite Z.lor_spec, (byte_high_bits a n Ha Hn), (byte_high_bits b n Hb Hn).
  reflexivity.
Qed.

Lemma bit_byte (k : Z) : 0 <= k < 8 -> 0 <= Z.shiftl 1 k < 256.
Proof.
  intros Hk. rewrite Z.shiftl_1_l. split.
  - apply Z.pow_nonneg. lia.
  - change 256 with (2 ^ 8). apply Z.pow_lt_mono_r; lia.
Qed.

Lemma testbit_bit (k n : Z) : 0 <= k -> Z.testbit (Z.shiftl 1 k) n = (k =? n).
Proof.
  intros Hk. rewrite Z.shiftl_1_l. apply Z.pow2_bits_eqb. exact Hk.
Qed.

(** [x & (1 << k)] is [1 << k] or 0 according to bit [k] of [x]. *)
Lemma land_bit (x k : Z) :
  0 <= k ->
  Z.land x (Z.shiftl 1 k) = if Z.testbit x k then Z.shiftl 1 k else 0.
Proof.
  intros Hk. apply Z.bits_inj'. intros n Hn.
  rewrite Z.land_spec, testbit_bit by exact Hk.
  destruct (Z.eqb_spec k n) as [->|Hne].
  - destruct (Z.testbit x n) eqn:E.
    + rewrite testbit_bit, Z.eqb_refl by exact Hn. reflexivity.
    + rewrite Z.bits_0. reflexivity.
  - rewrite andb_false_r. destruct (Z.testbit x k).
    + rewrite testbit_bit by exact Hk.
      symmetry. apply Z.eqb_neq. exact Hne.
    + rewrite Z.bits_0. reflexivity.
Qed.

Lemma bit_nonzero (k : Z) : 0 <= k -> Z.shiftl 1 k <> 0.
Proof.
  intros Hk. rewrite Z.shiftl_1_l.
  pose proof (Z.pow_pos_nonneg 2 k). lia.
Qed.

Lemma land_bit_eqb (x k : Z) :
  0 <= k -> (Z.land x (Z.shiftl 1 k) =? 0) = negb (Z.testbit x k).
Proof.
  intros Hk. rewrite land_bit by exact Hk.
  destruct (Z.testbit x k); simpl.
  - apply Z.eqb_neq, bit_nonzero, Hk.
  - reflexivity.
Qed.

Lemma truthy_land_bit (x k : Z) :
  0 <= k -> truthy (Z.land x (Z.shiftl 1 k)) = Z.testbit x k.
Proof.
  intros Hk. unfold truthy. rewrite land_bit_eqb by exact Hk.
  apply negb_involutive.
Qed.

Lemma land7_mod (x : Z) : Z.land x 7 = x mod 8.
Proof. change 7 with (Z.ones 3). apply Z.land_ones. lia. Qed.

Lemma land7_range (x : Z) : 0 <= Z.land x 7 < 8.
Proof. rewrite land7_mod. apply Z.mod_pos_bound. lia. Qed.

(** A non-zero byte has one of its eight bits set. *)
Lemma byte_nonzero_bit (x : Z) :
  0 <= x < 256 -> x <> 0 -> exists k, 0 <= k < 8 /\ Z.testbit x k = true.
Proof.
  intros Hx Hnz.
  destruct (existsb (Z.testbit x) [0; 1; 2; 3; 4; 5; 6; 7]) eqn:E.
  - apply existsb_exists in E. destruct E as [k [Hin Hk]].
    exists k. split; [| exact Hk].
    simpl in Hin. intuition lia.
  - exfalso. apply Hnz. apply Z.bits_inj'. intros n Hn.
    rewrite Z.bits_0.
    destruct (Z.lt_ge_cases n 8) as [Hlt | Hge].
    + simpl in E. repeat rewrite orb_false_iff in E.
      assert (Hc : n = 0 \/ n = 1 \/ n = 2 \/ n = 3 \/ n = 4 \/ n = 5
                   \/ n = 6 \/ n = 7) by lia.
      intuition (subst; assumption).
    + apply byte_high_bits; assumption.
Qed.

(** ** The loop of [get_priority] *)

Lemma line_at_range (s : PicState) (p : Z) : 0 <= line_at s p < 8.
Proof. apply land7_range. Qed.

Lemma line_at_period (s : PicState) (p : Z) : line_at s (p mod 8) = line_at s p.
Proof.
  unfold line_at. rewrite !land7_mod. apply Z.add_mod_idemp_l. lia.
Qed.

Lemma get_priority_loop_step (fuel : nat) (s : PicState) (mask p : Z) :
  get_priority_loop (S fuel) s mask p =
  if Z.testbit mask (line_at s p) then Some p
  else get_priority_loop fuel s mask (p + 1).
Proof.
  simpl. fold (line_at s p).
  rewrite land_bit_eqb by apply line_at_range.
  destruct (Z.testbit mask (line_at s p)); reflexivity.
Qed.

Lemma get_priority_loop_sound (fuel : nat) :
  forall (s : PicState) (mask p0 p : Z),
    get_priority_loop fuel s mask p0 = Some p ->
    p0 <= p < p0 + Z.of_nat fuel
    /\ Z.testbit mask (line_at s p) = true
    /\ (forall q, p0 <= q < p -> Z.testbit mask (line_at s q) = false).
Proof.
  induction fuel as [|fuel IH]; intros s mask p0 p H.
  - discriminate H.
  - rewrite get_priority_loop_step in H.
    destruct (Z.testbit mask (line_at s p0)) eqn:E.
    + injection H as <-. repeat split; try lia. exact E.
    + apply IH in H. destruct H as [Hr [Hb Hl]].
      repeat split; try lia; try exact Hb.
      intros q Hq. destruct (Z.eq_dec q p0) as [->|Hne]; [exact E|].
      apply Hl. lia.
Qed.

Lemma get_priority_loop_complete (fuel : nat) :
  forall (s : PicState) (mask p0 q : Z),
    p0 <= q < p0 + Z.of_nat fuel ->
    Z.testbit mask (line_at s q) = true ->
    exists p, get_priority_loop fuel s mask p0 = Some p.
Proof.
  induction fuel as [|fuel IH]; intros s mask p0 q Hq Hb.
  - lia.
  - rewrite get_priority_loop_step.
    destruct (Z.testbit mask (line_at s p0)) eqn:E.
    + exists p0. reflexivity.
    + apply (IH s mask (p0 + 1) q); [| exact Hb].
      destruct (Z.eq_dec q p0) as [->|Hne]; [congruence | lia].
Qed.

(** More fuel does not change a result. *)
Lemma get_priority_loop_mono (fuel fuel' : nat) :
  forall (s : PicState) (mask p0 p : Z),
    (fuel <= fuel')%nat ->
    get_priority_loop fuel s mask p0 = Some p ->
    get_priority_loop fuel' s mask p0 = Some p.
Proof.
  revert fuel'. induction fuel as [|fuel IH]; intros fuel' s mask p0 p Hle H.
  - discriminate H.
  - destruct fuel' as [|fuel']; [lia|].
    rewrite get_priority_loop_step in *.
    destruct (Z.testbit mask (line_at s p0)); [exact H|].
    apply IH; [lia | exact H].
Qed.

(** Eight tests are enough: with more fuel the result is the same. *)
Lemma get_priority_fuel_enough (fuel : nat) (s : PicState) (mask p : Z) :
  (8 <= fuel)%nat ->
  get_priority_fuel 8 s mask = Some p ->
  get_priority_fuel fuel s mask = Some p.
Proof.
  unfold get_priority_fuel. intros Hle H.
  destruct (mask =? 0); [exact H|].
  apply (get_priority_loop_mono 8); assumption.
Qed.

(** When eight tests do not exit the loop, no number of tests does. *)
Lemma get_priority_diverges (fuel : nat) (s : PicState) (mask : Z) :
  get_priority_fuel 8 s mask = None ->
  get_priority_fuel fuel s mask = None.
Proof.
  unfold get_priority_fuel. intros H.
  destruct (mask =? 0); [discriminate H|].
  destruct (get_priority_loop fuel s mask 0) as [p|] eqn:E; [|reflexivity].
  apply get_priority_loop_sound in E. destruct E as [_ [Hb _]].
  rewrite <- line_at_period in Hb.
  destruct (get_priority_loop_complete 8 s mask 0 (p mod 8)) as [p' Hp'].
  - pose proof (Z.mod_pos_bound p 8). simpl. lia.
  - exact Hb.
  - congruence.
Qed.

(** [get_priority] on an 8-bit mask: 8 for the empty mask, else the least
    priority position whose line is in the mask. *)
Lemma get_priority_byte (s : PicState) (mask : Z) :
  0 <= mask < 256 ->
  exists p,
    get_priority s mask = Ret p
    /\ ((mask = 0 /\ p = 8)
        \/ (mask <> 0 /\ 0 <= p < 8
            /\ Z.testbit mask (line_at s p) = true
            /\ forall q, 0 <= q < p -> Z.testbit mask (line_at s q) = false)).
Proof.
  intros Hm. unfold get_priority, get_priority_fuel.
  destruct (Z.eqb_spec mask 0) as [->|Hnz].
  - exists 8. split; [reflexivity | left; split; reflexivity].
  - destruct (byte_nonzero_bit mask Hm Hnz) as [k [Hk Hb]].
    destruct (get_priority_loop_complete 8 s mask 0 ((k - priority_add s) mod 8))
      as [p Hp].
    + pose proof (Z.mod_pos_bound (k - priority_add s) 8). simpl. lia.
    + rewrite line_at_period. unfold line_at. rewrite land7_mod.
      replace (k - priority_add s + priority_add s) with k by lia.
      rewrite Z.mod_small by lia. exact Hb.
    + exists p. rewrite Hp. split; [reflexivity|].
      apply get_priority_loop_sound in Hp. destruct Hp as [Hr [Hbp Hl]].
      right. repeat split; try assumption; simpl in Hr; lia.
Qed.

(** ** Well-formed states *)

Lemma wf_pic_iff (p : PicState) :
  wf_pic p = true <->
  0 <= last_irr p < 256 /\ 0 <= irr p < 256 /\ 0 <= imr p < 256
  /\ 0 <= isr p < 256 /\ 0 <= priority_add p < 256 /\ 0 <= irq_base p < 256
  /\ 0 <= read_reg_select p < 256 /\ 0 <= poll p < 256
  /\ 0 <= special_mask p < 256 /\ 0 <= init_state p < 256
  /\ 0 <= auto_eoi p < 256 /\ 0 <= rotate_on_auto_eoi p < 256
  /\ 0 <= special_fully_nested_mode p < 256 /\ 0 <= init4 p < 256
  /\ 0 <= single_mode p < 256 /\ 0 <= elcr p < 256 /\ 0 <= elcr_mask p < 256.
Proof.
  unfold wf_pic. simpl. rewrite !andb_true_iff, !is_u8_iff. tauto.
Qed.

Lemma wf_iff (s : PicState2) :
  wf s = true <-> wf_pic (pics0 s) = true /\ wf_pic (pics1 s) = true.
Proof. unfold wf. apply andb_true_iff. Qed.

Lemma wf_pics (s : PicState2) (i : pic_index) :
  wf s = true -> wf_pic (pics s i) = true.
Proof. rewrite wf_iff. destruct i; simpl; tauto. Qed.

Lemma wf_set_pics (s : PicState2) (i : pic_index) (p : PicState) :
  wf s = true -> wf_pic p = true -> wf (set_pics i p s) = true.
Proof. rewrite !wf_iff. destruct i; simpl; tauto. Qed.

Lemma wf_set_parent_irq (s : PicState2) (level : Z) :
  wf (set_parent_irq level s) = wf s.
Proof. reflexivity. Qed.

(** Stores of bytes keep a unit well formed. *)
Ltac wf_store :=
  match goal with
  | H : wf_pic ?p = true |- wf_pic _ = true =>
      apply wf_pic_iff in H; apply wf_pic_iff; simpl;
      repeat split; try apply u8_range; try lia; tauto
  end.

Lemma wf_set_irr p v : wf_pic p = true -> wf_pic (set_irr (u8 v) p) = true.
Proof. intros H. wf_store. Qed.
Lemma wf_set_last_irr p v : wf_pic p = true -> wf_pic (set_last_irr (u8 v) p) = true.
Proof. intros H. wf_store. Qed.
Lemma wf_set_imr p v : wf_pic p = true -> wf_pic (set_imr (u8 v) p) = true.
Proof. intros H. wf_store. Qed.
Lemma wf_set_isr p v : wf_pic p = true -> wf_pic (set_isr (u8 v) p) = true.
Proof. intros H. wf_store. Qed.
Lemma wf_set_priority_add p v :
  wf_pic p = true -> wf_pic (set_priority_add (u8 v) p) = true.
Proof. intros H. wf_store. Qed.
Lemma wf_set_irq_base p v : wf_pic p = true -> wf_pic (set_irq_base (u8 v) p) = true.
Proof. intros H. wf_store. Qed.
Lemma wf_set_read_reg_select p v :
  wf_pic p = true -> wf_pic (set_read_reg_select (u8 v) p) = true.
Proof. intros H. wf_store. Qed.
Lemma wf_set_special_mask p v :
  wf_pic p = true -> wf_pic (set_special_mask (u8 v) p) = true.
Proof. intros H. wf_store. Qed.
Lemma wf_set_auto_eoi p v : wf_pic p = true -> wf_pic (set_auto_eoi (u8 v) p) = true.
Proof. intros H. wf_store. Qed.
Lemma wf_set_rotate_on_auto_eoi p v :
  wf_pic p = true -> wf_pic (set_rotate_on_auto_eoi (u8 v) p) = true.
Proof. intros H. wf_store. Qed.
Lemma wf_set_special_fully_nested_mode p v :
  wf_pic p = true -> wf_pic (set_special_fully_nested_mode (u8 v) p) = true.
Proof. intros H. wf_store. Qed.
Lemma wf_set_init4 p v : wf_pic p = true -> wf_pic (set_init4 (u8 v) p) = true.
Proof. intros H. wf_store. Qed.
Lemma wf_set_single_mode p v :
  wf_pic p = true -> wf_pic (set_single_mode (u8 v) p) = true.
Proof. intros H. wf_store. Qed.
Lemma wf_set_elcr p v : wf_pic p = true -> wf_pic (set_elcr (u8 v) p) = true.
Proof. intros H. wf_store. Qed.
Lemma wf_set_poll p v : 0 <= v < 256 -> wf_pic p = true -> wf_pic (set_poll v p) = true.
Proof. intros Hv H. wf_store. Qed.
Lemma wf_set_init_state p v :
  0 <= v < 256 -> wf_pic p = true -> wf_pic (set_init_state v p) = true.
Proof. intros Hv H. wf_store. Qed.
Lemma wf_set_elcr_0 p : wf_pic p = true -> wf_pic (set_elcr 0 p) = true.
Proof. intros H. wf_store. Qed.
Lemma wf_set_read_reg_select_1 p :
  wf_pic p = true -> wf_pic (set_read_reg_select 1 p) = true.
Proof. intros H. wf_store. Qed.

Create HintDb wf_db.
#[local] Hint Resolve wf_set_irr wf_set_last_irr wf_set_imr wf_set_isr
  wf_set_priority_add wf_set_irq_base wf_set_read_reg_select
  wf_set_special_mask wf_set_auto_eoi wf_set_rotate_on_auto_eoi
  wf_set_special_fully_nested_mode wf_set_init4 wf_set_single_mode
  wf_set_elcr wf_set_poll wf_set_init_state wf_set_elcr_0
  wf_set_read_reg_select_1 wf_set_pics wf_pics : wf_db.

(** ** Pending-interrupt selection *)

(** The in-service mask [pic_get_irq] compares against. *)
Lemma service_mask_byte (s : PicState2) (i : pic_index) :
  wf_pic (pics s i) = true ->
  let p := pics s i in
  let m := isr p in
  let m := if truthy (special_mask p) then Z.land m (Z.lnot (imr p)) else m in
  let m := if truthy (special_fully_nested_mode p) && is_master i
           then Z.land m (Z.lnot (Z.shiftl 1 2)) else m in
  0 <= m < 256.
Proof.
  intros H. apply wf_pic_iff in H. cbv zeta.
  assert (Hi : 0 <= isr (pics s i) < 256) by tauto.
  destruct (truthy (special_fully_nested_mode (pics s i)) && is_master i);
    destruct (truthy (special_mask (pics s i)));
    repeat apply land_byte_l; exact Hi.
Qed.

Lemma pic_get_irq_returns (s : PicState2) (i : pic_index) :
  wf_pic (pics s i) = true ->
  exists irq, pic_get_irq s i = Ret irq /\ (irq = -1 \/ 0 <= irq < 8).
Proof.
  intros H. pose proof (service_mask_byte s i H) as Hm. cbv zeta in Hm.
  unfold pic_get_irq.
  destruct (get_priority_byte (pics s i)
              (Z.land (irr (pics s i)) (Z.lnot (imr (pics s i)))))
    as [p [Hp _]].
  { apply land_byte_l. apply wf_pic_iff in H. tauto. }
  rewrite Hp. cbn [bind].
  destruct (p =? 8).
  - exists (-1). split; [reflexivity | left; reflexivity].
  - destruct (get_priority_byte (pics s i) _ Hm) as [c [Hc _]].
    rewrite Hc. cbn [bind].
    destruct (p <? c).
    + eexists. split; [reflexivity | right; apply land7_range].
    + exists (-1). split; [reflexivity | left; reflexivity].
Qed.

(** The selection reads the unit only. *)
Lemma pic_get_irq_ext (s s' : PicState2) (i : pic_index) :
  pics s' i = pics s i -> pic_get_irq s' i = pic_get_irq s i.
Proof. unfold pic_get_irq. intros ->. reflexivity. Qed.

(** C1. On a unit whose registers are bytes, [get_priority] applied to a
    byte [mask] returns 8 when [mask] is 0 and otherwise the least priority
    position 0..7 whose line [(p + priority_add) & 7] is set in [mask]; and
    [pic_get_irq] returns none (-1) when the priority of [irr & ~imr] is 8,
    and otherwise the line [(p_req + priority_add) & 7] exactly when [p_req]
    is strictly below the priority of the service mask. *)
Theorem pic_get_irq_selection (s : PicState2) (i : pic_index) :
  wf_pic (pics s i) = true ->
  let p := pics s i in
  (forall mask, 0 <= mask < 256 ->
     exists pr,
       get_priority p mask = Ret pr
       /\ ((mask = 0 /\ pr = 8)
           \/ (mask <> 0 /\ 0 <= pr < 8
               /\ Z.testbit mask (Z.land (pr + priority_add p) 7) = true
               /\ forall q, 0 <= q < pr ->
                    Z.testbit mask (Z.land (q + priority_add p) 7) = false)))
  /\ exists p_req p_cur,
       get_priority p (Z.land (irr p) (Z.lnot (imr p))) = Ret p_req
       /\ get_priority p (service_mask s i) = Ret p_cur
       /\ (p_req = 8 -> pic_get_irq s i = Ret (-1))
       /\ (p_req <> 8 -> p_req < p_cur ->
           pic_get_irq s i = Ret (Z.land (p_req + priority_add p) 7))
       /\ (p_req <> 8 -> ~ p_req < p_cur -> pic_get_irq s i = Ret (-1)).
Proof.
  intros H p. split.
  - intros mask Hm. apply (get_priority_byte p mask Hm).
  - destruct (get_priority_byte p (Z.land (irr p) (Z.lnot (imr p))))
      as [p_req [Hreq _]].
    { apply land_byte_l. apply wf_pic_iff in H. subst p. tauto. }
    destruct (get_priority_byte p (service_mask s i)) as [p_cur [Hcur _]].
    { apply (service_mask_byte s i H). }
    exists p_req, p_cur. split; [exact Hreq|]. split; [exact Hcur|].
    unfold pic_get_irq. fold p. rewrite Hreq. cbn [bind].
    fold (service_mask s i).
    destruct (Z.eqb_spec p_req 8) as [E8|N8].
    + repeat split; intros; try reflexivity; contradiction.
    + unfold service_mask in Hcur. fold p in Hcur.
      unfold service_mask. fold p. rewrite Hcur. cbn [bind].
      destruct (Z.ltb_spec p_req p_cur) as [Hlt|Hge].
      * repeat split; intros; try reflexivity; contradiction.
      * repeat split; intros; try reflexivity; try contradiction; lia.
Qed.

(** A master with line 3 requested and nothing in service wants line 3. *)
Lemma pic_get_irq_selection_witness :
  wf_pic (pics (set_pics Master (set_irr 8 (pics0 (i8259_init 0)))
                  (i8259_init 0)) Master) = true
  /\ pic_get_irq (set_pics Master (set_irr 8 (pics0 (i8259_init 0)))
                    (i8259_init 0)) Master = Ret 3.
Proof.
  split; [reflexivity|].
  destruct (pic_get_irq_selection
              (set_pics Master (set_irr 8 (pics0 (i8259_init 0)))
                 (i8259_init 0)) Master eq_refl)
    as [_ [p_req [p_cur [Hreq [Hcur [_ [Hlt _]]]]]]].
  vm_compute in Hreq. vm_compute in Hcur.
  injection Hreq as <-. injection Hcur as <-.
  apply Hlt; lia.
Defined.

(** ** Setting and clearing a line in a byte register *)

Lemma testbit_set_line (x k n : Z) :
  0 <= x < 256 -> 0 <= k < 8 -> 0 <= n ->
  Z.testbit (u8 (Z.lor x (Z.shiftl 1 k))) n = Z.testbit x n || (k =? n).
Proof.
  intros Hx Hk Hn.
  rewrite u8_small by (apply lor_byte; [exact Hx | apply bit_byte, Hk]).
  rewrite Z.lor_spec, testbit_bit by lia. reflexivity.
Qed.

Lemma testbit_clear_line (x k n : Z) :
  0 <= x < 256 -> 0 <= k -> 0 <= n ->
  Z.testbit (u8 (Z.land x (Z.lnot (Z.shiftl 1 k)))) n
  = Z.testbit x n && negb (k =? n).
Proof.
  intros Hx Hk Hn.
  rewrite u8_small by (apply land_byte_l, Hx).
  rewrite Z.land_spec, Z.lnot_spec, testbit_bit by lia. reflexivity.
Qed.

Lemma set_line_twice (x k : Z) :
  0 <= x < 256 -> 0 <= k < 8 ->
  u8 (Z.lor (u8 (Z.lor x (Z.shiftl 1 k))) (Z.shiftl 1 k))
  = u8 (Z.lor x (Z.shiftl 1 k)).
Proof.
  intros Hx Hk.
  assert (Hr : 0 <= Z.lor x (Z.shiftl 1 k) < 256)
    by (apply lor_byte; [exact Hx | apply bit_byte, Hk]).
  rewrite (u8_small _ Hr), <- Z.lor_assoc, Z.lor_diag.
  apply u8_small, Hr.
Qed.

Lemma clear_line_twice (x k : Z) :
  0 <= x < 256 ->
  u8 (Z.land (u8 (Z.land x (Z.lnot (Z.shiftl 1 k)))) (Z.lnot (Z.shiftl 1 k)))
  = u8 (Z.land x (Z.lnot (Z.shiftl 1 k))).
Proof.
  intros Hx.
  assert (Hr : 0 <= Z.land x (Z.lnot (Z.shiftl 1 k)) < 256)
    by (apply land_byte_l, Hx).
  rewrite (u8_small _ Hr), <- Z.land_assoc, Z.land_diag.
  apply u8_small, Hr.
Qed.

(** ** Line input on the registers of a unit *)

Lemma wf_pic_set_irq1_regs (p : PicState) (irq level : Z) :
  wf_pic p = true -> wf_pic (pic_set_irq1_regs p irq level) = true.
Proof.
  intros H. unfold pic_set_irq1_regs.
  destruct (truthy (Z.land (elcr p) (Z.shiftl 1 irq))), (truthy level);
    try destruct (Z.land (last_irr p) (Z.shiftl 1 irq) =? 0);
    auto with wf_db.
Qed.

(** Only [irr] and [last_irr] are written. *)
Lemma pic_set_irq1_regs_frame (p : PicState) (irq level : Z) :
  pic_set_irq1_regs p irq level
  = set_last_irr (last_irr (pic_set_irq1_regs p irq level))
      (set_irr (irr (pic_set_irq1_regs p irq level)) p).
Proof.
  unfold pic_set_irq1_regs.
  destruct (truthy (Z.land (elcr p) (Z.shiftl 1 irq))), (truthy level);
    try destruct (Z.land (last_irr p) (Z.shiftl 1 irq) =? 0);
    destruct p; reflexivity.
Qed.

Lemma pic_set_irq1_regs_twice (p : PicState) (irq level : Z) :
  wf_pic p = true -> 0 <= irq < 8 ->
  pic_set_irq1_regs (pic_set_irq1_regs p irq level) irq level
  = pic_set_irq1_regs p irq level.
Proof.
  intros H Hirq. apply wf_pic_iff in H.
  assert (Hi : 0 <= irr p < 256) by tauto.
  assert (Hl : 0 <= last_irr p < 256) by tauto.
  unfold pic_set_irq1_regs.
  destruct (truthy (Z.land (elcr p) (Z.shiftl 1 irq))) eqn:Ee;
    destruct (truthy level) eqn:El.
  - cbn [elcr irr last_irr set_irr set_last_irr]. rewrite Ee.
    rewrite !set_line_twice by assumption. reflexivity.
  - cbn [elcr irr last_irr set_irr set_last_irr]. rewrite Ee.
    rewrite !clear_line_twice by assumption. reflexivity.
  - destruct (Z.land (last_irr p) (Z.shiftl 1 irq) =? 0) eqn:Eb;
      cbn [elcr irr last_irr set_irr set_last_irr]; rewrite Ee.
    + rewrite land_bit_eqb, testbit_set_line by lia.
      rewrite Z.eqb_refl, orb_true_r. cbn [negb].
      cbn [elcr irr last_irr set_irr set_last_irr].
      rewrite set_line_twice by assumption. reflexivity.
    + rewrite land_bit_eqb, testbit_set_line by lia.
      rewrite Z.eqb_refl, orb_true_r. cbn [negb].
      cbn [elcr irr last_irr set_irr set_last_irr].
      rewrite set_line_twice by assumption. reflexivity.
  - cbn [elcr irr last_irr set_irr set_last_irr]. rewrite Ee.
    rewrite clear_line_twice by assumption. reflexivity.
Qed.

(** ** Output update *)

Lemma pic_update_irq_master (s : PicState2) :
  pic_update_irq s Master =
  irq <- pic_get_irq s Master ;;
  Ret (set_parent_irq (if irq >=? 0 then 1 else 0) s).
Proof.
  unfold pic_update_irq, pic_update_irq_on.
  destruct (pic_get_irq s Master) as [irq| |msg]; cbn [bind]; try reflexivity.
  destruct (irq >=? 0); reflexivity.
Qed.

(** The slave's output is line 2 of the master. *)
Lemma pic_update_irq_slave (s : PicState2) :
  pic_update_irq s Slave =
  irq <- pic_get_irq s Slave ;;
  pic_set_irq1 s Master 2 (if irq >=? 0 then 1 else 0).
Proof.
  unfold pic_update_irq, pic_update_irq_on.
  destruct (pic_get_irq s Slave) as [irq| |msg]; cbn [bind]; try reflexivity.
  destruct (irq >=? 0); reflexivity.
Qed.

Lemma pic_set_irq1_eq (s : PicState2) (i : pic_index) (irq level : Z) :
  pic_set_irq1 s i irq level
  = pic_update_irq (set_pics i (pic_set_irq1_regs (pics s i) irq level) s) i.
Proof. reflexivity. Qed.

Lemma pics_set_pics_same (s : PicState2) (i : pic_index) (p : PicState) :
  pics (set_pics i p s) i = p.
Proof. destruct i; reflexivity. Qed.

(** What [pic_update_irq] on the master leaves behind. *)
Lemma pic_update_irq_master_returns (s : PicState2) :
  wf_pic (pics0 s) = true ->
  exists level,
    pic_update_irq s Master = Ret (set_parent_irq level s).
Proof.
  intros H. rewrite pic_update_irq_master.
  destruct (pic_get_irq_returns s Master H) as [irq [E _]].
  rewrite E. cbn [bind]. eexists. reflexivity.
Qed.

(** What [pic_update_irq] leaves behind, on either unit: the unit itself
    and the whole slave are as before; on the master at most [irr] and
    [last_irr] differ (the cascade line). *)
Lemma pic_update_irq_returns (s : PicState2) (i : pic_index) :
  wf s = true ->
  exists s',
    pic_update_irq s i = Ret s'
    /\ wf s' = true
    /\ pics s' i = pics s i
    /\ pics1 s' = pics1 s
    /\ (exists a b, pics0 s' = set_last_irr a (set_irr b (pics0 s))).
Proof.
  intros H. destruct i.
  - destruct (pic_update_irq_master_returns s (wf_pics s Master H)) as [l E].
    exists (set_parent_irq l s). repeat split; try assumption.
    exists (last_irr (pics0 s)), (irr (pics0 s)). simpl.
    destruct (pics0 s); reflexivity.
  - rewrite pic_update_irq_slave.
    destruct (pic_get_irq_returns s Slave (wf_pics s Slave H)) as [irq [E _]].
    rewrite E. cbn [bind]. rewrite pic_set_irq1_eq.
    set (m := pic_set_irq1_regs (pics s Master) 2 (if irq >=? 0 then 1 else 0)).
    assert (Hm : wf_pic m = true).
    { apply wf_pic_set_irq1_regs. apply wf_pics, H. }
    destruct (pic_update_irq_master_returns (set_pics Master m s) Hm) as [l El].
    rewrite El. eexists. split; [reflexivity|].
    repeat split.
    + rewrite wf_set_parent_irq. apply wf_set_pics; assumption.
    + do 2 eexists. simpl. subst m. apply pic_set_irq1_regs_frame.
Qed.

Lemma pic_set_irq1_returns (s : PicState2) (i : pic_index) (irq level : Z) :
  wf s = true ->
  exists s',
    pic_set_irq1 s i irq level = Ret s'
    /\ wf s' = true
    /\ pics s' i = pic_set_irq1_regs (pics s i) irq level
    /\ (i = Master -> pics1 s' = pics1 s)
    /\ (i = Slave ->
        exists a b, pics0 s' = set_last_irr a (set_irr b (pics0 s))).
Proof.
  intros H. rewrite pic_set_irq1_eq.
  set (r := pic_set_irq1_regs (pics s i) irq level).
  assert (Hr : wf (set_pics i r s) = true).
  { apply wf_set_pics; [exact H|]. apply wf_pic_set_irq1_regs, wf_pics, H. }
  destruct (pic_update_irq_returns _ i Hr) as [s' [E [Hw [Hi [H1 H0]]]]].
  exists s'. split; [exact E|]. split; [exact Hw|].
  split; [rewrite Hi; apply pics_set_pics_same|].
  split; intros ->; simpl in *; assumption.
Qed.

Lemma set_pics_pics (s : PicState2) (i : pic_index) :
  set_pics i (pics s i) s = s.
Proof. destruct s, i; reflexivity. Qed.

(** ** Line input *)

(** Closes a goal on bit [n] of a register after line [k] was set or
    cleared in it. *)
Ltac line_bit :=
  first
    [ rewrite Z.eqb_refl;
      first [apply orb_true_r | apply andb_false_r | reflexivity]
    | match goal with
      | Hn : ?n <> ?k |- context [?k =? ?n] =>
          replace (k =? n) with false by (symmetry; apply Z.eqb_neq; lia)
      end;
      first [apply orb_false_r | apply andb_true_r] ].

Lemma pic_set_irq1_regs_bits (p : PicState) (irq level : Z) :
  wf_pic p = true -> 0 <= irq < 8 ->
  let p' := pic_set_irq1_regs p irq level in
  (Z.testbit (elcr p) irq = true ->
   Z.testbit (irr p') irq = truthy level
   /\ Z.testbit (last_irr p') irq = truthy level)
  /\ (Z.testbit (elcr p) irq = false -> level <> 0 ->
      Z.testbit (irr p') irq
      = Z.testbit (irr p) irq || negb (Z.testbit (last_irr p) irq)
      /\ Z.testbit (last_irr p') irq = true)
  /\ (Z.testbit (elcr p) irq = false -> level = 0 ->
      Z.testbit (last_irr p') irq = false /\ irr p' = irr p)
  /\ (forall n, 0 <= n -> n <> irq ->
      Z.testbit (irr p') n = Z.testbit (irr p) n
      /\ Z.testbit (last_irr p') n = Z.testbit (last_irr p) n).
Proof.
  intros H Hirq p'. subst p'. apply wf_pic_iff in H.
  assert (Hi : 0 <= irr p < 256) by tauto.
  assert (Hl : 0 <= last_irr p < 256) by tauto.
  assert (Hk : 0 <= irq) by lia.
  unfold pic_set_irq1_regs.
  rewrite truthy_land_bit, land_bit_eqb by exact Hk.
  destruct (Z.testbit (elcr p) irq) eqn:Ee; destruct (truthy level) eqn:El.
  - cbn [irr last_irr set_irr set_last_irr].
    repeat split; intros; try discriminate;
      rewrite testbit_set_line by assumption; line_bit.
  - cbn [irr last_irr set_irr set_last_irr].
    repeat split; intros; try discriminate;
      rewrite testbit_clear_line by assumption; line_bit.
  - apply truthy_true in El.
    destruct (Z.testbit (last_irr p) irq) eqn:Eb;
      cbn [negb irr last_irr set_irr set_last_irr];
      repeat split; intros; try discriminate; try contradiction;
      try (symmetry; apply orb_false_r);
      try (symmetry; apply orb_true_r);
      try reflexivity;
      rewrite testbit_set_line by assumption; line_bit.
  - apply truthy_false in El.
    cbn [irr last_irr set_irr set_last_irr].
    repeat split; intros; try discriminate; try contradiction;
      try reflexivity;
      rewrite testbit_clear_line by assumption; line_bit.
Qed.

(** C2. On a well-formed pair, line input on line 0..7 of a unit returns;
    on a level-triggered line ([elcr] bit set) the [irr] and [last_irr]
    bits of the line both become [level]; on an edge-triggered line a high
    level sets the [irr] bit only when the [last_irr] bit was 0 and always
    sets the [last_irr] bit, and a low level clears the [last_irr] bit and
    leaves [irr] as it is.  The other lines of both registers keep their
    bits. *)
Theorem pic_set_irq1_line (s : PicState2) (i : pic_index) (irq level : Z) :
  wf s = true -> 0 <= irq < 8 ->
  exists s',
    pic_set_irq1 s i irq level = Ret s'
    /\ (Z.testbit (elcr (pics s i)) irq = true ->
        Z.testbit (irr (pics s' i)) irq = truthy level
        /\ Z.testbit (last_irr (pics s' i)) irq = truthy level)
    /\ (Z.testbit (elcr (pics s i)) irq = false -> level <> 0 ->
        Z.testbit (irr (pics s' i)) irq
        = Z.testbit (irr (pics s i)) irq
          || negb (Z.testbit (last_irr (pics s i)) irq)
        /\ Z.testbit (last_irr (pics s' i)) irq = true)
    /\ (Z.testbit (elcr (pics s i)) irq = false -> level = 0 ->
        Z.testbit (last_irr (pics s' i)) irq = false
        /\ irr (pics s' i) = irr (pics s i))
    /\ (forall n, 0 <= n -> n <> irq ->
        Z.testbit (irr (pics s' i)) n = Z.testbit (irr (pics s i)) n
        /\ Z.testbit (last_irr (pics s' i)) n
           = Z.testbit (last_irr (pics s i)) n).
Proof.
  intros H Hirq.
  destruct (pic_set_irq1_returns s i irq level H) as [s' [E [_ [Hp _]]]].
  exists s'. split; [exact E|]. rewrite Hp.
  apply pic_set_irq1_regs_bits; [apply wf_pics, H | exact Hirq].
Qed.

(** A rising edge on line 3 of the freshly built master sets [irr] bit 3. *)
Lemma pic_set_irq1_line_witness :
  wf (i8259_init 0) = true /\ 0 <= 3 < 8
  /\ exists s',
       pic_set_irq1 (i8259_init 0) Master 3 1 = Ret s'
       /\ Z.testbit (irr (pics0 s')) 3 = true.
Proof.
  split; [reflexivity|]. split; [lia|].
  destruct (pic_set_irq1_line (i8259_init 0) Master 3 1 eq_refl)
    as [s' [E [_ [Hedge _]]]]; [lia|].
  exists s'. split; [exact E|].
  destruct (Hedge eq_refl) as [Hb _]; [lia|]. exact Hb.
Defined.

Lemma pic_set_irq1_master_twice (s s' : PicState2) (irq level : Z) :
  wf_pic (pics0 s) = true -> 0 <= irq < 8 ->
  pic_set_irq1 s Master irq level = Ret s' ->
  pic_set_irq1 s' Master irq level = Ret s'.
Proof.
  intros H Hirq. rewrite !pic_set_irq1_eq, !pic_update_irq_master.
  intros E. apply bind_Ret_inv in E. destruct E as [r [Er E]].
  injection E as <-.
  cbn [pics set_parent_irq set_pics pics0 pics1 parent_irq].
  rewrite pic_set_irq1_regs_twice by assumption.
  rewrite (pic_get_irq_ext
             (set_pics Master (pic_set_irq1_regs (pics s Master) irq level) s))
    by reflexivity.
  cbn [pics]. cbn [pics] in Er. rewrite Er. reflexivity.
Qed.

(** C10. Line input is idempotent: on a well-formed pair, line input
    [(irq, level)] on line 0..7 of a unit returns a pair on which the same
    line input returns that same pair. *)
Theorem pic_set_irq1_idempotent (s : PicState2) (i : pic_index) (irq level : Z) :
  wf s = true -> 0 <= irq < 8 ->
  exists s',
    pic_set_irq1 s i irq level = Ret s'
    /\ pic_set_irq1 s' i irq level = Ret s'.
Proof.
  intros H Hirq.
  destruct (pic_set_irq1_returns s i irq level H) as [s' [E [Hw [Hp _]]]].
  exists s'. split; [exact E|].
  destruct i.
  - apply (pic_set_irq1_master_twice s); [apply (wf_pics s Master H) | | ];
      assumption.
  - rewrite pic_set_irq1_eq, pic_update_irq_slave in E.
    apply bind_Ret_inv in E. destruct E as [r [Er E]].
    rewrite pic_set_irq1_eq, Hp.
    rewrite pic_set_irq1_regs_twice by (try apply wf_pics; assumption).
    rewrite <- Hp, set_pics_pics, pic_update_irq_slave.
    rewrite (pic_get_irq_ext
               (set_pics Slave (pic_set_irq1_regs (pics s Slave) irq level) s)
               s' Slave)
      by (rewrite Hp; symmetry; apply pics_set_pics_same).
    rewrite Er. cbn [bind].
    apply (pic_set_irq1_master_twice _ s' 2 _) in E; [exact E | | lia].
    cbn [set_pics pics0]. apply (wf_pics s Master H).
Qed.

(** Raising line 10 (line 2 of the slave) twice is raising it once. *)
Lemma pic_set_irq1_idempotent_witness :
  wf (i8259_init 0) = true /\ 0 <= 2 < 8
  /\ exists s',
       pic_set_irq1 (i8259_init 0) Slave 2 1 = Ret s'
       /\ pic_set_irq1 s' Slave 2 1 = Ret s'.
Proof.
  split; [reflexivity|]. split; [lia|].
  apply (pic_set_irq1_idempotent (i8259_init 0) Slave 2 1 eq_refl). lia.
Defined.

(** ** Interrupt acknowledge *)

(** [pic_update_irq] writes neither [isr] nor the configuration of a unit. *)
Lemma pic_update_irq_keeps (s : PicState2) (i : pic_index) :
  wf s = true ->
  exists s',
    pic_update_irq s i = Ret s'
    /\ wf s' = true
    /\ pics s' i = pics s i
    /\ forall j,
         isr (pics s' j) = isr (pics s j)
         /\ irq_base (pics s' j) = irq_base (pics s j)
         /\ auto_eoi (pics s' j) = auto_eoi (pics s j)
         /\ elcr (pics s' j) = elcr (pics s j)
         /\ elcr_mask (pics s' j) = elcr_mask (pics s j).
Proof.
  intros H.
  destruct (pic_update_irq_returns s i H) as [s' [E [Hw [Hi [H1 [a [b H0]]]]]]].
  exists s'. repeat split; try assumption;
    destruct j; cbn [pics]; rewrite ?H1, ?H0; reflexivity.
Qed.

Lemma pic_intack_returns (s : PicState2) (i : pic_index) (irq : Z) :
  wf s = true ->
  exists s',
    pic_intack s i irq = Ret s'
    /\ wf s' = true
    /\ isr (pics s' i)
       = (if truthy (auto_eoi (pics s i)) then isr (pics s i)
          else u8 (Z.lor (isr (pics s i)) (Z.shiftl 1 irq)))
    /\ (forall j, j <> i -> isr (pics s' j) = isr (pics s j))
    /\ (forall j,
          irq_base (pics s' j) = irq_base (pics s j)
          /\ auto_eoi (pics s' j) = auto_eoi (pics s j)).
Proof.
  intros H. unfold pic_intack.
  match goal with
  | |- context [set_pics i ?q s] => set (p' := q)
  end.
  assert (Hp : wf_pic p' = true).
  { subst p'. pose proof (wf_pics s i H) as Hw.
    destruct (truthy (auto_eoi (pics s i)));
      [destruct (truthy (rotate_on_auto_eoi (pics s i)))|];
      match goal with
      | |- context [if ?c then _ else _] => destruct c
      end; auto with wf_db. }
  assert (Hq : isr p' = (if truthy (auto_eoi (pics s i)) then isr (pics s i)
                         else u8 (Z.lor (isr (pics s i)) (Z.shiftl 1 irq)))
               /\ irq_base p' = irq_base (pics s i)
               /\ auto_eoi p' = auto_eoi (pics s i)).
  { subst p'.
    destruct (truthy (auto_eoi (pics s i)));
      [destruct (truthy (rotate_on_auto_eoi (pics s i)))|];
      match goal with
      | |- context [if ?c then _ else _] => destruct c
      end; repeat split. }
  destruct Hq as [Hisr [Hbase Heoi]].
  destruct (pic_update_irq_keeps (set_pics i p' s) i) as [s' [E [Hw [Hi Hj]]]].
  { apply wf_set_pics; assumption. }
  rewrite pics_set_pics_same in Hi.
  exists s'. split; [exact E|]. split; [exact Hw|].
  split; [rewrite Hi; exact Hisr|].
  split.
  - intros j Hne. destruct (Hj j) as [-> _].
    destruct i, j; try contradiction; reflexivity.
  - intros j. destruct (Hj j) as [_ [-> [-> _]]].
    destruct i, j; cbn [pics set_pics pics0 pics1];
      split; try reflexivity; assumption.
Qed.

(** The four paths of [pic_read_irq]. *)
Lemma pic_read_irq_paths (s : PicState2) :
  wf s = true ->
  exists irq,
    pic_get_irq s Master = Ret irq
    /\ (irq < 0 -> pic_read_irq s = Ret (irq_base (pics0 s) + 7, s))
    /\ (irq = 2 ->
        exists irq2,
          pic_get_irq s Slave = Ret irq2
          /\ (irq2 < 0 ->
              exists s2,
                pic_intack s Master 2 = Ret s2
                /\ pic_read_irq s = Ret (irq_base (pics1 s) + 7, s2))
          /\ (0 <= irq2 ->
              exists s1 s2,
                pic_intack s Slave irq2 = Ret s1
                /\ pic_intack s1 Master 2 = Ret s2
                /\ pic_read_irq s = Ret (irq_base (pics1 s) + irq2, s2)))
    /\ (0 <= irq -> irq <> 2 ->
        exists s2,
          pic_intack s Master irq = Ret s2
          /\ pic_read_irq s = Ret (irq_base (pics0 s) + irq, s2)).
Proof.
  intros H.
  destruct (pic_get_irq_returns s Master (wf_pics s Master H)) as [irq [E _]].
  exists irq. split; [exact E|].
  unfold pic_read_irq. rewrite E. cbn [bind].
  destruct (Z.geb_spec irq 0) as [Hge|Hlt].
  - split; [intros; lia|].
    destruct (Z.eqb_spec irq 2) as [->|Hne].
    + split; [|intros _ Hc; contradiction].
      intros _.
      destruct (pic_get_irq_returns s Slave (wf_pics s Slave H))
        as [irq2 [E2 _]].
      exists irq2. split; [exact E2|]. rewrite E2. cbn [bind].
      destruct (Z.geb_spec irq2 0) as [Hge2|Hlt2].
      * split; [intros; lia|]. intros _.
        destruct (pic_intack_returns s Slave irq2 H)
          as [s1 [E1 [Hw1 [_ [_ Hb]]]]].
        destruct (pic_intack_returns s1 Master 2 Hw1) as [s2 [Es2 _]].
        exists s1, s2. rewrite E1. cbn [bind]. rewrite Es2. cbn [bind].
        destruct (Hb Slave) as [Hb1 _]. cbn [pics] in Hb1. rewrite Hb1.
        repeat split.
      * split; [|intros; lia]. intros _.
        destruct (pic_intack_returns s Master 2 H) as [s2 [Es2 _]].
        exists s2. rewrite Es2. repeat split.
    + split; [intros; contradiction|]. intros _ _.
      destruct (pic_intack_returns s Master irq H) as [s2 [Es2 _]].
      exists s2. rewrite Es2. repeat split.
  - split; [intros; reflexivity|]. split; intros; lia.
Qed.

(** C3. On a well-formed pair [pic_read_irq] returns, and: with nothing
    pending on the master it returns [master.irq_base + 7] and leaves the
    pair as it is (no intack); with line 2 pending on the master and
    nothing pending on the slave it returns [slave.irq_base + 7]; with line
    2 pending on the master and line [irq2] on the slave it applies intack
    to the slave with [irq2] and returns [slave.irq_base + irq2]; otherwise
    it returns [master.irq_base + irq]; in the three last cases it applies
    intack to the master with [irq]. *)
Theorem pic_read_irq_cases (s : PicState2) :
  wf s = true ->
  exists irq,
    pic_get_irq s Master = Ret irq
    /\ (irq < 0 -> pic_read_irq s = Ret (irq_base (pics0 s) + 7, s))
    /\ (irq = 2 ->
        exists irq2,
          pic_get_irq s Slave = Ret irq2
          /\ (irq2 < 0 ->
              exists s2,
                pic_intack s Master 2 = Ret s2
                /\ pic_read_irq s = Ret (irq_base (pics1 s) + 7, s2))
          /\ (0 <= irq2 ->
              exists s1 s2,
                pic_intack s Slave irq2 = Ret s1
                /\ pic_intack s1 Master 2 = Ret s2
                /\ pic_read_irq s = Ret (irq_base (pics1 s) + irq2, s2)))
    /\ (0 <= irq -> irq <> 2 ->
        exists s2,
          pic_intack s Master irq = Ret s2
          /\ pic_read_irq s = Ret (irq_base (pics0 s) + irq, s2)).
Proof. exact (pic_read_irq_paths s). Qed.

(** The cascade path on the pair of scenario 4: vector 0x2A. *)
Lemma pic_read_irq_cases_witness :
  wf cascade_request = true
  /\ exists s2, pic_read_irq cascade_request = Ret (42, s2).
Proof.
  split; [reflexivity|].
  destruct (pic_read_irq_cases cascade_request eq_refl)
    as [irq [E [_ [Hcascade _]]]].
  vm_compute in E. injection E as E.
  destruct (Hcascade (eq_sym E)) as [irq2 [E2 [_ Hslave]]].
  vm_compute in E2. injection E2 as E2. subst irq2.
  destruct Hslave as [s1 [s2 [_ [_ R]]]]; [lia|].
  exists s2. exact R.
Defined.


(** ** In-service bits set by an acknowledge *)

Lemma get_priority_hit (p : PicState) (mask pr : Z) :
  0 <= mask < 256 -> get_priority p mask = Ret pr -> pr <> 8 ->
  0 <= pr < 8 /\ Z.testbit mask (line_at p pr) = true.
Proof.
  intros Hm E Hne.
  destruct (get_priority_byte p mask Hm) as [pr' [E' Hc]].
  rewrite E in E'. injection E' as <-.
  destruct Hc as [[_ ->] | [_ [Hr [Hb _]]]]; [contradiction | tauto].
Qed.

Lemma get_priority_below (p : PicState) (mask pr q : Z) :
  0 <= mask < 256 -> get_priority p mask = Ret pr -> 0 <= q < pr ->
  Z.testbit mask (line_at p q) = false.
Proof.
  intros Hm E Hq.
  destruct (get_priority_byte p mask Hm) as [pr' [E' Hc]].
  rewrite E in E'. injection E' as <-.
  destruct Hc as [[-> _] | [_ [_ [_ Hl]]]].
  - apply Z.bits_0.
  - apply Hl, Hq.
Qed.

(** A line that [pic_get_irq] selects is not in service, the cascade line
    of a master in special fully nested mode apart. *)
Lemma pending_not_in_service (s : PicState2) (i : pic_index) (irq : Z) :
  wf_pic (pics s i) = true ->
  pic_get_irq s i = Ret irq -> 0 <= irq ->
  i = Slave \/ irq <> 2 ->
  0 <= irq < 8 /\ Z.testbit (isr (pics s i)) irq = false.
Proof.
  intros H E Hirq Hex.
  pose proof (service_mask_byte s i H) as Hm. cbv zeta in Hm.
  assert (Hreq : 0 <= Z.land (irr (pics s i)) (Z.lnot (imr (pics s i))) < 256).
  { apply land_byte_l. apply wf_pic_iff in H. tauto. }
  unfold pic_get_irq in E.
  destruct (get_priority_byte (pics s i) _ Hreq) as [pr [Epr _]].
  rewrite Epr in E. cbn [bind] in E.
  destruct (Z.eqb_spec pr 8) as [E8|N8]; [injection E as <-; lia|].
  destruct (get_priority_byte (pics s i) _ Hm) as [pc [Epc _]].
  rewrite Epc in E. cbn [bind] in E.
  destruct (Z.ltb_spec pr pc) as [Hlt|Hge]; [|injection E as <-; lia].
  injection E as E. fold (line_at (pics s i) pr) in E.
  destruct (get_priority_hit _ _ _ Hreq Epr N8) as [Hpr Hb].
  assert (Hc : Z.testbit _ (line_at (pics s i) pr) = false)
    by (apply (get_priority_below _ _ _ pr Hm Epc); lia).
  rewrite E in Hb, Hc.
  split; [subst irq; apply line_at_range|].
  rewrite Z.land_spec, Z.lnot_spec in Hb by exact Hirq.
  apply andb_true_iff in Hb. destruct Hb as [_ Himr].
  apply negb_true_iff in Himr.
  assert (Hsfnm :
    truthy (special_fully_nested_mode (pics s i)) && is_master i = true ->
    negb (Z.testbit (Z.shiftl 1 2) irq) = true).
  { intros Hs. rewrite testbit_bit by lia.
    destruct Hex as [->|Hne].
    - rewrite andb_false_r in Hs. discriminate Hs.
    - apply negb_true_iff, Z.eqb_neq. lia. }
  destruct (truthy (special_fully_nested_mode (pics s i)) && is_master i);
    destruct (truthy (special_mask (pics s i)));
    rewrite ?Z.land_spec, ?Z.lnot_spec, ?Himr in Hc by exact Hirq;
    try rewrite (Hsfnm eq_refl) in Hc;
    cbn [negb] in Hc; rewrite ?andb_true_r in Hc; exact Hc.
Qed.

Lemma new_bits_same (old : Z) : new_bits old old = [].
Proof.
  unfold new_bits. cbn [filter]. rewrite !andb_negb_r. reflexivity.
Qed.

Lemma new_bits_set_line (old k : Z) :
  0 <= old < 256 -> 0 <= k < 8 ->
  new_bits old (u8 (Z.lor old (Z.shiftl 1 k)))
  = if Z.testbit old k then [] else [k].
Proof.
  intros Ho Hk. unfold new_bits. cbn [filter].
  rewrite !testbit_set_line by lia.
  assert (Hc : k = 0 \/ k = 1 \/ k = 2 \/ k = 3 \/ k = 4 \/ k = 5 \/ k = 6
               \/ k = 7) by lia.
  assert (Hor : forall b c, (b || c) && negb b = c && negb b)
    by (intros [|] [|]; reflexivity).
  rewrite !Hor.
  repeat (destruct Hc as [->|Hc]; [cbn [Z.eqb Pos.eqb andb];
    match goal with
    | |- context [if negb ?b then _ else _] => destruct b; reflexivity
    end|]).
  subst k. cbn [Z.eqb Pos.eqb andb].
  match goal with
  | |- context [if negb ?b then _ else _] => destruct b; reflexivity
  end.
Qed.

(** C5, as the code has it.  On a well-formed pair [pic_read_irq] returns
    and, with [auto_eoi] clear on the units the acknowledge involves (the
    master when it has a pending line; the slave as well when the master's
    pending line is 2 and the slave has a pending line), the bits newly set
    across the two [isr] registers are: none when the master has nothing
    pending; exactly one, line [irq] of the master, when the master's
    pending line [irq] is not 2; and when it is 2, line 2 of the master
    (unless it was in service already) followed by line [irq2] of the slave
    when the slave has a pending line [irq2]. *)
Theorem pic_read_irq_isr (s : PicState2) :
  wf s = true ->
  exists irq intno s',
    pic_get_irq s Master = Ret irq
    /\ pic_read_irq s = Ret (intno, s')
    /\ (irq < 0 -> new_isr_bits s s' = [])
    /\ (0 <= irq -> irq <> 2 -> auto_eoi (pics0 s) = 0 ->
        new_isr_bits s s' = [(Master, irq)])
    /\ (irq = 2 ->
        exists irq2,
          pic_get_irq s Slave = Ret irq2
          /\ (irq2 < 0 -> auto_eoi (pics0 s) = 0 ->
              new_isr_bits s s'
              = (if Z.testbit (isr (pics0 s)) 2 then [] else [(Master, 2)]))
          /\ (0 <= irq2 ->
              auto_eoi (pics0 s) = 0 -> auto_eoi (pics1 s) = 0 ->
              new_isr_bits s s'
              = (if Z.testbit (isr (pics0 s)) 2 then [] else [(Master, 2)])
                ++ [(Slave, irq2)])).
Proof.
  intros H.
  pose proof (wf_pics s Master H) as Hw0.
  pose proof (wf_pics s Slave H) as Hw1.
  assert (Hi0 : 0 <= isr (pics0 s) < 256)
    by (apply wf_pic_iff in Hw0; cbn [pics] in Hw0; tauto).
  assert (Hi1 : 0 <= isr (pics1 s) < 256)
    by (apply wf_pic_iff in Hw1; cbn [pics] in Hw1; tauto).
  destruct (pic_read_irq_paths s H) as [irq [E [Hnone [Hcascade Hplain]]]].
  destruct (Z.lt_ge_cases irq 0) as [Hlt|Hge].
  - exists irq, (irq_base (pics0 s) + 7), s.
    split; [exact E|]. split; [apply Hnone, Hlt|].
    split; [|split; intros; lia].
    intros _. unfold new_isr_bits. rewrite !new_bits_same. reflexivity.
  - destruct (Z.eq_dec irq 2) as [->|Hne].
    + destruct (Hcascade eq_refl) as [irq2 [E2 [Hspur Hslave]]].
      destruct (Z.lt_ge_cases irq2 0) as [Hlt2|Hge2].
      * destruct (Hspur Hlt2) as [s2 [Es2 R]].
        destruct (pic_intack_returns s Master 2 H)
          as [s2' [Es2' [_ [Hisr2 [Hoth2 _]]]]].
        rewrite Es2 in Es2'. injection Es2' as <-.
        exists 2, (irq_base (pics1 s) + 7), s2.
        split; [exact E|]. split; [exact R|].
        split; [intros; lia|]. split; [intros; contradiction|].
        intros _. exists irq2. split; [exact E2|].
        split; [|intros; lia]. intros _ Ha0.
        unfold new_isr_bits.
        pose proof (Hoth2 Slave ltac:(discriminate)) as Hk.
        cbn [pics] in Hk, Hisr2. rewrite Hk, Hisr2, Ha0.
        change (truthy 0) with false. cbn iota.
        rewrite new_bits_set_line, new_bits_same by (assumption || lia).
        destruct (Z.testbit (isr (pics0 s)) 2); reflexivity.
      * destruct (Hslave Hge2) as [s1 [s2 [E1 [Es2 R]]]].
        destruct (pic_intack_returns s Slave irq2 H)
          as [s1' [E1' [Hw1' [Hisr1 [Hoth1 Hcfg1]]]]].
        rewrite E1 in E1'. injection E1' as <-.
        destruct (pic_intack_returns s1 Master 2 Hw1')
          as [s2' [Es2' [_ [Hisr2 [Hoth2 _]]]]].
        rewrite Es2 in Es2'. injection Es2' as <-.
        destruct (pending_not_in_service s Slave irq2 Hw1 E2 Hge2)
          as [Hr2 Hclear]; [left; reflexivity|].
        exists 2, (irq_base (pics1 s) + irq2), s2.
        split; [exact E|]. split; [exact R|].
        split; [intros; lia|]. split; [intros; contradiction|].
        intros _. exists irq2. split; [exact E2|].
        split; [intros; lia|]. intros _ Ha0 Ha1.
        unfold new_isr_bits.
        assert (Hs1 : isr (pics1 s2) = u8 (Z.lor (isr (pics1 s)) (Z.shiftl 1 irq2))).
        { pose proof (Hoth2 Slave ltac:(discriminate)) as Hk.
          cbn [pics] in Hk, Hisr1. rewrite Hk, Hisr1, Ha1. reflexivity. }
        assert (Hs0 : isr (pics0 s2) = u8 (Z.lor (isr (pics0 s)) (Z.shiftl 1 2))).
        { cbn [pics] in Hisr2. rewrite Hisr2.
          destruct (Hcfg1 Master) as [_ Heoi]. cbn [pics] in Heoi.
          pose proof (Hoth1 Master ltac:(discriminate)) as Hk.
          cbn [pics] in Hk. rewrite Heoi, Ha0, Hk. reflexivity. }
        rewrite Hs0, Hs1, !new_bits_set_line by (assumption || lia).
        cbn [pics] in Hclear. rewrite Hclear.
        destruct (Z.testbit (isr (pics0 s)) 2); reflexivity.
    + destruct (Hplain Hge Hne) as [s2 [Es2 R]].
      destruct (pic_intack_returns s Master irq H)
        as [s2' [Es2' [_ [Hisr2 [Hoth2 _]]]]].
      rewrite Es2 in Es2'. injection Es2' as <-.
      destruct (pending_not_in_service s Master irq Hw0 E Hge)
        as [Hr Hclear]; [right; exact Hne|].
      exists irq, (irq_base (pics0 s) + irq), s2.
      split; [exact E|]. split; [exact R|].
      split; [intros; lia|]. split; [|intros; contradiction].
      intros _ _ Ha0. unfold new_isr_bits.
      pose proof (Hoth2 Slave ltac:(discriminate)) as Hk.
      cbn [pics] in Hk, Hisr2. rewrite Hk, Hisr2, Ha0.
      change (truthy 0) with false. cbn iota.
      rewrite new_bits_set_line, new_bits_same by assumption.
      cbn [pics] in Hclear. rewrite Hclear. reflexivity.
Qed.

(** Line 3 pending on the master alone, with [auto_eoi] set on the slave,
    which the acknowledge does not involve: the acknowledge sets bit 3 of
    the master's [isr] and nothing else. *)
Lemma pic_read_irq_isr_witness :
  wf master_request_slave_auto_eoi = true
  /\ auto_eoi (pics0 master_request_slave_auto_eoi) = 0
  /\ auto_eoi (pics1 master_request_slave_auto_eoi) = 1
  /\ exists intno s',
       pic_read_irq master_request_slave_auto_eoi = Ret (intno, s')
       /\ new_isr_bits master_request_slave_auto_eoi s' = [(Master, 3)].
Proof.
  split; [reflexivity|]. split; [reflexivity|]. split; [reflexivity|].
  destruct (pic_read_irq_isr master_request_slave_auto_eoi eq_refl)
    as [irq [intno [s' [E [R [_ [Hone _]]]]]]].
  vm_compute in E. injection E as E. subst irq.
  exists intno, s'. split; [exact R|]. apply Hone; [lia | lia | reflexivity].
Defined.

(** C5 as stated fails on the cascade path: on the pair of scenario 4,
    which is well formed and has [auto_eoi] clear on both units, the
    acknowledge sets two new bits, line 2 of the master and line 2 of the
    slave. *)
Lemma ack_sets_one_isr_bit_fails :
  wf cascade_request = true
  /\ auto_eoi (pics0 cascade_request) = 0
  /\ auto_eoi (pics1 cascade_request) = 0
  /\ ~ ack_sets_one_isr_bit cascade_request.
Proof.
  repeat split.
  intros [intno [s' [u [k [R Hone]]]]].
  vm_compute in R. injection R as _ <-.
  vm_compute in Hone. discriminate Hone.
Qed.

(** ** Port reads *)

(** C6, as the code has it.  With the poll flag clear, a read from offset 1
    (any offset but 0) returns [imr] and leaves the pair as it is; with
    the poll flag set the read is a polled acknowledge whatever the
    offset: it returns what [pic_poll_read] returns and clears the poll
    flag, as the read from offset 0 does. *)
Theorem pic_ioport_read_imr (s : PicState2) (i : pic_index) (addr : Z) :
  (poll (pics s i) = 0 -> addr <> 0 ->
   pic_ioport_read s i addr = Ret (imr (pics s i), s))
  /\ (poll (pics s i) <> 0 ->
      pic_ioport_read s i addr
      = (r <- pic_poll_read s i ;;
         Ret (fst r, set_pics i (set_poll 0 (pics (snd r) i)) (snd r)))
      /\ pic_ioport_read s i addr = pic_ioport_read s i 0).
Proof.
  split.
  - intros Hp Ha. unfold pic_ioport_read. rewrite Hp.
    change (truthy 0) with false. cbn iota.
    destruct (Z.eqb_spec addr 0) as [E|_]; [contradiction | reflexivity].
  - intros Hp. apply truthy_true in Hp.
    unfold pic_ioport_read. rewrite Hp. split; [|reflexivity].
    destruct (pic_poll_read s i) as [[ret s1]| |msg]; reflexivity.
Qed.

(** The read from offset 1 of the freshly built slave returns its [imr];
    the read from offset 1 of a master with every line masked and the poll
    flag set returns the 7 of the polled acknowledge and clears the
    flag. *)
Lemma pic_ioport_read_imr_witness :
  poll (pics (i8259_init 0) Slave) = 0 /\ 1 <> 0
  /\ pic_ioport_read (i8259_init 0) Slave 1 = Ret (0, i8259_init 0)
  /\ poll (pics masked_polled Master) <> 0
  /\ pic_ioport_read masked_polled Master 1
     = Ret (7, set_pics Master (set_poll 0 (pics0 masked_polled)) masked_polled).
Proof.
  split; [reflexivity|]. split; [discriminate|]. split.
  - destruct (pic_ioport_read_imr (i8259_init 0) Slave 1) as [Hclear _].
    apply Hclear; [reflexivity | discriminate].
  - split; [discriminate|].
    destruct (pic_ioport_read_imr masked_polled Master 1) as [_ Hpoll].
    destruct Hpoll as [Hread _]; [discriminate|].
    rewrite Hread. reflexivity.
Defined.

(** C6 as stated fails when the poll flag is set: the read from offset 1
    is then a polled acknowledge.  With every line masked it returns 7
    while [imr] is 0xFF. *)
Lemma pic_ioport_read_imr_fails :
  wf masked_polled = true
  /\ imr (pics masked_polled Master) = 255
  /\ exists s', pic_ioport_read masked_polled Master 1 = Ret (7, s').
Proof.
  split; [reflexivity|]. split; [reflexivity|].
  eexists. vm_compute. reflexivity.
Qed.

(** The polled acknowledge, path by path. *)
Lemma pic_poll_read_paths (s : PicState2) (i : pic_index) :
  wf s = true ->
  exists r,
    pic_get_irq s i = Ret r
    /\ (r < 0 -> pic_poll_read s i = Ret (7, s))
    /\ (0 <= r -> i = Slave \/ r <> 2 ->
        exists s2,
          pic_update_irq (poll_cleared s i r) i = Ret s2
          /\ wf s2 = true
          /\ pic_poll_read s i = Ret (r, s2))
    /\ (0 <= r -> i = Master -> r = 2 ->
        pic_poll_read s i = Ret (2, poll_cleared s i 2)).
Proof.
  intros H.
  destruct (pic_get_irq_returns s i (wf_pics s i H)) as [r [E _]].
  exists r. split; [exact E|].
  unfold pic_poll_read. rewrite E. cbn [bind].
  destruct (Z.geb_spec r 0) as [Hge|Hlt].
  - split; [intros; lia|]. split.
    + intros _ Hex.
      assert (Hc : wf (poll_cleared s i r) = true).
      { pose proof (wf_pics s Master H) as H0.
        pose proof (wf_pics s Slave H) as H1. cbn [pics] in H0, H1.
        unfold poll_cleared, clear_line.
        destruct i; cbn [pics set_pics pics0 pics1];
          apply wf_iff; cbn [pics0 pics1]; split; auto with wf_db. }
      destruct (pic_update_irq_keeps _ i Hc) as [s2 [E2 [Hw2 _]]].
      exists s2. split; [exact E2|]. split; [exact Hw2|].
      destruct i.
      * destruct Hex as [Hex|Hex]; [discriminate Hex|].
        cbn [is_master negb orb].
        destruct (Z.eqb_spec r 2) as [E2r|_]; [contradiction|]. cbn [negb].
        change (set_pics Master _ s) with (poll_cleared s Master r).
        rewrite E2. reflexivity.
      * cbn [is_master negb orb].
        change (set_pics Slave _ _) with (poll_cleared s Slave r).
        rewrite E2. reflexivity.
    + intros _ -> ->. reflexivity.
  - split; [intros; reflexivity|]. split; intros; lia.
Qed.

(** C4, as the code has it.  On a well-formed pair, a read that finds the
    poll flag set clears the flag and performs a polled acknowledge: with
    no line pending it returns 7; with line [r] pending it clears line [r]
    of the unit's [irr] and [isr] (and, on the slave, line 2 of the
    master's), returns [r], and re-evaluates the output, except on the
    master when [r] is 2, where the output is left as it was. *)
Theorem pic_ioport_read_poll (s : PicState2) (i : pic_index) (addr : Z) :
  wf s = true -> poll (pics s i) <> 0 ->
  exists r,
    pic_get_irq s i = Ret r
    /\ (r < 0 ->
        pic_ioport_read s i addr
        = Ret (7, set_pics i (set_poll 0 (pics s i)) s))
    /\ (0 <= r -> i = Slave \/ r <> 2 ->
        exists s2,
          pic_update_irq (poll_cleared s i r) i = Ret s2
          /\ pic_ioport_read s i addr
             = Ret (r, set_pics i (set_poll 0 (pics s2 i)) s2))
    /\ (0 <= r -> i = Master -> r = 2 ->
        pic_ioport_read s i addr
        = Ret (2, set_pics i (set_poll 0 (pics (poll_cleared s i 2) i))
                    (poll_cleared s i 2))).
Proof.
  intros H Hp.
  destruct (pic_poll_read_paths s i H) as [r [E [Hnone [Hupd Hcas]]]].
  exists r. split; [exact E|].
  unfold pic_ioport_read.
  apply truthy_true in Hp. rewrite Hp.
  split; [intros Hr; rewrite (Hnone Hr); reflexivity|].
  split.
  - intros Hr Hex. destruct (Hupd Hr Hex) as [s2 [E2 [_ R]]].
    exists s2. split; [exact E2|]. rewrite R. reflexivity.
  - intros Hr Hi Hr2. rewrite (Hcas Hr Hi Hr2). reflexivity.
Qed.

(** Scenario 6 of the specification: line 5 pending on the master, poll
    armed; the read returns 5, clears [irr] bit 5 and lowers the output. *)
Lemma pic_ioport_read_poll_witness :
  wf (set_pics Master (set_poll 1 (set_irr 32 (pics0 (i8259_init 1))))
        (i8259_init 1)) = true
  /\ poll (pics (set_pics Master (set_poll 1 (set_irr 32 (pics0 (i8259_init 1))))
                   (i8259_init 1)) Master) <> 0
  /\ pic_ioport_read
       (set_pics Master (set_poll 1 (set_irr 32 (pics0 (i8259_init 1))))
          (i8259_init 1)) Master 0
     = Ret (5, i8259_init 0).
Proof.
  split; [reflexivity|]. split; [discriminate|].
  destruct (pic_ioport_read_poll
              (set_pics Master (set_poll 1 (set_irr 32 (pics0 (i8259_init 1))))
                 (i8259_init 1)) Master 0 eq_refl)
    as [r [E [_ [Hupd _]]]]; [discriminate|].
  vm_compute in E. injection E as E. subst r.
  destruct Hupd as [s2 [E2 R]]; [lia | right; lia |].
  vm_compute in E2. injection E2 as E2. subst s2. exact R.
Defined.

(** C4 as stated fails on the master when the pending line is 2: on the
    pair of scenario 4 with the poll flag set on the master, the read
    returns 2 and leaves the processor wire raised although nothing is
    pending any more, where the specified read lowers it. *)
Lemma poll_read_as_specified_fails :
  wf cascade_request_polled = true
  /\ poll (pics cascade_request_polled Master) <> 0
  /\ ~ poll_read_as_specified cascade_request_polled Master.
Proof.
  split; [reflexivity|]. split; [discriminate|].
  unfold poll_read_as_specified. vm_compute. discriminate.
Qed.

(** ** Reset and ICW1 *)

Lemma pic_init_reset_returns (s : PicState2) (i : pic_index) :
  wf s = true ->
  exists s',
    pic_init_reset s i = Ret s'
    /\ wf s' = true
    /\ pics s' i
       = mkPicState 0 0 0 0 0 0 0 0 0 0 0 0 0 0 0
           (elcr (pics s i)) (elcr_mask (pics s i))
    /\ forall j, j <> i ->
         irq_base (pics s' j) = irq_base (pics s j)
         /\ elcr (pics s' j) = elcr (pics s j)
         /\ elcr_mask (pics s' j) = elcr_mask (pics s j).
Proof.
  intros H. unfold pic_init_reset.
  set (p := mkPicState 0 0 0 0 0 0 0 0 0 0 0 0 0 0 0
              (elcr (pics s i)) (elcr_mask (pics s i))).
  assert (Hp : wf_pic p = true).
  { pose proof (wf_pics s i H) as Hw. apply wf_pic_iff in Hw.
    apply wf_pic_iff. subst p. cbn. repeat split; try lia; tauto. }
  destruct (pic_update_irq_keeps (set_pics i p s) i) as [s' [E [Hw [Hi Hj]]]].
  { apply wf_set_pics; assumption. }
  rewrite pics_set_pics_same in Hi.
  exists s'. split; [exact E|]. split; [exact Hw|]. split; [exact Hi|].
  intros j Hne. destruct (Hj j) as [_ [-> [_ [-> ->]]]].
  destruct i, j; try contradiction; repeat split.
Qed.

(** C7, as the code has it.  On a well-formed pair, [pic_init_reset], the
    warm reset that an ICW1 write starts with, zeroes every register of the
    unit except [elcr] and [elcr_mask], which keep their values; the ICW1
    write then latches [init_state], [init4] and [single_mode]; the cold
    reset [pic_reset] zeroes [elcr] as well, and keeps [elcr_mask]. *)
Theorem pic_reset_registers (s : PicState2) (i : pic_index) :
  wf s = true ->
  (exists s',
     pic_init_reset s i = Ret s'
     /\ pics s' i
        = mkPicState 0 0 0 0 0 0 0 0 0 0 0 0 0 0 0
            (elcr (pics s i)) (elcr_mask (pics s i))
     /\ forall val, Z.land val 16 <> 0 -> Z.land val 8 = 0 ->
          pic_ioport_write s i 0 val
          = Ret (set_pics i
                   (mkPicState 0 0 0 0 0 0 0 0 0 1 0 0 0
                      (u8 (Z.land val 1)) (u8 (Z.land val 2))
                      (elcr (pics s i)) (elcr_mask (pics s i))) s'))
  /\ (exists s',
        pic_reset s i = Ret s'
        /\ pics s' i
           = mkPicState 0 0 0 0 0 0 0 0 0 0 0 0 0 0 0
               0 (elcr_mask (pics s i))).
Proof.
  intros H.
  destruct (pic_init_reset_returns s i H) as [s' [E [_ [Hi _]]]].
  split.
  - exists s'. split; [exact E|]. split; [exact Hi|].
    intros val H16 H8. unfold pic_ioport_write. cbn [Z.eqb].
    apply truthy_true in H16. rewrite H16, E. cbn [bind].
    rewrite H8. change (truthy 0) with false. cbn iota.
    rewrite Hi. reflexivity.
  - unfold pic_reset. rewrite E. cbn [bind].
    eexists. split; [reflexivity|].
    rewrite pics_set_pics_same, Hi. reflexivity.
Qed.

Lemma pic_reset_registers_witness :
  wf cascade_request = true
  /\ exists s',
       pic_reset cascade_request Slave = Ret s'
       /\ pics s' Slave = mkPicState 0 0 0 0 0 0 0 0 0 0 0 0 0 0 0 0 222.
Proof.
  split; [reflexivity|].
  destruct (pic_reset_registers cascade_request Slave eq_refl)
    as [_ [s' [E Hp]]].
  exists s'. split; [exact E | exact Hp].
Defined.

(** C7 as stated fails for [elcr_mask] on the cold reset: [pic_reset] on
    the freshly built master leaves its [elcr_mask] at 0xF8. *)
Lemma pic_reset_elcr_mask_kept :
  wf (i8259_init 0) = true
  /\ exists s',
       pic_reset (i8259_init 0) Master = Ret s'
       /\ elcr_mask (pics s' Master) = 248
       /\ elcr_mask (pics s' Master) <> 0.
Proof.
  split; [reflexivity|].
  eexists. split; [vm_compute; reflexivity|].
  split; [reflexivity | discriminate].
Qed.

(** C8. On a well-formed pair, a write to offset 0 with bit 4 and bit 3
    set stops the machine with the level-sensitive error, and a write to
    offset 0 with bit 4 set and bit 3 clear returns. *)
Theorem pic_ioport_write_icw1_level (s : PicState2) (i : pic_index) (val : Z) :
  wf s = true -> Z.land val 16 <> 0 ->
  (Z.land val 8 <> 0 ->
   pic_ioport_write s i 0 val = Halt "level sensitive irq not supported")
  /\ (Z.land val 8 = 0 ->
      exists s', pic_ioport_write s i 0 val = Ret s').
Proof.
  intros H H16.
  destruct (pic_init_reset_returns s i H) as [s1 [E _]].
  unfold pic_ioport_write. cbn [Z.eqb].
  apply truthy_true in H16. rewrite H16, E. cbn [bind]. split.
  - intros H8. apply truthy_true in H8. rewrite H8. reflexivity.
  - intros H8. rewrite H8. change (truthy 0) with false. cbn iota.
    eexists. reflexivity.
Qed.

(** ICW1 = 0x19 halts; ICW1 = 0x11 returns. *)
Lemma pic_ioport_write_icw1_level_witness :
  wf (i8259_init 0) = true
  /\ pic_ioport_write (i8259_init 0) Master 0 25
     = Halt "level sensitive irq not supported"
  /\ exists s', pic_ioport_write (i8259_init 0) Master 0 17 = Ret s'.
Proof.
  split; [reflexivity|]. split.
  - apply (pic_ioport_write_icw1_level (i8259_init 0) Master 25 eq_refl);
      discriminate.
  - apply (pic_ioport_write_icw1_level (i8259_init 0) Master 17 eq_refl);
      [discriminate | reflexivity].
Defined.

(** ** The invariant of the state machine *)

Lemma icw2_aligned (val : Z) : Z.land (u8 (Z.land val 248)) 7 = 0.
Proof.
  rewrite u8_small by (rewrite Z.land_comm; apply land_byte_l; lia).
  rewrite <- Z.land_assoc. change (Z.land 248 7) with 0. apply Z.land_0_r.
Qed.

Lemma invariant_set_pics (s : PicState2) (i : pic_index) (p : PicState) :
  pic_invariant s -> wf_pic p = true -> Z.land (irq_base p) 7 = 0 ->
  pic_invariant (set_pics i p s).
Proof.
  intros [Hw Hb] Hp Ha. split.
  - apply wf_set_pics; assumption.
  - intros j. pose proof (Hb j) as Hj.
    destruct i, j; cbn [pics set_pics pics0 pics1] in *; assumption.
Qed.

Lemma invariant_update (s : PicState2) (i : pic_index) :
  pic_invariant s ->
  exists s', pic_update_irq s i = Ret s' /\ pic_invariant s'.
Proof.
  intros [Hw Hb].
  destruct (pic_update_irq_keeps s i Hw) as [s' [E [Hw' [_ Hj]]]].
  exists s'. split; [exact E|]. split; [exact Hw'|].
  intros j. destruct (Hj j) as [_ [-> _]]. apply Hb.
Qed.

Lemma invariant_pics (s : PicState2) (i : pic_index) :
  pic_invariant s ->
  wf_pic (pics s i) = true /\ Z.land (irq_base (pics s i)) 7 = 0.
Proof.
  intros [Hw Hb]. split; [apply wf_pics, Hw | apply Hb].
Qed.

Lemma invariant_set_irq1 (s : PicState2) (i : pic_index) (irq level : Z) :
  pic_invariant s ->
  exists s', pic_set_irq1 s i irq level = Ret s' /\ pic_invariant s'.
Proof.
  intros Hinv. rewrite pic_set_irq1_eq. apply invariant_update.
  destruct (invariant_pics s i Hinv) as [Hw Ha].
  apply invariant_set_pics; [exact Hinv | apply wf_pic_set_irq1_regs, Hw |].
  rewrite pic_set_irq1_regs_frame. exact Ha.
Qed.

Lemma invariant_intack (s : PicState2) (i : pic_index) (irq : Z) :
  pic_invariant s ->
  exists s', pic_intack s i irq = Ret s' /\ pic_invariant s'.
Proof.
  intros [Hw Hb].
  destruct (pic_intack_returns s i irq Hw) as [s' [E [Hw' [_ [_ Hj]]]]].
  exists s'. split; [exact E|]. split; [exact Hw'|].
  intros j. destruct (Hj j) as [-> _]. apply Hb.
Qed.

Lemma invariant_read_irq (s : PicState2) :
  pic_invariant s ->
  exists r, pic_read_irq s = Ret r /\ pic_invariant (snd r).
Proof.
  intros Hinv. pose proof Hinv as [Hw _].
  destruct (pic_read_irq_paths s Hw) as [irq [E [Hnone [Hcascade Hplain]]]].
  destruct (Z.lt_ge_cases irq 0) as [Hlt|Hge].
  - eexists. split; [apply Hnone, Hlt | exact Hinv].
  - destruct (Z.eq_dec irq 2) as [->|Hne].
    + destruct (Hcascade eq_refl) as [irq2 [E2 [Hspur Hslave]]].
      destruct (Z.lt_ge_cases irq2 0) as [Hlt2|Hge2].
      * destruct (Hspur Hlt2) as [s2 [Es2 R]].
        destruct (invariant_intack s Master 2 Hinv) as [s2' [Es2' Hinv2]].
        rewrite Es2 in Es2'. injection Es2' as <-.
        eexists. split; [exact R | exact Hinv2].
      * destruct (Hslave Hge2) as [s1 [s2 [E1 [Es2 R]]]].
        destruct (invariant_intack s Slave irq2 Hinv) as [s1' [E1' Hinv1]].
        rewrite E1 in E1'. injection E1' as <-.
        destruct (invariant_intack s1 Master 2 Hinv1) as [s2' [Es2' Hinv2]].
        rewrite Es2 in Es2'. injection Es2' as <-.
        eexists. split; [exact R | exact Hinv2].
    + destruct (Hplain Hge Hne) as [s2 [Es2 R]].
      destruct (invariant_intack s Master irq Hinv) as [s2' [Es2' Hinv2]].
      rewrite Es2 in Es2'. injection Es2' as <-.
      eexists. split; [exact R | exact Hinv2].
Qed.

Lemma invariant_poll_cleared (s : PicState2) (i : pic_index) (r : Z) :
  pic_invariant s -> pic_invariant (poll_cleared s i r).
Proof.
  intros Hinv.
  destruct (invariant_pics s Master Hinv) as [Hw0 Ha0].
  destruct (invariant_pics s Slave Hinv) as [Hw1 Ha1].
  cbn [pics] in Hw0, Ha0, Hw1, Ha1.
  unfold poll_cleared, clear_line.
  destruct i; cbv zeta.
  - apply invariant_set_pics;
      [exact Hinv | cbn [pics]; auto with wf_db | exact Ha0].
  - apply invariant_set_pics;
      [ apply invariant_set_pics; [exact Hinv | auto with wf_db | exact Ha0]
      | cbn [pics set_pics pics1]; auto with wf_db
      | exact Ha1 ].
Qed.

Lemma invariant_poll_read (s : PicState2) (i : pic_index) :
  pic_invariant s ->
  exists r, pic_poll_read s i = Ret r /\ pic_invariant (snd r).
Proof.
  intros Hinv. pose proof Hinv as [Hw _].
  destruct (pic_poll_read_paths s i Hw) as [r [E [Hnone [Hupd Hcas]]]].
  destruct (Z.lt_ge_cases r 0) as [Hlt|Hge].
  - eexists. split; [apply Hnone, Hlt | exact Hinv].
  - assert (Hex : (i = Slave \/ r <> 2) \/ (i = Master /\ r = 2)).
    { destruct i; [|left; left; reflexivity].
      destruct (Z.eq_dec r 2); [right; split; [reflexivity|assumption]|].
      left; right; assumption. }
    destruct Hex as [Hex|[Hi Hr]].
    + destruct (Hupd Hge Hex) as [s2 [E2 [_ R]]].
      destruct (invariant_update _ i (invariant_poll_cleared s i r Hinv))
        as [s2' [E2' Hinv2]].
      rewrite E2 in E2'. injection E2' as <-.
      eexists. split; [exact R | exact Hinv2].
    + eexists. split; [apply (Hcas Hge Hi Hr)|].
      apply invariant_poll_cleared, Hinv.
Qed.

#[local] Hint Extern 1 (_ <= _ < _) => lia : wf_db.

Lemma invariant_init_reset (s : PicState2) (i : pic_index) :
  pic_invariant s ->
  exists s', pic_init_reset s i = Ret s' /\ pic_invariant s'.
Proof.
  intros [Hw Hb].
  destruct (pic_init_reset_returns s i Hw) as [s' [E [Hw' [Hi Hj]]]].
  exists s'. split; [exact E|]. split; [exact Hw'|].
  intros j. destruct i, j;
    try (rewrite Hi; reflexivity);
    match goal with
    | |- Z.land (irq_base (pics _ ?k)) 7 = 0 =>
        destruct (Hj k ltac:(discriminate)) as [-> _]; apply Hb
    end.
Qed.

(** Closes a branch of the port decoder that stores a unit and then
    returns or updates the output. *)
Ltac decoder_branch Hinv Ha :=
  repeat match goal with
         | |- context [if ?c then _ else _] => destruct c
         end;
  left;
  first
    [ eexists; split; [reflexivity|]; first
        [ exact Hinv
        | apply invariant_set_pics;
          [exact Hinv | auto 10 with wf_db
          | first [exact Ha | apply icw2_aligned]] ]
    | apply invariant_update; apply invariant_set_pics;
      [exact Hinv | auto 10 with wf_db
      | first [exact Ha | apply icw2_aligned]] ].

Lemma invariant_ioport_write (s : PicState2) (i : pic_index) (addr val : Z) :
  pic_invariant s ->
  (exists s', pic_ioport_write s i addr val = Ret s' /\ pic_invariant s')
  \/ pic_ioport_write s i addr val = Halt "level sensitive irq not supported".
Proof.
  intros Hinv. destruct (invariant_pics s i Hinv) as [Hw Ha].
  unfold pic_ioport_write. cbv zeta.
  destruct (addr =? 0).
  - destruct (truthy (Z.land val 16)).
    + destruct (invariant_init_reset s i Hinv) as [s1 [E Hinv1]].
      rewrite E. cbn [bind].
      destruct (invariant_pics s1 i Hinv1) as [Hw1 Ha1].
      destruct (truthy (Z.land val 8)); [right; reflexivity|].
      decoder_branch Hinv1 Ha1.
    + destruct (truthy (Z.land val 8)); [decoder_branch Hinv Ha|].
      destruct ((Z.shiftr val 5 =? 0) || (Z.shiftr val 5 =? 4));
        [decoder_branch Hinv Ha|].
      destruct ((Z.shiftr val 5 =? 1) || (Z.shiftr val 5 =? 5)).
      * destruct (get_priority_byte (pics s i) (isr (pics s i)))
          as [pr [E _]].
        { apply wf_pic_iff in Hw. tauto. }
        rewrite E. cbn [bind]. decoder_branch Hinv Ha.
      * decoder_branch Hinv Ha.
  - decoder_branch Hinv Ha.
Qed.

Lemma invariant_ioport_read (s : PicState2) (i : pic_index) (addr : Z) :
  pic_invariant s ->
  exists r, pic_ioport_read s i addr = Ret r /\ pic_invariant (snd r).
Proof.
  intros Hinv. unfold pic_ioport_read. cbv zeta.
  destruct (truthy (poll (pics s i))).
  - destruct (invariant_poll_read s i Hinv) as [[ret s1] [E Hinv1]].
    rewrite E. cbn [bind]. eexists. split; [reflexivity|].
    cbn [snd] in *. destruct (invariant_pics s1 i Hinv1) as [Hw1 Ha1].
    apply invariant_set_pics; [exact Hinv1 | auto with wf_db | exact Ha1].
  - destruct (addr =? 0); [destruct (truthy (read_reg_select (pics s i)))|];
      eexists; (split; [reflexivity | exact Hinv]).
Qed.

Lemma invariant_intack_read (s : PicState2) :
  pic_invariant s ->
  exists r, pic_intack_read s = Ret r /\ pic_invariant (snd r).
Proof.
  intros Hinv. unfold pic_intack_read.
  destruct (invariant_poll_read s Master Hinv) as [[ret s1] [E Hinv1]].
  rewrite E. cbn [bind snd] in *.
  assert (Hlast : forall s2, pic_invariant s2 ->
            pic_invariant
              (set_pics Master (set_read_reg_select 1 (pics0 s2)) s2)).
  { intros s2 Hinv2.
    destruct (invariant_pics s2 Master Hinv2) as [Hw2 Ha2].
    apply invariant_set_pics; [exact Hinv2 | auto with wf_db | exact Ha2]. }
  destruct (ret =? 2).
  - destruct (invariant_poll_read s1 Slave Hinv1) as [[ret2 s2] [E2 Hinv2]].
    rewrite E2. cbn [bind snd] in *.
    eexists. split; [reflexivity | cbn [snd]; apply Hlast, Hinv2].
  - cbn [bind]. eexists. split; [reflexivity | cbn [snd]; apply Hlast, Hinv1].
Qed.

Lemma invariant_reset (s : PicState2) (i : pic_index) :
  pic_invariant s ->
  exists s', pic_reset s i = Ret s' /\ pic_invariant s'.
Proof.
  intros Hinv. unfold pic_reset.
  destruct (invariant_init_reset s i Hinv) as [s1 [E Hinv1]].
  rewrite E. cbn [bind]. eexists. split; [reflexivity|].
  destruct (invariant_pics s1 i Hinv1) as [Hw1 Ha1].
  apply invariant_set_pics; [exact Hinv1 | auto with wf_db | exact Ha1].
Qed.

Lemma invariant_elcr_write (s : PicState2) (i : pic_index) (val : Z) :
  pic_invariant s -> pic_invariant (elcr_ioport_write s i val).
Proof.
  intros Hinv. unfold elcr_ioport_write. cbv zeta.
  destruct (invariant_pics s i Hinv) as [Hw Ha].
  apply invariant_set_pics; [exact Hinv | auto with wf_db | exact Ha].
Qed.

Lemma invariant_init (level : Z) : pic_invariant (i8259_init level).
Proof.
  split; [reflexivity|]. intros [|]; reflexivity.
Qed.

(** Every operation on a state of the invariant returns into the
    invariant, or is the ICW1 write that stops the machine.  No operation
    loops. *)
Lemma invariant_run (o : operation) (s : PicState2) :
  pic_invariant s -> admissible o ->
  (exists s', run o s = Ret s' /\ pic_invariant s')
  \/ run o s = Halt "level sensitive irq not supported".
Proof.
  intros Hinv Hadm. destruct o as [i addr val|i addr|i val|irq level| | |i];
    cbn [run].
  - apply invariant_ioport_write, Hinv.
  - left. destruct (invariant_ioport_read s i addr Hinv) as [r [E Hr]].
    rewrite E. cbn [bind]. eexists. split; [reflexivity | exact Hr].
  - left. eexists. split; [reflexivity | apply invariant_elcr_write, Hinv].
  - left. apply invariant_set_irq1, Hinv.
  - left. destruct (invariant_read_irq s Hinv) as [r [E Hr]].
    rewrite E. cbn [bind]. eexists. split; [reflexivity | exact Hr].
  - left. destruct (invariant_intack_read s Hinv) as [r [E Hr]].
    rewrite E. cbn [bind]. eexists. split; [reflexivity | exact Hr].
  - left. apply invariant_reset, Hinv.
Qed.

Lemma reachable_invariant (s : PicState2) : reachable s -> pic_invariant s.
Proof.
  induction 1 as [level | s s' o Hr IH Hadm Hrun].
  - apply invariant_init.
  - destruct (invariant_run o s IH Hadm) as [[s'' [E Hinv]] | E];
      rewrite Hrun in E.
    + injection E as <-. exact Hinv.
    + discriminate E.
Qed.

(** C9. In every state reachable from the construction of the pair by the
    public operations, the low three bits of [irq_base] are 0 on both
    units, whatever bytes were written. *)
Theorem irq_base_low_bits (s : PicState2) (i : pic_index) :
  reachable s -> Z.land (irq_base (pics s i)) 7 = 0.
Proof.
  intros Hr. destruct (reachable_invariant s Hr) as [_ Hb]. apply Hb.
Qed.

(** ICW1 = 0x11 then ICW2 = 0x27 on the master: the base is 0x20. *)
Lemma irq_base_low_bits_witness :
  exists s,
    reachable s
    /\ irq_base (pics s Master) = 32
    /\ Z.land (irq_base (pics s Master)) 7 = 0.
Proof.
  assert (Hr : reachable
                 (mkPicState2
                    (mkPicState 0 0 0 0 0 32 0 0 0 2 0 0 0 1 0 0 248)
                    (mkPicState 0 0 0 0 0 0 0 0 0 0 0 0 0 0 0 0 222) 0)).
  { apply (reachable_step
             (mkPicState2
                (mkPicState 0 0 0 0 0 0 0 0 0 1 0 0 0 1 0 0 248)
                (mkPicState 0 0 0 0 0 0 0 0 0 0 0 0 0 0 0 0 222) 0)
             _ (OpPortWrite Master 1 39)); [| exact I | reflexivity].
    apply (reachable_step (i8259_init 0) _ (OpPortWrite Master 0 17));
      [apply reachable_init | exact I | reflexivity]. }
  eexists. split; [exact Hr|]. split; [reflexivity|].
  apply (irq_base_low_bits _ Master Hr).
Defined.

(** ** The scenarios of the specification *)

Lemma run_all_reachable (os : list operation) :
  forall s s',
    reachable s -> Forall admissible os -> run_all os s = Ret s' ->
    reachable s'.
Proof.
  induction os as [|o os IH]; intros s s' Hr Hadm E.
  - injection E as <-. exact Hr.
  - cbn [run_all] in E. apply bind_Ret_inv in E.
    destruct E as [s1 [E1 E]].
    inversion Hadm as [|? ? Ho Hos]; subst.
    apply (IH s1 s'); [|exact Hos | exact E].
    apply (reachable_step s s1 o); assumption.
Qed.

(** The initialisation of scenario 1 on both units, then line 10 raised. *)
Lemma cascade_request_reachable : reachable cascade_request.
Proof.
  apply (run_all_reachable
           [ OpPortWrite Master 0 17; OpPortWrite Master 1 32;
             OpPortWrite Master 1 4; OpPortWrite Master 1 1;
             OpPortWrite Slave 0 17; OpPortWrite Slave 1 40;
             OpPortWrite Slave 1 2; OpPortWrite Slave 1 1;
             OpSetIrq 10 1 ]
           (i8259_init 0)).
  - apply reachable_init.
  - repeat constructor; lia.
  - reflexivity.
Qed.

(** Both units initialised, the slave with automatic EOI (ICW4 = 3), then
    line 3 raised. *)
Lemma master_request_slave_auto_eoi_reachable :
  reachable master_request_slave_auto_eoi.
Proof.
  apply (run_all_reachable
           [ OpPortWrite Master 0 17; OpPortWrite Master 1 32;
             OpPortWrite Master 1 4; OpPortWrite Master 1 1;
             OpPortWrite Slave 0 17; OpPortWrite Slave 1 40;
             OpPortWrite Slave 1 2; OpPortWrite Slave 1 3;
             OpSetIrq 3 1 ]
           (i8259_init 0)).
  - apply reachable_init.
  - repeat constructor; lia.
  - reflexivity.
Qed.

Lemma cascade_request_polled_reachable : reachable cascade_request_polled.
Proof.
  apply (reachable_step cascade_request _ (OpPortWrite Master 0 12)).
  - apply cascade_request_reachable.
  - exact I.
  - reflexivity.
Qed.

Lemma masked_polled_reachable : reachable masked_polled.
Proof.
  apply (run_all_reachable
           [ OpPortWrite Master 1 255; OpPortWrite Master 0 12 ]
           (i8259_init 0)).
  - apply reachable_init.
  - repeat constructor.
  - reflexivity.
Qed.

(** Scenario 3: basic acknowledge, vector 0x23, [isr] = 0x08, [irr] bit 3
    cleared, output lowered. *)
Example scenario_basic_ack :
  (s <- run_all [ OpPortWrite Master 0 17; OpPortWrite Master 1 32;
                  OpPortWrite Master 1 4; OpPortWrite Master 1 1;
                  OpSetIrq 3 1 ] (i8259_init 0) ;;
   pic_read_irq s)
  = Ret (35, mkPicState2
               (mkPicState 8 0 0 8 0 32 0 0 0 0 0 0 0 1 0 0 248)
               (mkPicState 0 0 0 0 0 0 0 0 0 0 0 0 0 0 0 0 222) 0).
Proof. reflexivity. Qed.

(** Scenario 4: the cascade path, vector 0x2A, bit 2 in service on both
    units. *)
Example scenario_cascade_ack :
  pic_read_irq cascade_request
  = Ret (42, mkPicState2
               (mkPicState 0 0 0 4 0 32 0 0 0 0 0 0 0 1 0 0 248)
               (mkPicState 4 0 0 4 0 40 0 0 0 0 0 0 0 1 0 0 222) 0).
Proof. reflexivity. Qed.

(** Scenario 5: non-specific EOI with rotation after scenario 3. *)
Example scenario_rotate_eoi :
  pic_ioport_write
    (mkPicState2
       (mkPicState 8 0 0 8 0 32 0 0 0 0 0 0 0 1 0 0 248)
       (mkPicState 0 0 0 0 0 0 0 0 0 0 0 0 0 0 0 0 222) 0)
    Master 0 160
  = Ret (mkPicState2
           (mkPicState 8 0 0 0 4 32 0 0 0 0 0 0 0 1 0 0 248)
           (mkPicState 0 0 0 0 0 0 0 0 0 0 0 0 0 0 0 0 222) 0).
Proof. reflexivity. Qed.

(** * Further properties of the controller *)

(** ** What the selection returns *)

Lemma pic_update_irq_set (s : PicState2) (i : pic_index) (p : PicState) :
  wf s = true -> wf_pic p = true ->
  exists s',
    pic_update_irq (set_pics i p s) i = Ret s'
    /\ wf s' = true
    /\ pics s' i = p
    /\ (i = Master -> pics1 s' = pics1 s)
    /\ (i = Slave ->
        exists a b, pics0 s' = set_last_irr a (set_irr b (pics0 s))).
Proof.
  intros H Hp.
  destruct (pic_update_irq_returns (set_pics i p s) i)
    as [s' [E [Hw [Hi [H1 H0]]]]].
  { apply wf_set_pics; assumption. }
  exists s'. split; [exact E|]. split; [exact Hw|].
  split; [rewrite Hi; apply pics_set_pics_same|].
  split; intros ->; cbn [set_pics pics0 pics1] in *; assumption.
Qed.

(** [pic_get_irq] in one expression of the two priorities. *)
Lemma pic_get_irq_char (s : PicState2) (i : pic_index) :
  wf_pic (pics s i) = true ->
  exists pr pc,
    get_priority (pics s i)
      (Z.land (irr (pics s i)) (Z.lnot (imr (pics s i)))) = Ret pr
    /\ get_priority (pics s i) (service_mask s i) = Ret pc
    /\ 0 <= pr <= 8 /\ 0 <= pc <= 8
    /\ pic_get_irq s i
       = Ret (if (pr <? 8) && (pr <? pc) then line_at (pics s i) pr else -1).
Proof.
  intros H.
  assert (Hreq : 0 <= Z.land (irr (pics s i)) (Z.lnot (imr (pics s i))) < 256).
  { apply land_byte_l. apply wf_pic_iff in H. tauto. }
  destruct (get_priority_byte (pics s i) _ Hreq) as [pr [Epr Hpr]].
  destruct (get_priority_byte (pics s i) (service_mask s i)
              (service_mask_byte s i H)) as [pc [Epc Hpc]].
  exists pr, pc. split; [exact Epr|]. split; [exact Epc|].
  split; [destruct Hpr as [[_ ->]|[_ [? _]]]; lia|].
  split; [destruct Hpc as [[_ ->]|[_ [? _]]]; lia|].
  unfold pic_get_irq. rewrite Epr. cbn [bind].
  assert (H8 : 0 <= pr <= 8) by (destruct Hpr as [[_ ->]|[_ [? _]]]; lia).
  destruct (Z.eqb_spec pr 8) as [->|Hne]; [reflexivity|].
  fold (service_mask s i). rewrite Epc. cbn [bind].
  destruct (Z.ltb_spec pr 8); [|lia]. cbn [andb].
  destruct (pr <? pc); reflexivity.
Qed.

Lemma line_at_inj (p : PicState) (a b : Z) :
  0 <= a < 8 -> 0 <= b < 8 -> line_at p a = line_at p b -> a = b.
Proof.
  unfold line_at. rewrite !land7_mod. intros Ha Hb E.
  assert (Ed : (a - b) mod 8 = 0).
  { replace (a - b) with ((a + priority_add p) - (b + priority_add p)) by lia.
    rewrite Zminus_mod, E, Z.sub_diag. reflexivity. }
  apply Z.mod_divide in Ed; [|lia]. destruct Ed as [k Ek]. lia.
Qed.

Lemma testbit_service_mask (s : PicState2) (i : pic_index) (n : Z) :
  0 <= n ->
  Z.testbit (service_mask s i) n
  = Z.testbit (isr (pics s i)) n
    && (if truthy (special_mask (pics s i))
        then negb (Z.testbit (imr (pics s i)) n) else true)
    && (if truthy (special_fully_nested_mode (pics s i)) && is_master i
        then negb (n =? 2) else true).
Proof.
  intros Hn. unfold service_mask. cbv zeta.
  destruct (truthy (special_fully_nested_mode (pics s i)) && is_master i);
    destruct (truthy (special_mask (pics s i)));
    rewrite ?Z.land_spec, ?Z.lnot_spec, ?testbit_bit by lia;
    rewrite ?andb_true_r; try reflexivity.
  - rewrite (Z.eqb_sym 2 n). reflexivity.
  - rewrite (Z.eqb_sym 2 n). reflexivity.
Qed.

(** The facts carried by a selected line. *)
Lemma pic_get_irq_pending (s : PicState2) (i : pic_index) (irq : Z) :
  wf_pic (pics s i) = true ->
  pic_get_irq s i = Ret irq -> 0 <= irq ->
  exists pr pc,
    get_priority (pics s i)
      (Z.land (irr (pics s i)) (Z.lnot (imr (pics s i)))) = Ret pr
    /\ get_priority (pics s i) (service_mask s i) = Ret pc
    /\ 0 <= pr < 8 /\ pr < pc /\ irq = line_at (pics s i) pr
    /\ Z.testbit (irr (pics s i)) irq = true
    /\ Z.testbit (imr (pics s i)) irq = false
    /\ Z.testbit (service_mask s i) irq = false.
Proof.
  intros H E Hirq.
  destruct (pic_get_irq_char s i H) as [pr [pc [Epr [Epc [Hr [Hc E']]]]]].
  rewrite E in E'. injection E' as E'.
  destruct (Z.ltb_spec pr 8) as [H8|H8]; cbn [andb] in E'; [|lia].
  destruct (Z.ltb_spec pr pc) as [Hlt|Hge]; [|lia].
  exists pr, pc. split; [exact Epr|]. split; [exact Epc|].
  split; [lia|]. split; [exact Hlt|]. split; [exact E'|].
  assert (Hreq : 0 <= Z.land (irr (pics s i)) (Z.lnot (imr (pics s i))) < 256).
  { apply land_byte_l. apply wf_pic_iff in H. tauto. }
  destruct (get_priority_hit _ _ _ Hreq Epr ltac:(lia)) as [_ Hb].
  rewrite <- E' in Hb.
  rewrite Z.land_spec, Z.lnot_spec in Hb by exact Hirq.
  apply andb_true_iff in Hb. destruct Hb as [Hb1 Hb2].
  apply negb_true_iff in Hb2.
  split; [exact Hb1|]. split; [exact Hb2|].
  rewrite E'.
  apply (get_priority_below _ _ pc pr (service_mask_byte s i H) Epc). lia.
Qed.

(** X1. A line that [pic_get_irq] selects is a line 0..7 that is requested
    in [irr], not masked in [imr] and not in the service mask. *)
Theorem pic_get_irq_requested (s : PicState2) (i : pic_index) (irq : Z) :
  wf_pic (pics s i) = true ->
  pic_get_irq s i = Ret irq -> 0 <= irq ->
  0 <= irq < 8
  /\ Z.testbit (irr (pics s i)) irq = true
  /\ Z.testbit (imr (pics s i)) irq = false
  /\ Z.testbit (service_mask s i) irq = false.
Proof.
  intros H E Hirq.
  destruct (pic_get_irq_pending s i irq H E Hirq)
    as [pr [pc [_ [_ [_ [_ [El [Hb [Hm Hs]]]]]]]]].
  split; [rewrite El; apply line_at_range|]. tauto.
Qed.

Lemma pic_get_irq_requested_witness :
  Z.testbit (irr (pics cascade_request Slave)) 2 = true
  /\ Z.testbit (imr (pics cascade_request Slave)) 2 = false.
Proof.
  destruct (pic_get_irq_requested cascade_request Slave 2 eq_refl eq_refl)
    as [_ [Hb [Hm _]]]; [lia|].
  split; assumption.
Defined.

Lemma get_priority_unique (p : PicState) (mask pr : Z) :
  0 <= mask < 256 -> 0 <= pr < 8 ->
  Z.testbit mask (line_at p pr) = true ->
  (forall q, 0 <= q < pr -> Z.testbit mask (line_at p q) = false) ->
  get_priority p mask = Ret pr.
Proof.
  intros Hm Hpr Hb Hl.
  destruct (get_priority_byte p mask Hm) as [pr' [E Hc]].
  rewrite E. f_equal.
  destruct Hc as [[-> _]|[_ [Hr' [Hb' Hl']]]].
  - rewrite Z.bits_0 in Hb. discriminate Hb.
  - destruct (Z.lt_trichotomy pr' pr) as [Hlt|[Heq|Hgt]]; [|exact Heq|].
    + rewrite Hl in Hb' by lia. discriminate Hb'.
    + rewrite Hl' in Hb by lia. discriminate Hb.
Qed.

Lemma get_priority_empty (p : PicState) : get_priority p 0 = Ret 8.
Proof. reflexivity. Qed.

(** X2. Masked requests do not count: when [irr & ~imr] is 0 nothing is
    pending, whatever is in service; and when the service mask is empty
    (nothing in service, or in special mask mode every in-service line
    masked) and [irr & ~imr] is not 0, a line is pending. *)
Theorem pic_get_irq_masked (s : PicState2) (i : pic_index) :
  wf_pic (pics s i) = true ->
  (Z.land (irr (pics s i)) (Z.lnot (imr (pics s i))) = 0 ->
   pic_get_irq s i = Ret (-1))
  /\ (service_mask s i = 0 ->
      Z.land (irr (pics s i)) (Z.lnot (imr (pics s i))) <> 0 ->
      exists irq, pic_get_irq s i = Ret irq /\ 0 <= irq < 8).
Proof.
  intros H. split.
  - intros E0. unfold pic_get_irq. rewrite E0. reflexivity.
  - intros Es Hne.
    destruct (pic_get_irq_char s i H) as [pr [pc [Epr [Epc [Hr [Hc E]]]]]].
    rewrite Es, get_priority_empty in Epc. injection Epc as <-.
    assert (Hreq : 0 <= Z.land (irr (pics s i)) (Z.lnot (imr (pics s i))) < 256).
    { apply land_byte_l. apply wf_pic_iff in H. tauto. }
    destruct (get_priority_byte (pics s i) _ Hreq) as [pr' [Epr' Hpr']].
    rewrite Epr in Epr'. injection Epr' as <-.
    destruct Hpr' as [[E0 _]|[_ [Hr' _]]]; [contradiction|].
    destruct (Z.ltb_spec pr 8); [|lia]. cbn [andb] in E.
    exists (line_at (pics s i) pr). split; [exact E | apply line_at_range].
Qed.

(** Scenario 2 of the specification: every line masked, line 0 requested. *)
Lemma pic_get_irq_masked_witness :
  wf_pic (pics (set_pics Master (set_irr 1 (set_imr 255 (pics0 (i8259_init 0))))
                  (i8259_init 0)) Master) = true
  /\ pic_get_irq (set_pics Master (set_irr 1 (set_imr 255 (pics0 (i8259_init 0))))
                    (i8259_init 0)) Master = Ret (-1).
Proof.
  split; [reflexivity|].
  apply (pic_get_irq_masked
           (set_pics Master (set_irr 1 (set_imr 255 (pics0 (i8259_init 0))))
              (i8259_init 0)) Master eq_refl).
  reflexivity.
Defined.

Lemma line_at_0 (p : PicState) :
  0 <= priority_add p < 8 -> line_at p 0 = priority_add p.
Proof.
  intros H. unfold line_at. rewrite land7_mod. apply Z.mod_small. lia.
Qed.

(** X3. Line [priority_add] has the highest priority: when
    [priority_add < 8] and that line is requested, unmasked and not in the
    service mask, it is the line selected, whatever else is requested or in
    service. *)
Theorem pic_get_irq_highest (s : PicState2) (i : pic_index) :
  wf_pic (pics s i) = true ->
  priority_add (pics s i) < 8 ->
  Z.testbit (irr (pics s i)) (priority_add (pics s i)) = true ->
  Z.testbit (imr (pics s i)) (priority_add (pics s i)) = false ->
  Z.testbit (service_mask s i) (priority_add (pics s i)) = false ->
  pic_get_irq s i = Ret (priority_add (pics s i)).
Proof.
  intros H Hlt Hb Hm Hs.
  assert (Ha : 0 <= priority_add (pics s i) < 8).
  { apply wf_pic_iff in H. lia. }
  destruct (pic_get_irq_char s i H) as [pr [pc [Epr [Epc [Hr [Hc E]]]]]].
  assert (Hreq : 0 <= Z.land (irr (pics s i)) (Z.lnot (imr (pics s i))) < 256).
  { apply land_byte_l. apply wf_pic_iff in H. tauto. }
  assert (E0 : get_priority (pics s i)
                 (Z.land (irr (pics s i)) (Z.lnot (imr (pics s i)))) = Ret 0).
  { apply get_priority_unique; [exact Hreq | lia | | intros; lia].
    rewrite line_at_0, Z.land_spec, Z.lnot_spec, Hb, Hm by lia. reflexivity. }
  rewrite Epr in E0. injection E0 as ->.
  assert (Hpc : 0 < pc).
  { destruct (Z.eq_dec pc 0) as [->|]; [|lia].
    destruct (get_priority_hit (pics s i) (service_mask s i) 0
                (service_mask_byte s i H) Epc ltac:(lia)) as [_ Hb0].
    rewrite line_at_0, Hs in Hb0 by exact Ha. discriminate Hb0. }
  destruct (Z.ltb_spec 0 pc); [|lia]. cbn [Z.ltb andb] in E.
  rewrite E, line_at_0 by exact Ha. reflexivity.
Qed.

(** After a rotation to line 5, line 5 wins over line 0. *)
Lemma pic_get_irq_highest_witness :
  pic_get_irq
    (set_pics Master (set_priority_add 5 (set_irr 33 (pics0 (i8259_init 0))))
       (i8259_init 0)) Master
  = Ret 5.
Proof.
  apply (pic_get_irq_highest
           (set_pics Master (set_priority_add 5 (set_irr 33 (pics0 (i8259_init 0))))
              (i8259_init 0)) Master eq_refl);
    [cbn; lia | reflexivity | reflexivity | reflexivity].
Defined.

(** ** End of interrupt *)

Lemma clear_line_byte (x k : Z) : 0 <= x < 256 -> 0 <= clear_line x k < 256.
Proof. intros _. apply u8_range. Qed.

Lemma testbit_clear_line' (x k n : Z) :
  0 <= x < 256 -> 0 <= k -> 0 <= n ->
  Z.testbit (clear_line x k) n = Z.testbit x n && negb (k =? n).
Proof. apply testbit_clear_line. Qed.

Lemma clear_set_line (x k : Z) :
  0 <= x < 256 -> 0 <= k < 8 -> Z.testbit x k = false ->
  clear_line (u8 (Z.lor x (Z.shiftl 1 k))) k = x.
Proof.
  intros Hx Hk Hb. apply Z.bits_inj'. intros n Hn.
  rewrite testbit_clear_line', testbit_set_line by (try apply u8_range; lia).
  destruct (Z.eqb_spec k n) as [->|Hne].
  - rewrite Hb. reflexivity.
  - rewrite orb_false_r, andb_true_r. reflexivity.
Qed.

Lemma rotate_lowest (l : Z) :
  0 <= l < 8 -> Z.land (7 + Z.land (l + 1) 7) 7 = l.
Proof.
  intros Hl. rewrite !land7_mod, Z.add_mod_idemp_r by lia.
  replace (7 + (l + 1)) with (l + 1 * 8) by lia.
  rewrite Z.mod_add by lia. apply Z.mod_small. lia.
Qed.

(** The OCW2 branch of the decoder on the two non-specific EOI commands. *)
Lemma ocw2_eoi_unfold (s : PicState2) (i : pic_index) (val : Z) :
  Z.land val 16 = 0 -> Z.land val 8 = 0 ->
  Z.shiftr val 5 = 1 \/ Z.shiftr val 5 = 5 ->
  pic_ioport_write s i 0 val
  = (priority <- get_priority (pics s i) (isr (pics s i)) ;;
     if negb (priority =? 8) then
       let irq := line_at (pics s i) priority in
       let p := set_isr (clear_line (isr (pics s i)) irq) (pics s i) in
       let p := if Z.shiftr val 5 =? 5
                then set_priority_add (u8 (Z.land (irq + 1) 7)) p else p in
       pic_update_irq (set_pics i p s) i
     else Ret s).
Proof.
  intros H16 H8 Hc. unfold pic_ioport_write. cbn [Z.eqb].
  rewrite H16, H8. change (truthy 0) with false. cbn iota. cbv zeta.
  destruct Hc as [-> | ->]; reflexivity.
Qed.

(** X4. The non-specific EOI commands (OCW2 with command 1, or 5 with
    rotation) on a well-formed pair: with nothing in service the write
    changes nothing; otherwise it clears from [isr] the in-service line [l]
    of highest priority and nothing else in the unit, and with rotation
    sets [priority_add] to [(l + 1) & 7], which makes [l] the line of
    lowest priority. *)
Theorem ocw2_nonspecific_eoi (s : PicState2) (i : pic_index) (val : Z) :
  wf s = true ->
  Z.land val 16 = 0 -> Z.land val 8 = 0 ->
  Z.shiftr val 5 = 1 \/ Z.shiftr val 5 = 5 ->
  (isr (pics s i) = 0 -> pic_ioport_write s i 0 val = Ret s)
  /\ (isr (pics s i) <> 0 ->
      exists pr s',
        0 <= pr < 8
        /\ Z.testbit (isr (pics s i)) (line_at (pics s i) pr) = true
        /\ (forall q, 0 <= q < pr ->
              Z.testbit (isr (pics s i)) (line_at (pics s i) q) = false)
        /\ pic_ioport_write s i 0 val = Ret s'
        /\ (Z.shiftr val 5 = 1 ->
            pics s' i
            = set_isr (clear_line (isr (pics s i)) (line_at (pics s i) pr))
                (pics s i))
        /\ (Z.shiftr val 5 = 5 ->
            pics s' i
            = set_priority_add (Z.land (line_at (pics s i) pr + 1) 7)
                (set_isr (clear_line (isr (pics s i)) (line_at (pics s i) pr))
                   (pics s i))
            /\ line_at (pics s' i) 7 = line_at (pics s i) pr)).
Proof.
  intros H H16 H8 Hc.
  pose proof (wf_pics s i H) as Hw.
  assert (Hisr : 0 <= isr (pics s i) < 256) by (apply wf_pic_iff in Hw; tauto).
  rewrite (ocw2_eoi_unfold s i val H16 H8 Hc). split.
  - intros ->. reflexivity.
  - intros Hne.
    destruct (get_priority_byte (pics s i) _ Hisr) as [pr [E Hpr]].
    destruct Hpr as [[E0 _]|[_ [Hr [Hb Hl]]]]; [contradiction|].
    rewrite E. cbn [bind].
    destruct (Z.eqb_spec pr 8) as [E8|_]; [lia|]. cbn [negb]. cbv zeta.
    set (l := line_at (pics s i) pr) in *.
    pose proof (line_at_range (pics s i) pr) as Hlr. fold l in Hlr.
    rewrite (u8_small (Z.land (l + 1) 7))
      by (pose proof (land7_range (l + 1)); lia).
    match goal with
    | |- context [set_pics i ?q s] => set (p' := q)
    end.
    assert (Hp' : wf_pic p' = true).
    { subst p'. unfold clear_line.
      destruct (Z.shiftr val 5 =? 5).
      - apply wf_pic_iff. apply wf_pic_iff in Hw.
        pose proof (land7_range (l + 1)).
        cbn. repeat split; try apply u8_range; try lia; tauto.
      - auto with wf_db. }
    destruct (pic_update_irq_set s i p' H Hp') as [s' [Es [_ [Hi _]]]].
    exists pr, s'. split; [exact Hr|]. split; [exact Hb|].
    split; [exact Hl|]. split; [exact Es|]. rewrite Hi. subst p'.
    split; intros Ec; rewrite Ec; cbn [Z.eqb Pos.eqb]; [reflexivity|].
    split; [reflexivity|].
    unfold line_at at 1. cbn [priority_add set_priority_add].
    apply rotate_lowest, Hlr.
Qed.

(** Scenario 5 of the specification: rotate-EOI after line 3 was
    acknowledged leaves [isr] empty and [priority_add] at 4. *)
Lemma ocw2_nonspecific_eoi_witness :
  exists s',
    pic_ioport_write
      (set_pics Master (set_isr 8 (pics0 (i8259_init 0))) (i8259_init 0))
      Master 0 160 = Ret s'
    /\ isr (pics s' Master) = 0
    /\ priority_add (pics s' Master) = 4.
Proof.
  destruct (ocw2_nonspecific_eoi
              (set_pics Master (set_isr 8 (pics0 (i8259_init 0))) (i8259_init 0))
              Master 160 eq_refl eq_refl eq_refl (or_intror eq_refl))
    as [_ Hsome].
  destruct Hsome as [pr [s' [Hr [Hb [Hl [E [_ Hrot]]]]]]]; [discriminate|].
  destruct (Hrot eq_refl) as [Hp _].
  assert (Epr : pr = 3).
  { assert (Hc : pr = 0 \/ pr = 1 \/ pr = 2 \/ pr = 3 \/ pr = 4 \/ pr = 5
                 \/ pr = 6 \/ pr = 7) by lia.
    repeat (destruct Hc as [->|Hc]; [try discriminate Hb; reflexivity|]).
    subst pr. discriminate Hb. }
  subst pr. exists s'. split; [exact E|]. rewrite Hp. split; reflexivity.
Defined.

(** X5. The specific EOI commands (OCW2 with command 3, or 7 with
    rotation) on a well-formed pair return and clear from [isr] exactly
    line [val & 7], in service or not, of highest priority or not; [irr]
    and [imr] are as before, and [priority_add] becomes
    [((val & 7) + 1) & 7] with rotation and is kept without. *)
Theorem ocw2_specific_eoi (s : PicState2) (i : pic_index) (val : Z) :
  wf s = true ->
  Z.land val 16 = 0 -> Z.land val 8 = 0 ->
  Z.shiftr val 5 = 3 \/ Z.shiftr val 5 = 7 ->
  exists s',
    pic_ioport_write s i 0 val = Ret s'
    /\ (forall n, 0 <= n ->
          Z.testbit (isr (pics s' i)) n
          = Z.testbit (isr (pics s i)) n && negb (n =? Z.land val 7))
    /\ irr (pics s' i) = irr (pics s i)
    /\ imr (pics s' i) = imr (pics s i)
    /\ priority_add (pics s' i)
       = (if Z.shiftr val 5 =? 7 then Z.land (Z.land val 7 + 1) 7
          else priority_add (pics s i)).
Proof.
  intros H H16 H8 Hc.
  pose proof (wf_pics s i H) as Hw.
  assert (Hisr : 0 <= isr (pics s i) < 256) by (apply wf_pic_iff in Hw; tauto).
  pose proof (land7_range val) as Hl.
  unfold pic_ioport_write. cbn [Z.eqb].
  rewrite H16, H8. change (truthy 0) with false. cbn iota. cbv zeta.
  destruct Hc as [Ec|Ec]; rewrite Ec; cbn [Z.eqb Pos.eqb orb];
    match goal with
    | |- context [set_pics i ?q s] => set (p' := q)
    end;
    (assert (Hp' : wf_pic p' = true) by (subst p'; auto with wf_db));
    destruct (pic_update_irq_set s i p' H Hp') as [s' [Es [_ [Hi _]]]];
    exists s'; (split; [exact Es|]); rewrite Hi; subst p';
    cbn [isr irr imr priority_add set_isr set_priority_add];
    (split; [intros n Hn; rewrite testbit_clear_line by lia;
             rewrite (Z.eqb_sym n); reflexivity|]);
    repeat split.
  apply u8_small. pose proof (land7_range (Z.land val 7 + 1)). lia.
Qed.

(** OCW2 = 0x63: specific EOI of line 3, with lines 1 and 3 in service. *)
Lemma ocw2_specific_eoi_witness :
  exists s',
    pic_ioport_write
      (set_pics Master (set_isr 10 (pics0 (i8259_init 0))) (i8259_init 0))
      Master 0 99 = Ret s'
    /\ Z.testbit (isr (pics s' Master)) 3 = false
    /\ Z.testbit (isr (pics s' Master)) 1 = true.
Proof.
  destruct (ocw2_specific_eoi
              (set_pics Master (set_isr 10 (pics0 (i8259_init 0))) (i8259_init 0))
              Master 99 eq_refl eq_refl eq_refl (or_introl eq_refl))
    as [s' [E [Hb _]]].
  exists s'. split; [exact E|].
  split; [apply (Hb 3) | apply (Hb 1)]; lia.
Defined.

(** ** Acknowledge on a unit *)

(** The registers of the acknowledged unit after [pic_intack]. *)
Lemma pic_intack_unit (s : PicState2) (i : pic_index) (irq : Z) :
  wf s = true -> 0 <= irq ->
  exists s',
    pic_intack s i irq = Ret s'
    /\ wf s' = true
    /\ pics s' i
       = (let p := pics s i in
          let p1 :=
            if truthy (auto_eoi p) then
              if truthy (rotate_on_auto_eoi p)
              then set_priority_add (u8 (Z.land (irq + 1) 7)) p else p
            else set_isr (u8 (Z.lor (isr p) (Z.shiftl 1 irq))) p in
          if Z.testbit (elcr p) irq then p1
          else set_irr (clear_line (irr p) irq) p1).
Proof.
  intros H Hirq. unfold pic_intack. cbv zeta.
  match goal with
  | |- context [set_pics i ?q s] => set (p' := q)
  end.
  assert (Hp' : wf_pic p' = true).
  { subst p'. pose proof (wf_pics s i H) as Hw.
    destruct (truthy (auto_eoi (pics s i)));
      [destruct (truthy (rotate_on_auto_eoi (pics s i)))|];
      match goal with
      | |- context [if ?c then _ else _] => destruct c
      end; auto with wf_db. }
  destruct (pic_update_irq_set s i p' H Hp') as [s' [Es [Hw' [Hi _]]]].
  exists s'. split; [exact Es|]. split; [exact Hw'|].
  rewrite Hi. subst p'.
  destruct (truthy (auto_eoi (pics s i)));
    [destruct (truthy (rotate_on_auto_eoi (pics s i)))|];
    cbn [elcr set_priority_add set_isr];
    rewrite truthy_land_bit by exact Hirq;
    destruct (Z.testbit (elcr (pics s i)) irq); reflexivity.
Qed.

Lemma service_mask_plain (s : PicState2) (i : pic_index) :
  special_mask (pics s i) = 0 ->
  special_fully_nested_mode (pics s i) = 0 \/ i = Slave ->
  service_mask s i = isr (pics s i).
Proof.
  intros Hm Hf. unfold service_mask. cbv zeta. rewrite Hm.
  change (truthy 0) with false. cbn iota.
  destruct Hf as [-> | ->]; [reflexivity|].
  rewrite andb_false_r. reflexivity.
Qed.

(** X6. Acknowledge and non-specific EOI are inverse on [isr]: on a
    well-formed pair, for a unit with [auto_eoi] and [special_mask] clear
    (and, on the master, special fully nested mode clear) whose pending
    line is [irq], [pic_intack] of [irq] followed by the OCW2 write 0x20
    returns with the [isr] and the [priority_add] the unit had before the
    acknowledge: the EOI clears the line just acknowledged. *)
Theorem intack_then_eoi (s : PicState2) (i : pic_index) (irq : Z) :
  wf s = true ->
  auto_eoi (pics s i) = 0 ->
  special_mask (pics s i) = 0 ->
  special_fully_nested_mode (pics s i) = 0 \/ i = Slave ->
  pic_get_irq s i = Ret irq -> 0 <= irq ->
  exists s1 s2,
    pic_intack s i irq = Ret s1
    /\ pic_ioport_write s1 i 0 32 = Ret s2
    /\ Z.testbit (isr (pics s1 i)) irq = true
    /\ isr (pics s2 i) = isr (pics s i)
    /\ priority_add (pics s2 i) = priority_add (pics s i).
Proof.
  intros H Ha Hm Hf E Hirq.
  pose proof (wf_pics s i H) as Hw.
  assert (Hisr : 0 <= isr (pics s i) < 256) by (apply wf_pic_iff in Hw; tauto).
  destruct (pic_get_irq_pending s i irq Hw E Hirq)
    as [pr [pc [Epr [Epc [Hr [Hlt [El [Hb [Himr Hs]]]]]]]]].
  rewrite (service_mask_plain s i Hm Hf) in Epc, Hs.
  assert (Hk : 0 <= irq < 8) by (rewrite El; apply line_at_range).
  destruct (pic_intack_unit s i irq H Hirq) as [s1 [E1 [Hw1 Hp1]]].
  cbv zeta in Hp1. rewrite Ha in Hp1.
  change (truthy 0) with false in Hp1. cbn iota in Hp1.
  set (isr1 := u8 (Z.lor (isr (pics s i)) (Z.shiftl 1 irq))) in *.
  assert (Hisr1 : isr (pics s1 i) = isr1
                  /\ priority_add (pics s1 i) = priority_add (pics s i)).
  { rewrite Hp1. destruct (Z.testbit (elcr (pics s i)) irq); split; reflexivity. }
  destruct Hisr1 as [Hi1 Hadd1].
  assert (Hline : forall q, line_at (pics s1 i) q = line_at (pics s i) q).
  { intros q. unfold line_at. rewrite Hadd1. reflexivity. }
  assert (Eg : get_priority (pics s1 i) (isr (pics s1 i)) = Ret pr).
  { rewrite Hi1. apply get_priority_unique.
    - apply u8_range.
    - exact Hr.
    - rewrite Hline, <- El. unfold isr1.
      rewrite testbit_set_line, Z.eqb_refl by lia. apply orb_true_r.
    - intros q Hq. rewrite Hline. unfold isr1.
      rewrite testbit_set_line by (try apply line_at_range; lia).
      rewrite (get_priority_below _ _ pc q Hisr Epc) by lia.
      cbn [orb]. apply Z.eqb_neq. intros Eq. rewrite El in Eq.
      apply line_at_inj in Eq; lia. }
  assert (Hp2 : wf_pic (set_isr (clear_line isr1 irq) (pics s1 i)) = true).
  { unfold clear_line. apply wf_set_isr, wf_pics, Hw1. }
  destruct (pic_update_irq_set s1 i _ Hw1 Hp2) as [s2 [E2 [_ [Hi2 _]]]].
  exists s1, s2. split; [exact E1|]. split.
  { rewrite (ocw2_eoi_unfold s1 i 32 eq_refl eq_refl (or_introl eq_refl)).
    rewrite Eg. cbn [bind].
    destruct (Z.eqb_spec pr 8) as [E8|_]; [lia|]. cbn [negb]. cbv zeta.
    change (Z.shiftr 32 5 =? 5) with false. cbn iota.
    rewrite Hline, <- El, Hi1. exact E2. }
  split.
  - rewrite Hi1. unfold isr1.
    rewrite testbit_set_line, Z.eqb_refl by lia. apply orb_true_r.
  - rewrite Hi2. cbn [isr priority_add set_isr]. split; [|exact Hadd1].
    unfold isr1. apply clear_set_line; [exact Hisr | exact Hk | exact Hs].
Qed.

(** Scenario 3 of the specification followed by EOI 0x20. *)
Lemma intack_then_eoi_witness :
  exists s1 s2,
    pic_intack (set_pics Master (set_irr 8 (pics0 (i8259_init 1))) (i8259_init 1))
      Master 3 = Ret s1
    /\ pic_ioport_write s1 Master 0 32 = Ret s2
    /\ isr (pics s2 Master) = 0.
Proof.
  destruct (intack_then_eoi
              (set_pics Master (set_irr 8 (pics0 (i8259_init 1))) (i8259_init 1))
              Master 3 eq_refl eq_refl eq_refl (or_introl eq_refl) eq_refl)
    as [s1 [s2 [E1 [E2 [_ [Hi _]]]]]]; [lia|].
  exists s1, s2. split; [exact E1|]. split; [exact E2 | exact Hi].
Defined.

(** The request register across [pic_intack]. *)
Lemma pic_intack_requests (s : PicState2) (i : pic_index) (irq : Z) :
  wf s = true -> 0 <= irq < 8 ->
  exists s',
    pic_intack s i irq = Ret s'
    /\ Z.testbit (irr (pics s' i)) irq
       = Z.testbit (irr (pics s i)) irq && Z.testbit (elcr (pics s i)) irq
    /\ (forall n, 0 <= n -> n <> irq ->
          Z.testbit (irr (pics s' i)) n = Z.testbit (irr (pics s i)) n)
    /\ last_irr (pics s' i) = last_irr (pics s i)
    /\ imr (pics s' i) = imr (pics s i)
    /\ elcr (pics s' i) = elcr (pics s i).
Proof.
  intros H Hirq.
  pose proof (wf_pics s i H) as Hw.
  assert (Hi : 0 <= irr (pics s i) < 256) by (apply wf_pic_iff in Hw; tauto).
  destruct (pic_intack_unit s i irq H) as [s' [E [_ Hp]]]; [lia|].
  exists s'. split; [exact E|]. rewrite Hp. cbv zeta.
  destruct (truthy (auto_eoi (pics s i)));
    [destruct (truthy (rotate_on_auto_eoi (pics s i)))|];
    destruct (Z.testbit (elcr (pics s i)) irq) eqn:Ee;
    cbn [irr last_irr imr elcr set_irr set_isr set_priority_add];
    rewrite ?andb_true_r, ?andb_false_r;
    repeat split; intros;
    rewrite ?testbit_clear_line' by lia;
    try line_bit; reflexivity.
Qed.

(** X7. [pic_intack] and the request register: on a well-formed pair the
    acknowledge of line 0..7 returns; it clears the [irr] bit of an
    edge-triggered line and keeps that of a level-triggered line; the other
    lines of [irr], and [last_irr], [imr] and [elcr], are as before. *)
Theorem pic_intack_irr (s : PicState2) (i : pic_index) (irq : Z) :
  wf s = true -> 0 <= irq < 8 ->
  exists s',
    pic_intack s i irq = Ret s'
    /\ Z.testbit (irr (pics s' i)) irq
       = Z.testbit (irr (pics s i)) irq && Z.testbit (elcr (pics s i)) irq
    /\ (forall n, 0 <= n -> n <> irq ->
          Z.testbit (irr (pics s' i)) n = Z.testbit (irr (pics s i)) n)
    /\ last_irr (pics s' i) = last_irr (pics s i)
    /\ imr (pics s' i) = imr (pics s i)
    /\ elcr (pics s' i) = elcr (pics s i).
Proof. exact (pic_intack_requests s i irq). Qed.

Lemma pic_intack_irr_witness :
  exists s',
    pic_intack cascade_request Slave 2 = Ret s'
    /\ Z.testbit (irr (pics s' Slave)) 2 = false.
Proof.
  destruct (pic_intack_irr cascade_request Slave 2 eq_refl) as [s' [E [Hb _]]];
    [lia|].
  exists s'. split; [exact E | exact Hb].
Defined.

(** X8. Automatic EOI: on a well-formed pair, the acknowledge of a line on
    a unit with [auto_eoi] set returns and leaves [isr] as it is; with
    [rotate_on_auto_eoi] it sets [priority_add] to [(irq + 1) & 7], and
    keeps it otherwise. *)
Theorem pic_intack_auto_eoi (s : PicState2) (i : pic_index) (irq : Z) :
  wf s = true -> 0 <= irq -> auto_eoi (pics s i) <> 0 ->
  exists s',
    pic_intack s i irq = Ret s'
    /\ isr (pics s' i) = isr (pics s i)
    /\ (rotate_on_auto_eoi (pics s i) <> 0 ->
        priority_add (pics s' i) = Z.land (irq + 1) 7)
    /\ (rotate_on_auto_eoi (pics s i) = 0 ->
        priority_add (pics s' i) = priority_add (pics s i)).
Proof.
  intros H Hirq Ha.
  destruct (pic_intack_unit s i irq H Hirq) as [s' [E [_ Hp]]].
  exists s'. split; [exact E|]. rewrite Hp. cbv zeta.
  apply truthy_true in Ha. rewrite Ha.
  destruct (truthy (rotate_on_auto_eoi (pics s i))) eqn:Er;
    destruct (Z.testbit (elcr (pics s i)) irq);
    cbn [isr priority_add set_irr set_priority_add];
    (split; [reflexivity|]); split; intros Hr;
    try reflexivity;
    try (apply truthy_true in Er; contradiction);
    try (apply truthy_true in Hr; congruence);
    apply u8_small; pose proof (land7_range (irq + 1)); lia.
Qed.

Lemma pic_intack_auto_eoi_witness :
  exists s',
    pic_intack
      (set_pics Master
         (set_rotate_on_auto_eoi 1 (set_auto_eoi 1 (set_irr 8 (pics0 (i8259_init 1)))))
         (i8259_init 1)) Master 3 = Ret s'
    /\ isr (pics s' Master) = 0
    /\ priority_add (pics s' Master) = 4.
Proof.
  destruct (pic_intack_auto_eoi
              (set_pics Master
                 (set_rotate_on_auto_eoi 1
                    (set_auto_eoi 1 (set_irr 8 (pics0 (i8259_init 1)))))
                 (i8259_init 1)) Master 3 eq_refl)
    as [s' [E [Hi [Hr _]]]]; [lia | discriminate |].
  exists s'. split; [exact E|]. split; [exact Hi|].
  apply Hr. discriminate.
Defined.

(** X9. An edge-triggered line needs a falling edge to request again: on
    a well-formed pair, for an edge-triggered line 0..7 of a unit, a high
    level, the acknowledge of the line and a second high level leave the
    [irr] bit of the line clear; with a low level between the acknowledge
    and the second high level the [irr] bit is set again. *)
Theorem edge_retrigger (s : PicState2) (i : pic_index) (irq l1 l2 : Z) :
  wf s = true -> 0 <= irq < 8 -> l1 <> 0 -> l2 <> 0 ->
  Z.testbit (elcr (pics s i)) irq = false ->
  exists s1 s2,
    pic_set_irq1 s i irq l1 = Ret s1
    /\ pic_intack s1 i irq = Ret s2
    /\ (exists s3,
          pic_set_irq1 s2 i irq l2 = Ret s3
          /\ Z.testbit (irr (pics s3 i)) irq = false)
    /\ (exists s3 s4,
          pic_set_irq1 s2 i irq 0 = Ret s3
          /\ pic_set_irq1 s3 i irq l2 = Ret s4
          /\ Z.testbit (irr (pics s4 i)) irq = true).
Proof.
  intros H Hirq Hl1 Hl2 He.
  destruct (pic_set_irq1_returns s i irq l1 H) as [s1 [E1 [Hw1 [Hp1 _]]]].
  destruct (pic_set_irq1_regs_bits (pics s i) irq l1 (wf_pics s i H) Hirq)
    as [_ [Hedge1 _]].
  destruct (Hedge1 He Hl1) as [_ Hlast1]. rewrite <- Hp1 in Hlast1.
  assert (He1 : Z.testbit (elcr (pics s1 i)) irq = false).
  { rewrite Hp1, pic_set_irq1_regs_frame. exact He. }
  destruct (pic_intack_requests s1 i irq Hw1 Hirq)
    as [s2' [E2' [Hb2 [_ [Hlast2 [_ Helcr2]]]]]].
  destruct (pic_intack_unit s1 i irq Hw1) as [s2 [E2 [Hw2 _]]]; [lia|].
  rewrite E2 in E2'. injection E2' as <-.
  rewrite He1, andb_false_r in Hb2.
  rewrite <- Hlast2 in Hlast1. rewrite <- Helcr2 in He1.
  exists s1, s2. split; [exact E1|]. split; [exact E2|]. split.
  - destruct (pic_set_irq1_returns s2 i irq l2 Hw2) as [s3 [E3 [_ [Hp3 _]]]].
    destruct (pic_set_irq1_regs_bits (pics s2 i) irq l2 (wf_pics s2 i Hw2) Hirq)
      as [_ [Hedge3 _]].
    destruct (Hedge3 He1 Hl2) as [Hirr3 _].
    exists s3. split; [exact E3|].
    rewrite Hp3, Hirr3, Hb2, Hlast1. reflexivity.
  - destruct (pic_set_irq1_returns s2 i irq 0 Hw2) as [s3 [E3 [Hw3 [Hp3 _]]]].
    destruct (pic_set_irq1_regs_bits (pics s2 i) irq 0 (wf_pics s2 i Hw2) Hirq)
      as [_ [_ [Hfall _]]].
    destruct (Hfall He1 eq_refl) as [Hlast3 _]. rewrite <- Hp3 in Hlast3.
    assert (He3 : Z.testbit (elcr (pics s3 i)) irq = false).
    { rewrite Hp3, pic_set_irq1_regs_frame. exact He1. }
    destruct (pic_set_irq1_returns s3 i irq l2 Hw3) as [s4 [E4 [_ [Hp4 _]]]].
    destruct (pic_set_irq1_regs_bits (pics s3 i) irq l2 (wf_pics s3 i Hw3) Hirq)
      as [_ [Hedge4 _]].
    destruct (Hedge4 He3 Hl2) as [Hirr4 _].
    exists s3, s4. split; [exact E3|]. split; [exact E4|].
    rewrite Hp4, Hirr4, Hlast3. apply orb_true_r.
Qed.

Lemma edge_retrigger_witness :
  exists s1 s2 s3,
    pic_set_irq1 (i8259_init 0) Master 3 1 = Ret s1
    /\ pic_intack s1 Master 3 = Ret s2
    /\ pic_set_irq1 s2 Master 3 1 = Ret s3
    /\ Z.testbit (irr (pics s3 Master)) 3 = false.
Proof.
  destruct (edge_retrigger (i8259_init 0) Master 3 1 1 eq_refl)
    as [s1 [s2 [E1 [E2 [[s3 [E3 Hb]] _]]]]];
    [lia | discriminate | discriminate | reflexivity |].
  exists s1, s2, s3. repeat split; assumption.
Defined.

(** ** Polled and memory-mapped acknowledge *)

Lemma wf_poll_cleared (s : PicState2) (i : pic_index) (r : Z) :
  wf s = true -> wf (poll_cleared s i r) = true.
Proof.
  intros H.
  pose proof (wf_pics s Master H) as H0.
  pose proof (wf_pics s Slave H) as H1. cbn [pics] in H0, H1.
  unfold poll_cleared, clear_line.
  destruct i; cbn [pics set_pics pics0 pics1];
    apply wf_iff; cbn [pics0 pics1]; split; auto with wf_db.
Qed.

(** What [pic_poll_read] returns and keeps. *)
Lemma pic_poll_read_returns (s : PicState2) (i : pic_index) :
  wf s = true ->
  exists ret s',
    pic_poll_read s i = Ret (ret, s')
    /\ wf s' = true
    /\ 0 <= ret < 8
    /\ (pic_get_irq s i = Ret ret \/ (pic_get_irq s i = Ret (-1) /\ ret = 7))
    /\ poll (pics s' i) = poll (pics s i).
Proof.
  intros H.
  destruct (pic_poll_read_paths s i H) as [r [E [Hnone [Hupd Hcas]]]].
  destruct (pic_get_irq_returns s i (wf_pics s i H)) as [r' [E' Hr]].
  rewrite E in E'. injection E' as <-.
  assert (Hpc : poll (pics (poll_cleared s i r) i) = poll (pics s i)).
  { unfold poll_cleared. destruct i; reflexivity. }
  destruct Hr as [->|Hr].
  - exists 7, s. split; [apply Hnone; lia|]. split; [exact H|].
    split; [lia|]. split; [right; split; [exact E | reflexivity] | reflexivity].
  - assert (Hex : (i = Slave \/ r <> 2) \/ (i = Master /\ r = 2)).
    { destruct i; [|left; left; reflexivity].
      destruct (Z.eq_dec r 2); [right; split; [reflexivity|assumption]|].
      left; right; assumption. }
    destruct Hex as [Hex|[Hi Hr2]].
    + destruct (Hupd ltac:(lia) Hex) as [s2 [E2 [Hw2 R]]].
      destruct (pic_update_irq_keeps _ i (wf_poll_cleared s i r H))
        as [s2' [E2' [_ [Hk _]]]].
      rewrite E2 in E2'. injection E2' as <-.
      exists r, s2. split; [exact R|]. split; [exact Hw2|].
      split; [exact Hr|]. split; [left; exact E|].
      rewrite Hk. exact Hpc.
    + exists r, (poll_cleared s i r). subst r.
      split; [apply Hcas; [lia | exact Hi | reflexivity]|].
      split; [apply wf_poll_cleared, H|].
      split; [lia|]. split; [left; exact E | exact Hpc].
Qed.

(** X10. [pic_intack_read] on a well-formed pair returns the master's
    polled line [r0] (its pending line, or 7 when it has none) when [r0] is
    not the cascade line 2, and 8 plus the polled line of the slave, polled
    after the master, when [r0] is 2; the pair it leaves is the pair after
    these polled acknowledges with [read_reg_select] of the master set to
    1.  So the value is a line number 0..15 that is never 2, and at least
    8 when the master's pending line is 2. *)
Theorem pic_intack_read_range (s : PicState2) :
  wf s = true ->
  exists r0 s1,
    pic_poll_read s Master = Ret (r0, s1)
    /\ 0 <= r0 < 8
    /\ (pic_get_irq s Master = Ret r0
        \/ (pic_get_irq s Master = Ret (-1) /\ r0 = 7))
    /\ (r0 <> 2 ->
        pic_intack_read s
        = Ret (r0, set_pics Master (set_read_reg_select 1 (pics0 s1)) s1))
    /\ (r0 = 2 ->
        exists r2 s2,
          pic_poll_read s1 Slave = Ret (r2, s2)
          /\ 0 <= r2 < 8
          /\ (pic_get_irq s1 Slave = Ret r2
              \/ (pic_get_irq s1 Slave = Ret (-1) /\ r2 = 7))
          /\ pic_intack_read s
             = Ret (r2 + 8,
                    set_pics Master (set_read_reg_select 1 (pics0 s2)) s2))
    /\ exists ret s',
         pic_intack_read s = Ret (ret, s')
         /\ 0 <= ret < 16 /\ ret <> 2
         /\ (pic_get_irq s Master = Ret 2 -> 8 <= ret)
         /\ read_reg_select (pics0 s') = 1.
Proof.
  intros H. unfold pic_intack_read.
  destruct (pic_poll_read_returns s Master H)
    as [r0 [s1 [E [Hw1 [Hr [Hsel _]]]]]].
  exists r0, s1. split; [exact E|]. split; [exact Hr|]. split; [exact Hsel|].
  rewrite E. cbn [bind].
  destruct (Z.eqb_spec r0 2) as [->|Hne].
  - destruct (pic_poll_read_returns s1 Slave Hw1)
      as [r2 [s2 [E2 [_ [Hr2 [Hsel2 _]]]]]].
    rewrite E2. cbn [bind].
    split; [intros Hc; contradiction|]. split.
    + intros _. exists r2, s2. split; [reflexivity|].
      split; [exact Hr2|]. split; [exact Hsel2 | reflexivity].
    + eexists. eexists. split; [reflexivity|].
      split; [lia|]. split; [lia|]. split; [intros; lia | reflexivity].
  - cbn [bind]. split; [intros _; reflexivity|].
    split; [intros Hc; contradiction|].
    eexists. eexists. split; [reflexivity|].
    split; [lia|]. split; [exact Hne|]. split; [|reflexivity].
    intros E2. destruct Hsel as [Es|[Es _]]; rewrite E2 in Es;
      injection Es as Es; lia.
Qed.

(** The cascade path of the memory-mapped acknowledge on the pair of
    scenario 4: the master polls line 2, the slave line 2, the value is
    10. *)
Lemma pic_intack_read_range_witness :
  wf cascade_request = true
  /\ exists s', pic_intack_read cascade_request = Ret (10, s').
Proof.
  split; [reflexivity|].
  destruct (pic_intack_read_range cascade_request eq_refl)
    as [r0 [s1 [E0 [_ [_ [_ [Hcas _]]]]]]].
  vm_compute in E0. injection E0 as E0 E1. subst r0 s1.
  destruct (Hcas eq_refl) as [r2 [s2 [E2 [_ [_ R]]]]].
  vm_compute in E2. injection E2 as E2 E3. subst r2 s2.
  eexists. exact R.
Defined.

(** X11. The poll flag is one-shot: on a well-formed pair every read of a
    unit's ports returns and leaves the unit's poll flag at 0, and a read
    that finds it at 0 changes nothing. *)
Theorem pic_ioport_read_poll_once (s : PicState2) (i : pic_index) (addr : Z) :
  wf s = true ->
  exists ret s',
    pic_ioport_read s i addr = Ret (ret, s')
    /\ poll (pics s' i) = 0
    /\ (poll (pics s i) = 0 -> s' = s).
Proof.
  intros H. unfold pic_ioport_read. cbv zeta.
  destruct (truthy (poll (pics s i))) eqn:Ep.
  - destruct (pic_poll_read_returns s i H) as [ret [s1 [E _]]].
    rewrite E. cbn [bind].
    eexists. eexists. split; [reflexivity|].
    split; [rewrite pics_set_pics_same; reflexivity|].
    intros E0. apply truthy_true in Ep. contradiction.
  - apply truthy_false in Ep.
    destruct (addr =? 0); [destruct (truthy (read_reg_select (pics s i)))|];
      eexists; eexists; (split; [reflexivity|]); split; auto.
Qed.

Lemma pic_ioport_read_poll_once_witness :
  exists ret s',
    pic_ioport_read cascade_request_polled Master 0 = Ret (ret, s')
    /\ poll (pics s' Master) = 0.
Proof.
  destruct (pic_ioport_read_poll_once cascade_request_polled Master 0 eq_refl)
    as [ret [s' [E [Hp _]]]].
  exists ret, s'. split; [exact E | exact Hp].
Defined.

(** ** Register reads and writes *)

Lemma land1_range (x : Z) : 0 <= Z.land x 1 < 2.
Proof.
  change (Z.land x 1) with (Z.land x (Z.ones 1)).
  rewrite Z.land_ones by lia. change (2 ^ 1) with 2.
  apply Z.mod_pos_bound. reflexivity.
Qed.

(** X12. Register selection by OCW3: on a unit with the poll flag clear, a
    write to offset 0 with bit 4 clear, bit 3 set, bit 2 clear and bit 1
    set returns, and the next read from offset 0 returns [isr] when bit 0
    of the value is set and [irr] when it is clear; none of the two
    registers is changed by the write or the read. *)
Theorem ocw3_read_select (s : PicState2) (i : pic_index) (val : Z) :
  poll (pics s i) = 0 ->
  Z.land val 16 = 0 -> Z.land val 8 <> 0 ->
  Z.land val 4 = 0 -> Z.land val 2 <> 0 ->
  exists s',
    pic_ioport_write s i 0 val = Ret s'
    /\ irr (pics s' i) = irr (pics s i)
    /\ isr (pics s' i) = isr (pics s i)
    /\ pic_ioport_read s' i 0
       = Ret (if Z.land val 1 =? 0 then irr (pics s i) else isr (pics s i), s').
Proof.
  intros Hp H16 H8 H4 H2.
  unfold pic_ioport_write. cbn [Z.eqb].
  apply truthy_true in H8, H2.
  rewrite H16, H8, H4, H2. change (truthy 0) with false. cbn iota. cbv zeta.
  rewrite (u8_small (Z.land val 1)) by (pose proof (land1_range val); lia).
  match goal with
  | |- context [set_pics i ?q s] => set (p' := q)
  end.
  exists (set_pics i p' s). split; [reflexivity|].
  rewrite pics_set_pics_same.
  assert (Hf : irr p' = irr (pics s i) /\ isr p' = isr (pics s i)
               /\ poll p' = 0 /\ read_reg_select p' = Z.land val 1).
  { subst p'. destruct (truthy (Z.land val 64)); cbn; auto. }
  destruct Hf as [Hi [Hs [Hpl Hsel]]].
  split; [exact Hi|]. split; [exact Hs|].
  unfold pic_ioport_read. cbv zeta. rewrite pics_set_pics_same.
  rewrite Hpl, Hsel, Hi, Hs. change (truthy 0) with false. cbn iota.
  cbn [Z.eqb]. unfold truthy.
  destruct (Z.land val 1 =? 0); reflexivity.
Qed.

(** OCW3 = 0x0B selects [isr]. *)
Lemma ocw3_read_select_witness :
  exists s',
    pic_ioport_write
      (set_pics Master (set_isr 8 (pics0 (i8259_init 0))) (i8259_init 0))
      Master 0 11 = Ret s'
    /\ pic_ioport_read s' Master 0 = Ret (8, s').
Proof.
  destruct (ocw3_read_select
              (set_pics Master (set_isr 8 (pics0 (i8259_init 0))) (i8259_init 0))
              Master 11 eq_refl eq_refl)
    as [s' [E [_ [_ R]]]]; [discriminate | reflexivity | discriminate |].
  exists s'. split; [exact E | exact R].
Defined.

(** X13. The mask register through port 1: on a well-formed pair, with
    the unit in normal mode ([init_state] 0) a write to offset 1 stores the
    low eight bits of the value in [imr], and with the poll flag clear the
    next read from offset 1 returns them; while an initialisation is in
    progress ([init_state] not 0) a write to offset 1 returns and leaves
    [imr], [irr] and [isr] as they are. *)
Theorem ocw1_imr (s : PicState2) (i : pic_index) (addr val : Z) :
  wf s = true -> addr <> 0 ->
  (init_state (pics s i) = 0 ->
   exists s',
     pic_ioport_write s i addr val = Ret s'
     /\ imr (pics s' i) = val mod 256
     /\ (poll (pics s i) = 0 ->
         pic_ioport_read s' i addr = Ret (val mod 256, s')))
  /\ (init_state (pics s i) <> 0 ->
      exists s',
        pic_ioport_write s i addr val = Ret s'
        /\ imr (pics s' i) = imr (pics s i)
        /\ irr (pics s' i) = irr (pics s i)
        /\ isr (pics s' i) = isr (pics s i)).
Proof.
  intros H Ha. unfold pic_ioport_write. cbv zeta.
  destruct (Z.eqb_spec addr 0) as [|_]; [contradiction|]. split.
  - intros ->. cbn [Z.eqb].
    destruct (pic_update_irq_set s i (set_imr (u8 val) (pics s i)) H)
      as [s' [E [_ [Hi _]]]].
    { apply wf_set_imr, wf_pics, H. }
    exists s'. split; [exact E|]. rewrite Hi.
    split; [reflexivity|]. intros Hp.
    unfold pic_ioport_read. cbv zeta. rewrite Hi.
    cbn [poll imr set_imr]. rewrite Hp. change (truthy 0) with false.
    cbn iota. destruct (Z.eqb_spec addr 0) as [|_]; [contradiction|].
    reflexivity.
  - intros Hne. destruct (Z.eqb_spec (init_state (pics s i)) 0); [contradiction|].
    destruct (init_state (pics s i) =? 1);
      [|destruct (init_state (pics s i) =? 2);
        [|destruct (init_state (pics s i) =? 3)]];
      eexists; (split; [reflexivity|]);
      rewrite ?pics_set_pics_same; repeat split.
Qed.

Lemma ocw1_imr_witness :
  exists s',
    pic_ioport_write (i8259_init 0) Master 1 511 = Ret s'
    /\ pic_ioport_read s' Master 1 = Ret (255, s').
Proof.
  destruct (ocw1_imr (i8259_init 0) Master 1 511 eq_refl) as [Hnormal _];
    [discriminate|].
  destruct (Hnormal eq_refl) as [s' [E [_ R]]].
  exists s'. split; [exact E | exact (R eq_refl)].
Defined.

(** X14. The ELCR port: a write stores [val & elcr_mask], which the read
    returns; [elcr_mask] and every other register of the pair are as
    before.  No bit outside [elcr_mask] is ever set by a write. *)
Theorem elcr_write_read (s : PicState2) (i : pic_index) (val : Z) :
  wf s = true ->
  elcr_ioport_read (elcr_ioport_write s i val) i
  = Z.land val (elcr_mask (pics s i))
  /\ Z.land (elcr_ioport_read (elcr_ioport_write s i val) i)
       (Z.lnot (elcr_mask (pics s i))) = 0
  /\ elcr_ioport_write s i val
     = set_pics i (set_elcr (Z.land val (elcr_mask (pics s i))) (pics s i)) s.
Proof.
  intros H.
  assert (Hm : 0 <= elcr_mask (pics s i) < 256).
  { pose proof (wf_pics s i H) as Hw. apply wf_pic_iff in Hw. tauto. }
  assert (Hr : 0 <= Z.land val (elcr_mask (pics s i)) < 256).
  { rewrite Z.land_comm. apply land_byte_l, Hm. }
  unfold elcr_ioport_read, elcr_ioport_write. cbv zeta.
  rewrite pics_set_pics_same. cbn [elcr set_elcr].
  rewrite (u8_small _ Hr). split; [reflexivity|]. split; [|reflexivity].
  rewrite <- Z.land_assoc, Z.land_lnot_diag. apply Z.land_0_r.
Qed.

(** Writing 0xFF to the master's ELCR port reads back 0xF8. *)
Lemma elcr_write_read_witness :
  elcr_ioport_read (elcr_ioport_write (i8259_init 0) Master 255) Master = 248.
Proof.
  destruct (elcr_write_read (i8259_init 0) Master 255 eq_refl) as [E _].
  exact E.
Defined.

(** ** Initialisation *)

(** The data port in the three initialisation states. *)
Lemma write_icw2 (s : PicState2) (i : pic_index) (addr val : Z) :
  addr <> 0 -> init_state (pics s i) = 1 ->
  pic_ioport_write s i addr val
  = Ret (set_pics i
           (set_init_state
              (if truthy (single_mode (pics s i))
               then (if truthy (init4 (pics s i)) then 3 else 0) else 2)
              (set_irq_base (u8 (Z.land val 248)) (pics s i))) s).
Proof.
  intros Ha Hs. unfold pic_ioport_write. cbv zeta.
  destruct (Z.eqb_spec addr 0); [contradiction|]. rewrite Hs. reflexivity.
Qed.

Lemma write_icw3 (s : PicState2) (i : pic_index) (addr val : Z) :
  addr <> 0 -> init_state (pics s i) = 2 ->
  pic_ioport_write s i addr val
  = Ret (set_pics i
           (set_init_state (if truthy (init4 (pics s i)) then 3 else 0)
              (pics s i)) s).
Proof.
  intros Ha Hs. unfold pic_ioport_write. cbv zeta.
  destruct (Z.eqb_spec addr 0); [contradiction|]. rewrite Hs. reflexivity.
Qed.

Lemma write_icw4 (s : PicState2) (i : pic_index) (addr val : Z) :
  addr <> 0 -> init_state (pics s i) = 3 ->
  pic_ioport_write s i addr val
  = Ret (set_pics i
           (set_init_state 0
              (set_auto_eoi (u8 (Z.land (Z.shiftr val 1) 1))
                 (set_special_fully_nested_mode
                    (u8 (Z.land (Z.shiftr val 4) 1)) (pics s i)))) s).
Proof.
  intros Ha Hs. unfold pic_ioport_write. cbv zeta.
  destruct (Z.eqb_spec addr 0); [contradiction|]. rewrite Hs. reflexivity.
Qed.

(** ICW1 without the level-sensitive bit. *)
Lemma write_icw1 (s : PicState2) (i : pic_index) (val : Z) :
  wf s = true -> Z.land val 16 <> 0 -> Z.land val 8 = 0 ->
  exists s1,
    pic_ioport_write s i 0 val = Ret s1
    /\ wf s1 = true
    /\ pics s1 i
       = mkPicState 0 0 0 0 0 0 0 0 0 1 0 0 0
           (Z.land val 1) (Z.land val 2)
           (elcr (pics s i)) (elcr_mask (pics s i)).
Proof.
  intros H H16 H8.
  destruct (pic_init_reset_returns s i H) as [s0 [E [Hw0 [Hi _]]]].
  unfold pic_ioport_write. cbn [Z.eqb].
  apply truthy_true in H16. rewrite H16, E. cbn [bind].
  rewrite H8. change (truthy 0) with false. cbn iota.
  eexists. split; [reflexivity|].
  assert (H1 : 0 <= Z.land val 1 < 256) by (pose proof (land1_range val); lia).
  assert (H2 : 0 <= Z.land val 2 < 256)
    by (rewrite Z.land_comm; apply land_byte_l; lia).
  split.
  - apply wf_set_pics; [exact Hw0|].
    pose proof (wf_pics s0 i Hw0). auto 10 with wf_db.
  - rewrite pics_set_pics_same, Hi, (u8_small _ H1), (u8_small _ H2).
    reflexivity.
Qed.

(** X15. The four-byte initialisation: on a well-formed pair, for every
    ICW1 with bit 4 set, bit 3 clear, bit 1 clear (cascade) and bit 0 set
    (ICW4 needed) and every ICW2, ICW3 and ICW4, the write of ICW1 to
    offset 0 followed by the writes of ICW2, ICW3 and ICW4 to offset 1
    returns with the unit in normal mode: [irq_base] is [ICW2 & 0xf8],
    [auto_eoi] is bit 1 and [special_fully_nested_mode] bit 4 of ICW4,
    [init4] is 1, [elcr] and [elcr_mask] are as before and every other
    register is 0. *)
Theorem icw_sequence (s : PicState2) (i : pic_index) (v1 v2 v3 v4 : Z) :
  wf s = true ->
  Z.land v1 16 <> 0 -> Z.land v1 8 = 0 ->
  Z.land v1 2 = 0 -> Z.land v1 1 <> 0 ->
  exists s',
    run_all [ OpPortWrite i 0 v1; OpPortWrite i 1 v2;
              OpPortWrite i 1 v3; OpPortWrite i 1 v4 ] s = Ret s'
    /\ pics s' i
       = mkPicState 0 0 0 0 0 (Z.land v2 248) 0 0 0 0
           (Z.land (Z.shiftr v4 1) 1) 0 (Z.land (Z.shiftr v4 4) 1) 1 0
           (elcr (pics s i)) (elcr_mask (pics s i)).
Proof.
  intros H H16 H8 H2 H1.
  assert (E1 : Z.land v1 1 = 1) by (pose proof (land1_range v1); lia).
  destruct (write_icw1 s i v1 H H16 H8) as [sa [Ea [_ Hpa]]].
  rewrite H2, E1 in Hpa.
  cbn [run_all run]. rewrite Ea. cbn [bind].
  rewrite (write_icw2 sa i 1 v2) by (try discriminate; rewrite Hpa; reflexivity).
  cbn [bind]. rewrite Hpa.
  match goal with
  | |- context [bind (pic_ioport_write ?x i 1 v3)] => set (sb := x)
  end.
  assert (Hpb : pics sb i
                = mkPicState 0 0 0 0 0 (u8 (Z.land v2 248)) 0 0 0 2 0 0 0 1 0
                    (elcr (pics s i)) (elcr_mask (pics s i))).
  { subst sb. rewrite pics_set_pics_same. reflexivity. }
  rewrite (write_icw3 sb i 1 v3) by (try discriminate; rewrite Hpb; reflexivity).
  cbn [bind]. rewrite Hpb.
  match goal with
  | |- context [bind (pic_ioport_write ?x i 1 v4)] => set (sc := x)
  end.
  assert (Hpc : pics sc i
                = mkPicState 0 0 0 0 0 (u8 (Z.land v2 248)) 0 0 0 3 0 0 0 1 0
                    (elcr (pics s i)) (elcr_mask (pics s i))).
  { subst sc. rewrite pics_set_pics_same. reflexivity. }
  rewrite (write_icw4 sc i 1 v4) by (try discriminate; rewrite Hpc; reflexivity).
  cbn [bind]. rewrite Hpc.
  eexists. split; [reflexivity|].
  rewrite pics_set_pics_same.
  rewrite (u8_small (Z.land v2 248))
    by (rewrite Z.land_comm; apply land_byte_l; lia).
  rewrite (u8_small (Z.land (Z.shiftr v4 1) 1))
    by (pose proof (land1_range (Z.shiftr v4 1)); lia).
  rewrite (u8_small (Z.land (Z.shiftr v4 4) 1))
    by (pose proof (land1_range (Z.shiftr v4 4)); lia).
  reflexivity.
Qed.

(** Scenario 1 of the specification. *)
Lemma icw_sequence_witness :
  exists s',
    run_all [ OpPortWrite Master 0 17; OpPortWrite Master 1 32;
              OpPortWrite Master 1 4; OpPortWrite Master 1 1 ] (i8259_init 0)
    = Ret s'
    /\ irq_base (pics s' Master) = 32
    /\ init_state (pics s' Master) = 0.
Proof.
  destruct (icw_sequence (i8259_init 0) Master 17 32 4 1 eq_refl)
    as [s' [E Hp]]; [discriminate | reflexivity | reflexivity | discriminate |].
  exists s'. split; [exact E|]. rewrite Hp. split; reflexivity.
Defined.

(** ** The cascade *)

Lemma pic_get_irq_no_request (s : PicState2) (i : pic_index) :
  irr (pics s i) = 0 -> pic_get_irq s i = Ret (-1).
Proof.
  intros E. unfold pic_get_irq. rewrite E, Z.land_0_l. reflexivity.
Qed.

Lemma pic_get_irq_some (s : PicState2) (i : pic_index) (n : Z) :
  wf_pic (pics s i) = true -> service_mask s i = 0 -> 0 <= n ->
  Z.testbit (irr (pics s i)) n = true ->
  Z.testbit (imr (pics s i)) n = false ->
  exists irq, pic_get_irq s i = Ret irq /\ 0 <= irq < 8.
Proof.
  intros H Es Hn Hb Hm.
  destruct (pic_get_irq_char s i H) as [pr [pc [Epr [Epc [Hr [Hc E]]]]]].
  rewrite Es, get_priority_empty in Epc. injection Epc as <-.
  assert (Hreq : 0 <= Z.land (irr (pics s i)) (Z.lnot (imr (pics s i))) < 256).
  { apply land_byte_l. apply wf_pic_iff in H. tauto. }
  destruct (get_priority_byte (pics s i) _ Hreq) as [pr' [Epr' Hpr']].
  rewrite Epr in Epr'. injection Epr' as <-.
  destruct Hpr' as [[E0 _]|[_ [Hr' _]]].
  - exfalso.
    assert (Hbit : Z.testbit (Z.land (irr (pics s i)) (Z.lnot (imr (pics s i)))) n
                   = true)
      by (rewrite Z.land_spec, Z.lnot_spec, Hb, Hm by exact Hn; reflexivity).
    rewrite E0, Z.bits_0 in Hbit. discriminate Hbit.
  - destruct (Z.ltb_spec pr 8); [|lia]. cbn [andb] in E.
    exists (line_at (pics s i) pr). split; [exact E | apply line_at_range].
Qed.

(** [pic_update_irq] on the slave, step by step: line 2 of the master is
    driven with the slave's output, then the processor wire with the
    master's. *)
Lemma pic_update_irq_slave_master (s : PicState2) :
  wf s = true ->
  exists irq irq0,
    pic_get_irq s Slave = Ret irq
    /\ pic_get_irq
         (set_pics Master
            (pic_set_irq1_regs (pics0 s) 2 (if irq >=? 0 then 1 else 0)) s)
         Master = Ret irq0
    /\ pic_update_irq s Slave
       = Ret (set_parent_irq (if irq0 >=? 0 then 1 else 0)
                (set_pics Master
                   (pic_set_irq1_regs (pics0 s) 2 (if irq >=? 0 then 1 else 0))
                   s)).
Proof.
  intros H.
  destruct (pic_get_irq_returns s Slave (wf_pics s Slave H)) as [irq [E _]].
  set (m := pic_set_irq1_regs (pics0 s) 2 (if irq >=? 0 then 1 else 0)).
  destruct (pic_get_irq_returns (set_pics Master m s) Master) as [irq0 [E0 _]].
  { cbn [pics set_pics pics0]. apply wf_pic_set_irq1_regs, (wf_pics s Master H). }
  exists irq, irq0. split; [exact E|]. split; [exact E0|].
  rewrite pic_update_irq_slave, E. cbn [bind].
  rewrite pic_set_irq1_eq, pic_update_irq_master. cbn [pics]. fold m.
  rewrite E0. reflexivity.
Qed.

Lemma pic_of_line_master (irq : Z) :
  0 <= irq < 8 -> pic_of_line irq = Master /\ Z.land irq 7 = irq.
Proof.
  intros H. unfold pic_of_line.
  rewrite Z.shiftr_div_pow2, land7_mod by lia. change (2 ^ 3) with 8.
  rewrite Z.div_small, Z.mod_small by lia. split; reflexivity.
Qed.

Lemma pic_of_line_slave (irq : Z) :
  8 <= irq < 16 -> pic_of_line irq = Slave /\ Z.land irq 7 = irq - 8.
Proof.
  intros H. unfold pic_of_line.
  rewrite Z.shiftr_div_pow2, land7_mod by lia. change (2 ^ 3) with 8.
  replace irq with ((irq - 8) + 1 * 8) at 1 2 by lia.
  rewrite Z.div_add, Z.mod_add, Z.div_small, Z.mod_small by lia.
  split; reflexivity.
Qed.

(** X16. Routing of the sixteen lines: on a well-formed pair a line input
    0..7 is the line input of that line on the master and leaves the slave
    as it is; a line input 8..15 is the line input of line [irq - 8] on the
    slave, and changes the master only as a line input on its line 2
    does. *)
Theorem i8259_set_irq_routing (s : PicState2) (irq level : Z) :
  wf s = true -> 0 <= irq < 16 ->
  exists s',
    i8259_set_irq s irq level = Ret s'
    /\ (irq < 8 ->
        pics0 s' = pic_set_irq1_regs (pics0 s) irq level
        /\ pics1 s' = pics1 s)
    /\ (8 <= irq ->
        pics1 s' = pic_set_irq1_regs (pics1 s) (irq - 8) level
        /\ exists l, pics0 s' = pic_set_irq1_regs (pics0 s) 2 l).
Proof.
  intros H Hirq. unfold i8259_set_irq.
  destruct (Z.lt_ge_cases irq 8) as [Hlt|Hge].
  - destruct (pic_of_line_master irq) as [-> ->]; [lia|].
    destruct (pic_set_irq1_returns s Master irq level H)
      as [s' [E [_ [Hp [H1 _]]]]].
    exists s'. split; [exact E|]. split; [|intros; lia].
    intros _. split; [exact Hp | apply H1; reflexivity].
  - destruct (pic_of_line_slave irq) as [-> ->]; [lia|].
    rewrite pic_set_irq1_eq.
    set (r := pic_set_irq1_regs (pics s Slave) (irq - 8) level).
    destruct (pic_update_irq_slave_master (set_pics Slave r s))
      as [q [q0 [_ [_ E]]]].
    { apply wf_set_pics; [exact H|].
      apply wf_pic_set_irq1_regs, (wf_pics s Slave H). }
    rewrite E. eexists. split; [reflexivity|]. split; [intros; lia|].
    intros _. split; [reflexivity|]. eexists. reflexivity.
Qed.

Lemma i8259_set_irq_routing_witness :
  exists s',
    i8259_set_irq (i8259_init 0) 10 1 = Ret s'
    /\ pics1 s' = pic_set_irq1_regs (pics1 (i8259_init 0)) 2 1.
Proof.
  destruct (i8259_set_irq_routing (i8259_init 0) 10 1 eq_refl)
    as [s' [E [_ Hs]]]; [lia|].
  destruct Hs as [Hp _]; [lia|].
  exists s'. split; [exact E | exact Hp].
Defined.

Lemma service_mask_set_irq1_regs (s : PicState2) (i : pic_index) (irq level : Z) :
  service_mask (set_pics i (pic_set_irq1_regs (pics s i) irq level) s) i
  = service_mask s i.
Proof.
  unfold service_mask. rewrite pics_set_pics_same, pic_set_irq1_regs_frame.
  reflexivity.
Qed.

(** X17. A request on the slave reaches the processor through line 2 of
    the master: on a well-formed pair, a high level on line [8 + k] whose
    slave line is unmasked and can request (level-triggered, or
    edge-triggered with its [last_irr] bit clear), with nothing in the
    slave's service mask and the master's line 2 edge-triggered with its
    [last_irr] bit clear, returns with [irr] bit [k] of the slave and [irr]
    bit 2 of the master set; and when the master's line 2 is unmasked and
    nothing is in the master's service mask, with the processor wire
    raised. *)
Theorem slave_request_cascades (s : PicState2) (k level : Z) :
  wf s = true -> 0 <= k < 8 -> level <> 0 ->
  Z.testbit (imr (pics1 s)) k = false ->
  service_mask s Slave = 0 ->
  Z.testbit (elcr (pics1 s)) k = true
  \/ Z.testbit (last_irr (pics1 s)) k = false ->
  Z.testbit (elcr (pics0 s)) 2 = false ->
  Z.testbit (last_irr (pics0 s)) 2 = false ->
  exists s',
    i8259_set_irq s (8 + k) level = Ret s'
    /\ Z.testbit (irr (pics1 s')) k = true
    /\ Z.testbit (irr (pics0 s')) 2 = true
    /\ (Z.testbit (imr (pics0 s)) 2 = false -> service_mask s Master = 0 ->
        parent_irq s' = 1).
Proof.
  intros H Hk Hl Hm Hs Hcan He0 Hl0.
  pose proof (wf_pics s Master H) as Hw0.
  pose proof (wf_pics s Slave H) as Hw1. cbn [pics] in Hw0, Hw1.
  unfold i8259_set_irq.
  destruct (pic_of_line_slave (8 + k)) as [-> ->]; [lia|].
  replace (8 + k - 8) with k by lia.
  rewrite pic_set_irq1_eq. cbn [pics].
  set (r := pic_set_irq1_regs (pics1 s) k level).
  assert (Hr : wf_pic r = true) by apply wf_pic_set_irq1_regs, Hw1.
  assert (Hrb : Z.testbit (irr r) k = true).
  { destruct (pic_set_irq1_regs_bits (pics1 s) k level Hw1 Hk)
      as [Hlev [Hedge _]]. fold r in Hlev, Hedge.
    destruct (Z.testbit (elcr (pics1 s)) k) eqn:Ee.
    - destruct (Hlev eq_refl) as [-> _]. apply truthy_true, Hl.
    - destruct Hcan as [Hc|Hc]; [discriminate Hc|].
      destruct (Hedge eq_refl Hl) as [-> _]. rewrite Hc. apply orb_true_r. }
  set (s1 := set_pics Slave r s).
  assert (Hw : wf s1 = true) by (apply wf_set_pics; assumption).
  destruct (pic_update_irq_slave_master s1 Hw) as [q [q0 [Eq [Eq0 E]]]].
  destruct (pic_get_irq_some s1 Slave k) as [q' [Eq' Hq']].
  { exact Hr. }
  { unfold s1, r. rewrite (service_mask_set_irq1_regs s Slave). exact Hs. }
  { lia. }
  { exact Hrb. }
  { unfold s1, r. cbn [pics set_pics pics1].
    rewrite pic_set_irq1_regs_frame. exact Hm. }
  rewrite Eq in Eq'. injection Eq' as <-.
  destruct (Z.geb_spec q 0) as [_|]; [|lia].
  rewrite E. unfold s1 in Eq0 |- *.
  cbn [set_pics pics0 pics1 parent_irq] in Eq0 |- *.
  set (m := pic_set_irq1_regs (pics0 s) 2 1) in *.
  assert (Hmb : Z.testbit (irr m) 2 = true).
  { destruct (pic_set_irq1_regs_bits (pics0 s) 2 1 Hw0 ltac:(lia))
      as [_ [Hedge _]]. fold m in Hedge.
    destruct (Hedge He0 ltac:(discriminate)) as [-> _].
    rewrite Hl0. apply orb_true_r. }
  eexists. split; [reflexivity|].
  cbn [set_parent_irq pics0 pics1 parent_irq].
  split; [exact Hrb|]. split; [exact Hmb|].
  intros Hm0 Hs0.
  destruct (pic_get_irq_some
              (mkPicState2 m r (parent_irq s)) Master 2)
    as [q0' [Eq0' Hq0']].
  { apply wf_pic_set_irq1_regs, Hw0. }
  { pose proof (service_mask_set_irq1_regs s Master 2 1) as Hsm.
    unfold service_mask in *. cbn [pics set_pics pics0] in *.
    fold m in Hsm. rewrite Hsm. exact Hs0. }
  { lia. }
  { exact Hmb. }
  { cbn [pics pics0]. unfold m. rewrite pic_set_irq1_regs_frame. exact Hm0. }
  rewrite Eq0 in Eq0'. injection Eq0' as <-.
  destruct (Z.geb_spec q0 0); [reflexivity | lia].
Qed.

(** Scenario 4 of the specification: line 10 raises the output. *)
Lemma slave_request_cascades_witness :
  exists s',
    i8259_set_irq (i8259_init 0) (8 + 2) 1 = Ret s'
    /\ Z.testbit (irr (pics0 s')) 2 = true
    /\ parent_irq s' = 1.
Proof.
  destruct (slave_request_cascades (i8259_init 0) 2 1 eq_refl)
    as [s' [E [_ [Hb Hp]]]];
    [lia | discriminate | reflexivity | reflexivity
    | right; reflexivity | reflexivity | reflexivity |].
  exists s'. split; [exact E|]. split; [exact Hb|].
  apply Hp; reflexivity.
Defined.

(** ** Reset *)

(** X18. A reset leaves the unit quiet: on a well-formed pair [pic_reset]
    returns, nothing is pending on the unit afterwards, the reset of the
    master leaves the processor wire lowered and the reset of the slave
    leaves the [last_irr] bit of the master's line 2 clear. *)
Theorem pic_reset_quiet (s : PicState2) (i : pic_index) :
  wf s = true ->
  exists s',
    pic_reset s i = Ret s'
    /\ pic_get_irq s' i = Ret (-1)
    /\ (i = Master -> parent_irq s' = 0)
    /\ (i = Slave -> Z.testbit (last_irr (pics0 s')) 2 = false).
Proof.
  intros H. unfold pic_reset, pic_init_reset. cbv zeta.
  set (z := mkPicState 0 0 0 0 0 0 0 0 0 0 0 0 0 0 0
              (elcr (pics s i)) (elcr_mask (pics s i))).
  destruct i.
  - rewrite pic_update_irq_master.
    rewrite (pic_get_irq_no_request (set_pics Master z s) Master)
      by reflexivity.
    cbn [bind]. eexists. split; [reflexivity|].
    split; [apply pic_get_irq_no_request; reflexivity|].
    split; [reflexivity | discriminate].
  - assert (Hw : wf (set_pics Slave z s) = true).
    { apply wf_set_pics; [exact H|].
      pose proof (wf_pics s Slave H) as Hw. apply wf_pic_iff in Hw.
      apply wf_pic_iff. subst z. cbn. repeat split; try lia; tauto. }
    destruct (pic_update_irq_slave_master _ Hw) as [q [q0 [Eq [_ E]]]].
    rewrite (pic_get_irq_no_request (set_pics Slave z s) Slave) in Eq
      by reflexivity.
    injection Eq as <-. rewrite E. cbn [bind].
    eexists. split; [reflexivity|].
    split; [apply pic_get_irq_no_request; reflexivity|].
    split; [discriminate|]. intros _.
    cbn [set_pics set_parent_irq pics pics0 pics1 Z.geb Z.compare].
    destruct (pic_set_irq1_regs_bits (pics0 s) 2 0 (wf_pics s Master H)
                ltac:(lia)) as [Hlev [_ [Hfall _]]].
    destruct (Z.testbit (elcr (pics0 s)) 2).
    + destruct (Hlev eq_refl) as [_ Hl]. exact Hl.
    + destruct (Hfall eq_refl eq_refl) as [Hl _]. exact Hl.
Qed.

Lemma pic_reset_quiet_witness :
  exists s',
    pic_reset cascade_request Master = Ret s'
    /\ pic_get_irq s' Master = Ret (-1)
    /\ parent_irq s' = 0.
Proof.
  destruct (pic_reset_quiet cascade_request Master eq_refl)
    as [s' [E [Hq [Hp _]]]].
  exists s'. split; [exact E|]. split; [exact Hq | exact (Hp eq_refl)].
Defined.

(** ** Ranges of the registers in reachable states *)

Lemma u8_land7_range (x : Z) : 0 <= u8 (Z.land x 7) < 8.
Proof.
  pose proof (land7_range x). rewrite u8_small by lia. assumption.
Qed.

Lemma flag_u8_land1 (x : Z) : flag (u8 (Z.land x 1)).
Proof.
  pose proof (land1_range x). rewrite u8_small by lia. unfold flag. lia.
Qed.

Lemma u8_land2 (x : Z) : u8 (Z.land x 2) = 0 \/ u8 (Z.land x 2) = 2.
Proof.
  change 2 with (Z.shiftl 1 1) at 1 2. rewrite land_bit by lia.
  destruct (Z.testbit x 1); [right | left]; reflexivity.
Qed.

Lemma flag_0 : flag 0.
Proof. left. reflexivity. Qed.

Lemma flag_1 : flag 1.
Proof. right. reflexivity. Qed.

Lemma pair_ok_wf (s : PicState2) : pair_ok s -> wf s = true.
Proof.
  intros [[H0 _] [H1 _]]. apply wf_iff. split; assumption.
Qed.

Lemma pair_ok_pics (s : PicState2) (i : pic_index) :
  pair_ok s -> unit_ok (elcr_mask_of i) (pics s i).
Proof. intros [H0 H1]. destruct i; assumption. Qed.

Lemma pair_ok_set_pics (s : PicState2) (i : pic_index) (p : PicState) :
  pair_ok s -> unit_ok (elcr_mask_of i) p -> pair_ok (set_pics i p s).
Proof.
  intros [H0 H1] Hp. destruct i; split; assumption.
Qed.

Lemma unit_ok_requests (mask : Z) (p : PicState) (a b : Z) :
  unit_ok mask p -> wf_pic (set_last_irr a (set_irr b p)) = true ->
  unit_ok mask (set_last_irr a (set_irr b p)).
Proof.
  intros [_ [Hr He]] Hw. split; [exact Hw|]. split; [exact Hr | exact He].
Qed.

Lemma pair_ok_update (s : PicState2) (i : pic_index) :
  pair_ok s -> exists s', pic_update_irq s i = Ret s' /\ pair_ok s'.
Proof.
  intros Hok. pose proof Hok as [H0 H1].
  destruct (pic_update_irq_returns s i (pair_ok_wf s Hok))
    as [s' [E [Hw [_ [E1 [a [b E0]]]]]]].
  exists s'. split; [exact E|]. split.
  - rewrite E0. apply unit_ok_requests; [exact H0|].
    rewrite <- E0. apply (wf_pics s' Master Hw).
  - rewrite E1. exact H1.
Qed.

(** Closes [unit_ok] of a unit obtained by stores into a unit that is
    [unit_ok]. *)
Ltac unit_fields :=
  cbn [priority_add init_state read_reg_select poll special_mask auto_eoi
       rotate_on_auto_eoi special_fully_nested_mode init4 single_mode
       elcr elcr_mask
       set_last_irr set_irr set_imr set_isr set_priority_add set_irq_base
       set_read_reg_select set_poll set_special_mask set_init_state
       set_auto_eoi set_rotate_on_auto_eoi set_special_fully_nested_mode
       set_init4 set_single_mode set_elcr].

Ltac unit_leaf Hok :=
  let Hw := fresh "Hw" in
  let Hr := fresh "Hr" in
  let He := fresh "He" in
  destruct Hok as [Hw [Hr He]];
  split; [auto 10 with wf_db|];
  split;
  [ unfold regs_in_range in *; unit_fields;
    repeat match goal with
           | H : _ /\ _ |- _ => destruct H
           end;
    repeat split;
    first [ assumption | apply u8_land7_range | apply flag_u8_land1
          | apply u8_land2 | apply flag_0 | apply flag_1 | lia ]
  | first [ exact He
          | destruct He as [He1 He2]; split;
            [exact He1 | unit_fields; apply Z.land_0_l] ] ].

Lemma pair_ok_set_irq1 (s : PicState2) (i : pic_index) (irq level : Z) :
  pair_ok s ->
  exists s', pic_set_irq1 s i irq level = Ret s' /\ pair_ok s'.
Proof.
  intros Hok. rewrite pic_set_irq1_eq. apply pair_ok_update.
  apply pair_ok_set_pics; [exact Hok|].
  pose proof (pair_ok_pics s i Hok) as Hu.
  rewrite pic_set_irq1_regs_frame. apply unit_ok_requests; [exact Hu|].
  rewrite <- pic_set_irq1_regs_frame.
  apply wf_pic_set_irq1_regs. destruct Hu as [Hw _]. exact Hw.
Qed.

Lemma pair_ok_intack (s : PicState2) (i : pic_index) (irq : Z) :
  pair_ok s ->
  exists s', pic_intack s i irq = Ret s' /\ pair_ok s'.
Proof.
  intros Hok. unfold pic_intack. cbv zeta. apply pair_ok_update.
  apply pair_ok_set_pics; [exact Hok|].
  pose proof (pair_ok_pics s i Hok) as Hu.
  repeat match goal with
         | |- context [if ?c then _ else _] => destruct c
         end; unit_leaf Hu.
Qed.

Lemma pair_ok_read_irq (s : PicState2) :
  pair_ok s ->
  exists r, pic_read_irq s = Ret r /\ pair_ok (snd r).
Proof.
  intros Hok.
  destruct (pic_read_irq_paths s (pair_ok_wf s Hok))
    as [irq [E [Hnone [Hcascade Hplain]]]].
  destruct (Z.lt_ge_cases irq 0) as [Hlt|Hge].
  - eexists. split; [apply Hnone, Hlt | exact Hok].
  - destruct (Z.eq_dec irq 2) as [->|Hne].
    + destruct (Hcascade eq_refl) as [irq2 [E2 [Hspur Hslave]]].
      destruct (Z.lt_ge_cases irq2 0) as [Hlt2|Hge2].
      * destruct (Hspur Hlt2) as [s2 [Es2 R]].
        destruct (pair_ok_intack s Master 2 Hok) as [s2' [Es2' Hok2]].
        rewrite Es2 in Es2'. injection Es2' as <-.
        eexists. split; [exact R | exact Hok2].
      * destruct (Hslave Hge2) as [s1 [s2 [E1 [Es2 R]]]].
        destruct (pair_ok_intack s Slave irq2 Hok) as [s1' [E1' Hok1]].
        rewrite E1 in E1'. injection E1' as <-.
        destruct (pair_ok_intack s1 Master 2 Hok1) as [s2' [Es2' Hok2]].
        rewrite Es2 in Es2'. injection Es2' as <-.
        eexists. split; [exact R | exact Hok2].
    + destruct (Hplain Hge Hne) as [s2 [Es2 R]].
      destruct (pair_ok_intack s Master irq Hok) as [s2' [Es2' Hok2]].
      rewrite Es2 in Es2'. injection Es2' as <-.
      eexists. split; [exact R | exact Hok2].
Qed.

Lemma pair_ok_poll_cleared (s : PicState2) (i : pic_index) (r : Z) :
  pair_ok s -> pair_ok (poll_cleared s i r).
Proof.
  intros Hok.
  pose proof (pair_ok_pics s Master Hok) as H0.
  pose proof (pair_ok_pics s Slave Hok) as H1.
  cbn [pics elcr_mask_of] in H0, H1.
  unfold poll_cleared, clear_line.
  destruct i; cbv zeta.
  - apply pair_ok_set_pics; [exact Hok | cbn [pics elcr_mask_of]; unit_leaf H0].
  - apply pair_ok_set_pics;
      [ apply pair_ok_set_pics; [exact Hok | cbn [elcr_mask_of]; unit_leaf H0]
      | cbn [pics set_pics pics1 elcr_mask_of]; unit_leaf H1 ].
Qed.

Lemma pair_ok_poll_read (s : PicState2) (i : pic_index) :
  pair_ok s ->
  exists r, pic_poll_read s i = Ret r /\ pair_ok (snd r).
Proof.
  intros Hok.
  destruct (pic_poll_read_paths s i (pair_ok_wf s Hok))
    as [r [E [Hnone [Hupd Hcas]]]].
  destruct (Z.lt_ge_cases r 0) as [Hlt|Hge].
  - eexists. split; [apply Hnone, Hlt | exact Hok].
  - assert (Hex : (i = Slave \/ r <> 2) \/ (i = Master /\ r = 2)).
    { destruct i; [|left; left; reflexivity].
      destruct (Z.eq_dec r 2); [right; split; [reflexivity|assumption]|].
      left; right; assumption. }
    destruct Hex as [Hex|[Hi Hr]].
    + destruct (Hupd Hge Hex) as [s2 [E2 [_ R]]].
      destruct (pair_ok_update _ i (pair_ok_poll_cleared s i r Hok))
        as [s2' [E2' Hok2]].
      rewrite E2 in E2'. injection E2' as <-.
      eexists. split; [exact R | exact Hok2].
    + eexists. split; [apply (Hcas Hge Hi Hr)|].
      apply pair_ok_poll_cleared, Hok.
Qed.

Lemma pair_ok_ioport_read (s : PicState2) (i : pic_index) (addr : Z) :
  pair_ok s ->
  exists r, pic_ioport_read s i addr = Ret r /\ pair_ok (snd r).
Proof.
  intros Hok. unfold pic_ioport_read. cbv zeta.
  destruct (truthy (poll (pics s i))).
  - destruct (pair_ok_poll_read s i Hok) as [[ret s1] [E Hok1]].
    rewrite E. cbn [bind]. eexists. split; [reflexivity|].
    cbn [snd] in *. pose proof (pair_ok_pics s1 i Hok1) as Hu.
    apply pair_ok_set_pics; [exact Hok1 | unit_leaf Hu].
  - destruct (addr =? 0); [destruct (truthy (read_reg_select (pics s i)))|];
      eexists; (split; [reflexivity | exact Hok]).
Qed.

Lemma pair_ok_intack_read (s : PicState2) :
  pair_ok s ->
  exists r, pic_intack_read s = Ret r /\ pair_ok (snd r).
Proof.
  intros Hok. unfold pic_intack_read.
  destruct (pair_ok_poll_read s Master Hok) as [[ret s1] [E Hok1]].
  rewrite E. cbn [bind snd] in *.
  assert (Hlast : forall s2, pair_ok s2 ->
            pair_ok (set_pics Master (set_read_reg_select 1 (pics0 s2)) s2)).
  { intros s2 Hok2. pose proof (pair_ok_pics s2 Master Hok2) as Hu.
    cbn [pics elcr_mask_of] in Hu.
    apply pair_ok_set_pics; [exact Hok2 | cbn [elcr_mask_of]; unit_leaf Hu]. }
  destruct (ret =? 2).
  - destruct (pair_ok_poll_read s1 Slave Hok1) as [[ret2 s2] [E2 Hok2]].
    rewrite E2. cbn [bind snd] in *.
    eexists. split; [reflexivity | cbn [snd]; apply Hlast, Hok2].
  - cbn [bind]. eexists. split; [reflexivity | cbn [snd]; apply Hlast, Hok1].
Qed.

Lemma pair_ok_init_reset (s : PicState2) (i : pic_index) :
  pair_ok s ->
  exists s', pic_init_reset s i = Ret s' /\ pair_ok s'.
Proof.
  intros Hok. unfold pic_init_reset. cbv zeta. apply pair_ok_update.
  apply pair_ok_set_pics; [exact Hok|].
  destruct (pair_ok_pics s i Hok) as [Hw [Hr He]].
  split; [|split; [|exact He]].
  - apply wf_pic_iff in Hw. apply wf_pic_iff. cbn.
    repeat split; try lia; tauto.
  - unfold regs_in_range, flag. cbn. repeat split; lia.
Qed.

Lemma pair_ok_reset (s : PicState2) (i : pic_index) :
  pair_ok s ->
  exists s', pic_reset s i = Ret s' /\ pair_ok s'.
Proof.
  intros Hok. unfold pic_reset.
  destruct (pair_ok_init_reset s i Hok) as [s1 [E Hok1]].
  rewrite E. cbn [bind]. eexists. split; [reflexivity|].
  pose proof (pair_ok_pics s1 i Hok1) as Hu.
  apply pair_ok_set_pics; [exact Hok1 | unit_leaf Hu].
Qed.

Lemma pair_ok_elcr_write (s : PicState2) (i : pic_index) (val : Z) :
  pair_ok s -> pair_ok (elcr_ioport_write s i val).
Proof.
  intros Hok. unfold elcr_ioport_write. cbv zeta.
  destruct (pair_ok_pics s i Hok) as [Hw [Hr [He1 He2]]].
  apply pair_ok_set_pics; [exact Hok|].
  split; [auto with wf_db|]. split; [exact Hr|].
  split; [exact He1|]. unit_fields. rewrite He1.
  rewrite u8_small
    by (rewrite Z.land_comm; apply land_byte_l; destruct i; cbn; lia).
  rewrite <- Z.land_assoc, Z.land_diag. reflexivity.
Qed.

Lemma pair_ok_init (level : Z) : pair_ok (i8259_init level).
Proof.
  split; (split; [reflexivity|]); split;
    try (split; reflexivity);
    unfold regs_in_range, flag; cbn; repeat split; lia.
Qed.

(** Closes a branch of the port decoder for [pair_ok]. *)
Ltac ok_branch Hok Hu :=
  repeat match goal with
         | |- context [if ?c then _ else _] => destruct c
         end;
  first
    [ eexists; split; [reflexivity|]; first
        [ exact Hok
        | apply pair_ok_set_pics; [exact Hok | unit_leaf Hu] ]
    | apply pair_ok_update; apply pair_ok_set_pics;
      [exact Hok | unit_leaf Hu] ].

Lemma pair_ok_ioport_write (s : PicState2) (i : pic_index) (addr val : Z) :
  pair_ok s ->
  if (addr =? 0) && truthy (Z.land val 16) && truthy (Z.land val 8)
  then pic_ioport_write s i addr val
       = Halt "level sensitive irq not supported"
  else exists s', pic_ioport_write s i addr val = Ret s' /\ pair_ok s'.
Proof.
  intros Hok. pose proof (pair_ok_pics s i Hok) as Hu.
  unfold pic_ioport_write. cbv zeta.
  destruct (addr =? 0); cbn [andb].
  - destruct (truthy (Z.land val 16)); cbn [andb].
    + destruct (pair_ok_init_reset s i Hok) as [s1 [E Hok1]].
      rewrite E. cbn [bind].
      pose proof (pair_ok_pics s1 i Hok1) as Hu1.
      destruct (truthy (Z.land val 8)); [reflexivity|].
      ok_branch Hok1 Hu1.
    + destruct (truthy (Z.land val 8)); [ok_branch Hok Hu|].
      destruct ((Z.shiftr val 5 =? 0) || (Z.shiftr val 5 =? 4)) eqn:Hc.
      * apply orb_true_iff in Hc.
        destruct Hc as [Hc|Hc]; apply Z.eqb_eq in Hc; rewrite Hc.
        -- ok_branch Hok Hu.
        -- ok_branch Hok Hu.
      * destruct ((Z.shiftr val 5 =? 1) || (Z.shiftr val 5 =? 5)).
        -- destruct (get_priority_byte (pics s i) (isr (pics s i)))
             as [pr [E _]].
           { destruct Hu as [Hw _]. apply wf_pic_iff in Hw. tauto. }
           rewrite E. cbn [bind]. ok_branch Hok Hu.
        -- ok_branch Hok Hu.
  - ok_branch Hok Hu.
Qed.

Lemma pair_ok_run (o : operation) (s : PicState2) :
  pair_ok s -> admissible o ->
  if level_icw1 o
  then run o s = Halt "level sensitive irq not supported"
  else exists s', run o s = Ret s' /\ pair_ok s'.
Proof.
  intros Hok Hadm. destruct o as [i addr val|i addr|i val|irq level| | |i];
    cbn [run level_icw1].
  - apply pair_ok_ioport_write, Hok.
  - destruct (pair_ok_ioport_read s i addr Hok) as [r [E Hr]].
    rewrite E. cbn [bind]. eexists. split; [reflexivity | exact Hr].
  - eexists. split; [reflexivity | apply pair_ok_elcr_write, Hok].
  - apply pair_ok_set_irq1, Hok.
  - destruct (pair_ok_read_irq s Hok) as [r [E Hr]].
    rewrite E. cbn [bind]. eexists. split; [reflexivity | exact Hr].
  - destruct (pair_ok_intack_read s Hok) as [r [E Hr]].
    rewrite E. cbn [bind]. eexists. split; [reflexivity | exact Hr].
  - apply pair_ok_reset, Hok.
Qed.

Lemma reachable_pair_ok (s : PicState2) : reachable s -> pair_ok s.
Proof.
  induction 1 as [level | s s' o Hr IH Hadm Hrun].
  - apply pair_ok_init.
  - pose proof (pair_ok_run o s IH Hadm) as Hstep.
    destruct (level_icw1 o).
    + rewrite Hrun in Hstep. discriminate Hstep.
    + destruct Hstep as [s'' [E Hok]]. rewrite Hrun in E.
      injection E as <-. exact Hok.
Qed.

(** X19. In every state reachable from the construction of the pair the
    mode registers of both units hold only the values the decoder stores:
    [priority_add] is 0..7, [init_state] is 0..3, [single_mode] is 0 or 2
    and [read_reg_select], [poll], [special_mask], [auto_eoi],
    [rotate_on_auto_eoi], [special_fully_nested_mode] and [init4] are 0
    or 1. *)
Theorem reachable_regs_in_range (s : PicState2) (i : pic_index) :
  reachable s -> regs_in_range (pics s i).
Proof.
  intros Hr. destruct (pair_ok_pics s i (reachable_pair_ok s Hr)) as [_ [H _]].
  exact H.
Qed.

Lemma reachable_regs_in_range_witness :
  0 <= priority_add (pics cascade_request Master) < 8.
Proof.
  destruct (reachable_regs_in_range cascade_request Master
              cascade_request_reachable) as [H _].
  exact H.
Defined.

(** X20. In every reachable state [elcr_mask] is 0xF8 on the master and
    0xDE on the slave and [elcr] has no bit outside it; so lines 0, 1 and 2
    of the master (the cascade line among them) and lines 0 and 5 of the
    slave are edge-triggered, whatever was written to the ELCR ports. *)
Theorem reachable_elcr (s : PicState2) :
  reachable s ->
  elcr_mask (pics0 s) = 248 /\ elcr_mask (pics1 s) = 222
  /\ Z.land (elcr (pics0 s)) 248 = elcr (pics0 s)
  /\ Z.land (elcr (pics1 s)) 222 = elcr (pics1 s)
  /\ (forall n, 0 <= n < 3 -> Z.testbit (elcr (pics0 s)) n = false)
  /\ Z.testbit (elcr (pics1 s)) 0 = false
  /\ Z.testbit (elcr (pics1 s)) 5 = false.
Proof.
  intros Hr.
  destruct (reachable_pair_ok s Hr) as [[_ [_ [Hm0 He0]]] [_ [_ [Hm1 He1]]]].
  split; [exact Hm0|]. split; [exact Hm1|].
  split; [exact He0|]. split; [exact He1|].
  split; [|split].
  - intros n Hn. rewrite <- He0, Z.land_spec.
    assert (Hc : n = 0 \/ n = 1 \/ n = 2) by lia.
    destruct Hc as [->|[->| ->]]; apply andb_false_r.
  - rewrite <- He1, Z.land_spec. apply andb_false_r.
  - rewrite <- He1, Z.land_spec. apply andb_false_r.
Qed.

(** After 0xFF is written to the master's ELCR port, line 2 of the master
    is still edge-triggered. *)
Lemma reachable_elcr_witness :
  Z.testbit
    (elcr (pics0 (elcr_ioport_write (i8259_init 0) Master 255))) 2 = false.
Proof.
  assert (Hr : reachable (elcr_ioport_write (i8259_init 0) Master 255)).
  { apply (reachable_step (i8259_init 0) _ (OpElcrWrite Master 255));
      [apply reachable_init | exact I | reflexivity]. }
  destruct (reachable_elcr _ Hr) as [_ [_ [_ [_ [Hb _]]]]].
  apply Hb. lia.
Defined.

(** X21. No operation hangs the controller: on every reachable state every
    admissible operation returns into a reachable state, except the write
    to offset 0 with bits 4 and 3 set, which stops the machine; the loop of
    [get_priority] always exits. *)
Theorem reachable_progress (s : PicState2) (o : operation) :
  reachable s -> admissible o ->
  (level_icw1 o = true
   /\ run o s = Halt "level sensitive irq not supported")
  \/ (level_icw1 o = false
      /\ exists s', run o s = Ret s' /\ reachable s').
Proof.
  intros Hr Hadm.
  pose proof (pair_ok_run o s (reachable_pair_ok s Hr) Hadm) as Hstep.
  destruct (level_icw1 o).
  - left. split; [reflexivity | exact Hstep].
  - right. split; [reflexivity|].
    destruct Hstep as [s' [E _]]. exists s'. split; [exact E|].
    apply (reachable_step s s' o); assumption.
Qed.

Lemma reachable_progress_witness :
  exists s', run OpReadIrq cascade_request = Ret s' /\ reachable s'.
Proof.
  destruct (reachable_progress cascade_request OpReadIrq
              cascade_request_reachable I) as [[Hc _]|[_ Hs]].
  - discriminate Hc.
  - exact Hs.
Defined.

(** X22. The vector of an acknowledge is a byte: on every reachable state
    [pic_read_irq] returns a vector 0..255 whose low three bits are a line
    number and whose other bits are the [irq_base] of the master or of the
    slave. *)
Theorem pic_read_irq_vector (s : PicState2) :
  reachable s ->
  exists intno s' line,
    pic_read_irq s = Ret (intno, s')
    /\ 0 <= intno < 256
    /\ 0 <= line < 8
    /\ Z.land intno 7 = line
    /\ (intno = irq_base (pics0 s) + line
        \/ intno = irq_base (pics1 s) + line).
Proof.
  intros Hr. destruct (reachable_invariant s Hr) as [Hw Hb].
  assert (Hvec : forall j line, 0 <= line < 8 ->
            0 <= irq_base (pics s j) + line < 256
            /\ Z.land (irq_base (pics s j) + line) 7 = line).
  { intros j line Hl. pose proof (Hb j) as Hj.
    pose proof (wf_pics s j Hw) as Hwj. apply wf_pic_iff in Hwj.
    rewrite land7_mod in Hj.
    assert (Hbase : 0 <= irq_base (pics s j) < 256) by tauto.
    rewrite land7_mod.
    apply Z.mod_divide in Hj; [|lia]. destruct Hj as [k Hk].
    rewrite Hk in *. split; [lia|].
    rewrite Z.add_comm, Z.mod_add by lia. apply Z.mod_small. lia. }
  destruct (pic_read_irq_paths s Hw) as [irq [E [Hnone [Hcascade Hplain]]]].
  destruct (pic_get_irq_returns s Master (wf_pics s Master Hw))
    as [irq' [E' Hirq]].
  rewrite E in E'. injection E' as <-.
  destruct Hirq as [->|Hirq].
  - destruct (Hvec Master 7 ltac:(lia)) as [Hr7 Hl7].
    exists (irq_base (pics0 s) + 7), s, 7.
    split; [apply Hnone; lia|]. split; [exact Hr7|]. split; [lia|].
    split; [exact Hl7 | left; reflexivity].
  - destruct (Z.eq_dec irq 2) as [->|Hne].
    + destruct (Hcascade eq_refl) as [irq2 [E2 [Hspur Hslave]]].
      destruct (pic_get_irq_returns s Slave (wf_pics s Slave Hw))
        as [irq2' [E2' Hirq2]].
      rewrite E2 in E2'. injection E2' as <-.
      destruct Hirq2 as [->|Hirq2].
      * destruct (Hspur ltac:(lia)) as [s2 [_ R]].
        destruct (Hvec Slave 7 ltac:(lia)) as [Hr7 Hl7].
        exists (irq_base (pics1 s) + 7), s2, 7.
        split; [exact R|]. split; [exact Hr7|]. split; [lia|].
        split; [exact Hl7 | right; reflexivity].
      * destruct (Hslave ltac:(lia)) as [s1 [s2 [_ [_ R]]]].
        destruct (Hvec Slave irq2 Hirq2) as [Hrq Hlq].
        exists (irq_base (pics1 s) + irq2), s2, irq2.
        split; [exact R|]. split; [exact Hrq|]. split; [exact Hirq2|].
        split; [exact Hlq | right; reflexivity].
    + destruct (Hplain ltac:(lia) Hne) as [s2 [_ R]].
      destruct (Hvec Master irq Hirq) as [Hrq Hlq].
      exists (irq_base (pics0 s) + irq), s2, irq.
      split; [exact R|]. split; [exact Hrq|]. split; [exact Hirq|].
      split; [exact Hlq | left; reflexivity].
Qed.

Lemma pic_read_irq_vector_witness :
  exists intno s', pic_read_irq cascade_request = Ret (intno, s')
                   /\ 0 <= intno < 256.
Proof.
  destruct (pic_read_irq_vector cascade_request cascade_request_reachable)
    as [intno [s' [line [E [Hr _]]]]].
  exists intno, s'. split; [exact E | exact Hr].
Defined.

(** ** Priority commands and special fully nested mode *)

(** X23. OCW2 command 6 (set priority) on a well-formed pair returns and
    changes [priority_add] only, to [(val + 1) & 7], which makes line
    [val & 7] the line of lowest priority; OCW2 command 2 changes
    nothing. *)
Theorem ocw2_set_priority (s : PicState2) (i : pic_index) (val : Z) :
  wf s = true ->
  Z.land val 16 = 0 -> Z.land val 8 = 0 ->
  (Z.shiftr val 5 = 6 ->
   exists s',
     pic_ioport_write s i 0 val = Ret s'
     /\ pics s' i = set_priority_add (Z.land (val + 1) 7) (pics s i)
     /\ line_at (pics s' i) 7 = Z.land val 7)
  /\ (Z.shiftr val 5 = 2 -> pic_ioport_write s i 0 val = Ret s).
Proof.
  intros H H16 H8.
  unfold pic_ioport_write. cbn [Z.eqb].
  rewrite H16, H8. change (truthy 0) with false. cbn iota. cbv zeta.
  split; intros Ec; rewrite Ec; cbn [Z.eqb Pos.eqb orb]; [|reflexivity].
  rewrite (u8_small (Z.land (val + 1) 7))
    by (pose proof (land7_range (val + 1)); lia).
  destruct (pic_update_irq_set s i
              (set_priority_add (Z.land (val + 1) 7) (pics s i)) H)
    as [s' [E [_ [Hi _]]]].
  { apply wf_pic_iff. pose proof (wf_pics s i H) as Hw. apply wf_pic_iff in Hw.
    pose proof (land7_range (val + 1)). cbn. repeat split; try lia; tauto. }
  exists s'. split; [exact E|]. split; [exact Hi|].
  rewrite Hi. unfold line_at. cbn [priority_add set_priority_add].
  rewrite !land7_mod, Z.add_mod_idemp_r by lia.
  replace (7 + (val + 1)) with (val + 1 * 8) by lia.
  apply Z.mod_add. lia.
Qed.

(** OCW2 = 0xC2: line 2 becomes the lowest, line 3 the highest. *)
Lemma ocw2_set_priority_witness :
  exists s',
    pic_ioport_write (i8259_init 0) Master 0 194 = Ret s'
    /\ priority_add (pics s' Master) = 3.
Proof.
  destruct (ocw2_set_priority (i8259_init 0) Master 194 eq_refl eq_refl eq_refl)
    as [Hset _].
  destruct (Hset eq_refl) as [s' [E [Hp _]]].
  exists s'. split; [exact E|]. rewrite Hp. reflexivity.
Defined.

(** X24. Special fully nested mode on the master: with only the cascade
    line 2 in service (and special mask mode off), a new unmasked request
    on line 2 is pending when [special_fully_nested_mode] is set, and is
    not when it is clear and line 2 is the only unmasked request. *)
Theorem sfnm_cascade_request (s : PicState2) :
  wf_pic (pics s Master) = true ->
  special_mask (pics s Master) = 0 ->
  isr (pics s Master) = 4 ->
  Z.testbit (irr (pics s Master)) 2 = true ->
  Z.testbit (imr (pics s Master)) 2 = false ->
  (special_fully_nested_mode (pics s Master) <> 0 ->
   exists irq, pic_get_irq s Master = Ret irq /\ 0 <= irq < 8)
  /\ (special_fully_nested_mode (pics s Master) = 0 ->
      Z.land (irr (pics s Master)) (Z.lnot (imr (pics s Master))) = 4 ->
      pic_get_irq s Master = Ret (-1)).
Proof.
  intros H Hm Hisr Hb Himr. split.
  - intros Hf. apply (pic_get_irq_some s Master 2 H); try assumption; [|lia].
    unfold service_mask. cbv zeta. rewrite Hm, Hisr.
    apply truthy_true in Hf. rewrite Hf. reflexivity.
  - intros Hf Hreq.
    destruct (pic_get_irq_char s Master H) as [pr [pc [Epr [Epc [_ [_ E]]]]]].
    rewrite (service_mask_plain s Master Hm (or_introl Hf)), Hisr in Epc.
    rewrite Hreq, Epc in Epr. injection Epr as <-.
    rewrite Z.ltb_irrefl, andb_false_r in E. exact E.
Qed.

Lemma sfnm_cascade_request_witness :
  exists irq,
    pic_get_irq
      (set_pics Master
         (set_special_fully_nested_mode 1
            (set_isr 4 (set_irr 4 (pics0 (i8259_init 0)))))
         (i8259_init 0)) Master = Ret irq
    /\ 0 <= irq < 8.
Proof.
  destruct (sfnm_cascade_request
              (set_pics Master
                 (set_special_fully_nested_mode 1
                    (set_isr 4 (set_irr 4 (pics0 (i8259_init 0)))))
                 (i8259_init 0)) eq_refl eq_refl eq_refl eq_refl eq_refl)
    as [Hset _].
  apply Hset. discriminate.
Defined.

(** * The filtering windows of the PCI bridge *)

Lemma testbit_u32_low (z n : Z) :
  0 <= n < 32 -> Z.testbit (u32 z) n = Z.testbit z n.
Proof. intros H. unfold u32. apply Z.mod_pow2_bits_low. lia. Qed.

Lemma testbit_u64_low (z n : Z) :
  0 <= n < 64 -> Z.testbit (u64 z) n = Z.testbit z n.
Proof. intros H. unfold u64. apply Z.mod_pow2_bits_low. lia. Qed.

(** A number whose [k] low bits are clear. *)
Lemma low_bits_clear (y k : Z) :
  0 <= k ->
  (forall n, 0 <= n < k -> Z.testbit y n = false) ->
  Z.land y (Z.ones k) = 0.
Proof.
  intros Hk Hl. apply Z.bits_inj'. intros n Hn.
  rewrite Z.land_spec, Z.bits_0.
  destruct (Z.lt_ge_cases n k) as [Hlt|Hge].
  - rewrite Hl by lia. reflexivity.
  - rewrite Z.ones_spec_high by lia. apply andb_false_r.
Qed.

(** A number whose [k] low bits are set. *)
Lemma low_bits_set (y k : Z) :
  0 <= k ->
  (forall n, 0 <= n < k -> Z.testbit y n = true) ->
  Z.land y (Z.ones k) = Z.ones k.
Proof.
  intros Hk Hl. apply Z.bits_inj'. intros n Hn.
  rewrite Z.land_spec.
  destruct (Z.lt_ge_cases n k) as [Hlt|Hge].
  - rewrite Hl by lia. reflexivity.
  - rewrite Z.ones_spec_high by lia. apply andb_false_r.
Qed.

Lemma pci_config_get_io_base_low (E : pci_env) (config : Z -> Z)
  (base upper n : Z) :
  0 <= n < 8 ->
  Z.testbit (pci_config_get_io_base E config base upper) n = false.
Proof.
  intros Hn. unfold pci_config_get_io_base. cbv zeta.
  destruct (truthy (Z.land (config base) (PCI_IO_RANGE_TYPE_32 E)));
    rewrite ?testbit_u32_low, ?Z.lor_spec, ?testbit_u32_low by lia;
    rewrite ?Z.shiftl_spec_low by lia; reflexivity.
Qed.

Lemma pci_config_get_memory_base_low (E : pci_env) (config : Z -> Z)
  (base n : Z) :
  0 <= n < 16 ->
  Z.testbit (pci_config_get_memory_base E config base) n = false.
Proof.
  intros Hn. unfold pci_config_get_memory_base.
  rewrite testbit_u64_low, Z.shiftl_spec_low by lia. reflexivity.
Qed.

Lemma pci_config_get_pref_base_low (E : pci_env) (config : Z -> Z)
  (base upper n : Z) :
  0 <= n < 16 ->
  Z.testbit (pci_config_get_pref_base E config base upper) n = false.
Proof.
  intros Hn. unfold pci_config_get_pref_base. cbv zeta.
  destruct (truthy (Z.land (u64 (pci_get_word E config base))
                      (PCI_PREF_RANGE_TYPE_64 E)));
    rewrite ?testbit_u64_low, ?Z.lor_spec, ?testbit_u64_low by lia;
    rewrite ?Z.shiftl_spec_low by lia; reflexivity.
Qed.

(** X25. The base of a bridge window is aligned whatever the configuration
    space holds: the low 8 bits of an I/O base and the low 16 bits of a
    memory or prefetchable-memory base are 0. *)
Theorem pci_bridge_get_base_aligned (E : pci_env) (config : Z -> Z) (type : Z) :
  Z.land (pci_bridge_get_base E config type)
    (if truthy (Z.land type (PCI_BASE_ADDRESS_SPACE_IO E))
     then 255 else 65535) = 0.
Proof.
  unfold pci_bridge_get_base.
  destruct (truthy (Z.land type (PCI_BASE_ADDRESS_SPACE_IO E))).
  - apply (low_bits_clear _ 8); [lia|]. intros n Hn.
    apply pci_config_get_io_base_low, Hn.
  - apply (low_bits_clear _ 16); [lia|]. intros n Hn.
    destruct (truthy (Z.land type (PCI_BASE_ADDRESS_MEM_PREFETCH E))).
    + apply pci_config_get_pref_base_low, Hn.
    + apply pci_config_get_memory_base_low, Hn.
Qed.

(** X26. The limit of a bridge window is the last byte of its granule
    whatever the configuration space holds: the low 12 bits of an I/O limit
    and the low 20 bits of a memory or prefetchable-memory limit are all
    ones, so the limit is never below 0xfff, respectively 0xfffff, and a
    limit register of 0 still leaves the first granule inside the
    window. *)
Theorem pci_bridge_get_limit_low_bits (E : pci_env) (config : Z -> Z) (type : Z) :
  Z.land (pci_bridge_get_limit E config type)
    (if truthy (Z.land type (PCI_BASE_ADDRESS_SPACE_IO E))
     then 4095 else 1048575)
  = (if truthy (Z.land type (PCI_BASE_ADDRESS_SPACE_IO E))
     then 4095 else 1048575)
  /\ (if truthy (Z.land type (PCI_BASE_ADDRESS_SPACE_IO E))
      then 4095 else 1048575) <= pci_bridge_get_limit E config type < 2 ^ 64.
Proof.
  assert (Hge : forall y k, 0 <= k -> 0 <= y ->
                  Z.land y (Z.ones k) = Z.ones k -> Z.ones k <= y).
  { intros y k Hk Hy Hl. rewrite <- Hl, Z.land_ones by exact Hk.
    apply Z.mod_le; [exact Hy|]. apply Z.pow_pos_nonneg; lia. }
  unfold pci_bridge_get_limit.
  destruct (truthy (Z.land type (PCI_BASE_ADDRESS_SPACE_IO E))); cbv zeta.
  - assert (Hl : Z.land (u64 (Z.lor (pci_config_get_io_base E config
                                       (PCI_IO_LIMIT E) (PCI_IO_LIMIT_UPPER16 E))
                                    4095)) (Z.ones 12) = Z.ones 12).
    { apply low_bits_set; [lia|]. intros n Hn.
      rewrite testbit_u64_low, Z.lor_spec by lia.
      change 4095 with (Z.ones 12). rewrite Z.ones_spec_low by lia.
      apply orb_true_r. }
    pose proof (Z.mod_pos_bound
                  (Z.lor (pci_config_get_io_base E config
                            (PCI_IO_LIMIT E) (PCI_IO_LIMIT_UPPER16 E)) 4095)
                  (2 ^ 64) ltac:(lia)) as Hb.
    fold (u64 (Z.lor (pci_config_get_io_base E config
                        (PCI_IO_LIMIT E) (PCI_IO_LIMIT_UPPER16 E)) 4095)) in Hb.
    split; [exact Hl|]. split; [|lia].
    apply (Hge _ 12); [lia | lia | exact Hl].
  - match goal with
    | |- Z.land (u64 (Z.lor ?l _)) _ = _ /\ _ => set (limit := l)
    end.
    assert (Hl : Z.land (u64 (Z.lor limit 1048575)) (Z.ones 20) = Z.ones 20).
    { apply low_bits_set; [lia|]. intros n Hn.
      rewrite testbit_u64_low, Z.lor_spec by lia.
      change 1048575 with (Z.ones 20). rewrite Z.ones_spec_low by lia.
      apply orb_true_r. }
    pose proof (Z.mod_pos_bound (Z.lor limit 1048575) (2 ^ 64) ltac:(lia))
      as Hb.
    fold (u64 (Z.lor limit 1048575)) in Hb.
    split; [exact Hl|]. split; [|lia].
    apply (Hge _ 20); [lia | lia | exact Hl].
Qed.
